(** * CacheDictionary: batch lookup, update dispatch and answer preparation

    A shallow embedding of [dbms/src/Dictionaries/CacheDictionary.inc.h]:
    [getItemsNumberImpl], [getItemsString] and [prepareAnswer].

    Conventions.
    - Keys ([Key], a [UInt64]) are [N]; row and cell indices ([size_t]) are
      [nat].  A time point is the [int64] tick count of
      [std::chrono::system_clock] (nanoseconds) as a [Z]; the lifetime bounds
      and the number drawn from them count seconds.  Arithmetic on time
      points wraps around at 64 bits ([wrap_int64]).
    - [cells] and the attribute arrays are lists accessed by index
      ([l !!! i] reads, [<[i:=x]> l] writes).
    - The grouping maps ([std::unordered_map<Key, std::vector<size_t>>])
      are [gmap N (list nat)]; [m !!! k] is [operator[]] on an absent key
      (the empty vector).  The order in which such a map is iterated is not
      fixed by the language: it is a parameter ([unordered_keys]), of which
      only the fact that it lists every key once is known.
    - The members [cells], [attributes], the counters, the random engine and
      the update queue are [mutable] members of a [const] object: the
      functions below thread the dictionary through explicitly.
    - The readings of [std::chrono::system_clock::now()] are arguments. *)

From Stdlib Require Import ZArith String Ascii List Lia.
From stdpp Require Import base option list gmap.

Local Open Scope Z_scope.

Abbreviation Key := N.

(** ** Errors *)

Inductive Exception : Type :=
  | QueueFullError.

Inductive Result (A : Type) : Type :=
  | Ok (a : A)
  | Throw (e : Exception).
Arguments Ok {A} a.
Arguments Throw {A} e.

Definition bind {A B : Type} (r : Result A) (k : A → Result B) : Result B :=
  match r with
  | Ok a => k a
  | Throw e => Throw e
  end.

(** ** Data model *)

(** Modelled from the spec: [CellMetadata] is declared in CacheDictionary.h,
    which is not part of the sources.  Section 3 gives a cell a key, an
    expiry time point and a default flag. *)
Record CellMetadata : Type := mkCell {
  cell_id : Key;
  expires_at : Z;
  is_default : bool
}.

Global Instance CellMetadata_inhabited : Inhabited CellMetadata :=
  populate (mkCell 0%N 0 false).

(** [std::chrono::time_point<std::chrono::system_clock>::max()]: the largest
    [int64] tick count. *)
Definition time_point_max : Z := 2 ^ 63 - 1.

(** A value as a two's complement 64-bit integer. *)
Definition wrap_int64 (z : Z) : Z := (z + 2 ^ 63) mod 2 ^ 64 - 2 ^ 63.

(** The period of [std::chrono::system_clock] is one nanosecond (libstdc++). *)
Definition system_clock_ticks_per_second : Z := 10 ^ 9.

(** [std::chrono::seconds{s}] for a [UInt64] [s], converted to the duration
    of the clock: the count becomes an [int64] and is multiplied by the
    number of ticks in a second, in [int64].  Where the product or the sum
    below leaves the range of [int64] the language gives no result; the
    model takes the two's complement one, and the statements that give an
    exact expiry assume that the range is not left. *)
Definition seconds_to_ticks (s : Z) : Z :=
  wrap_int64 (wrap_int64 s * system_clock_ticks_per_second).

(** [time_point + duration]. *)
Definition time_point_add (t ticks : Z) : Z := wrap_int64 (t + ticks).

(** Modelled from the spec: the accessors of [CellMetadata] (CacheDictionary.h).
    Section 3: the key, the expiry and the default flag are three separate
    attributes of a cell. *)
Definition isDefault (c : CellMetadata) : bool := is_default c.
Definition expiresAt (c : CellMetadata) : Z := expires_at c.
Definition setId (c : CellMetadata) (k : Key) : CellMetadata :=
  mkCell k (expires_at c) (is_default c).
Definition setExpiresAt (c : CellMetadata) (t : Z) : CellMetadata :=
  mkCell (cell_id c) t (is_default c).
Definition setDefault (c : CellMetadata) : CellMetadata :=
  mkCell (cell_id c) (expires_at c) true.

Record FindResult : Type := mkFindResult {
  cell_idx : nat;
  valid : bool;
  outdated : bool
}.

(** One attribute of the dictionary: its null value and its column of
    payloads, indexed by cell. *)
Record Attribute (V : Type) : Type := mkAttribute {
  null_values : V;
  arrays : list V
}.
Arguments mkAttribute {V} _ _.
Arguments null_values {V} _.
Arguments arrays {V} _.

Global Instance Attribute_inhabited {V} `{!Inhabited V} : Inhabited (Attribute V) :=
  populate (mkAttribute inhabitant []).

(** Modelled from the spec: [setDefaultAttributeValue] is defined in
    CacheDictionary.cpp, which is not part of the sources.  Section 4.3:
    it writes the type's null value into the attribute store at the slot. *)
Definition setDefaultAttributeValue {V} (a : Attribute V) (idx : nat) : Attribute V :=
  mkAttribute (null_values a) (<[idx := null_values a]> (arrays a)).

(** [dict_lifetime]: the range [[min_sec, max_sec]] of section 6 (the type is
    declared outside this file). *)
Record DictionaryLifetime : Type := mkLifetime {
  min_sec : Z;
  max_sec : Z
}.

(** Modelled from the spec: [UpdateUnit] is declared in CacheDictionary.h.
    Section 3: the requested keys and the found mask.  The mask has an entry
    for every requested key, so [found_ids_mask_ptr->at(id)] is a total
    lookup here. *)
Record UpdateUnit : Type := mkUpdateUnit {
  requested_ids : list Key;
  found_ids_mask : Key → bool
}.

(** [std::make_shared<UpdateUnit>(ids)]: nothing is found yet. *)
Definition make_UpdateUnit (ids : list Key) : UpdateUnit :=
  mkUpdateUnit ids (λ _, false).

(** The members of the dictionary that the three functions use.  The class
    is declared in CacheDictionary.h; the update queue and its capacity are
    those of section 4.2. *)
Record CacheDictionary (V : Type) : Type := mkDict {
  cells : list CellMetadata;
  attributes : list (Attribute V);
  zero_cell_idx : nat;
  dict_lifetime : DictionaryLifetime;
  allow_read_expired_keys : bool;
  rnd_engine : N;
  element_count : Z;
  query_count : Z;
  hit_count : Z;
  update_queue : list UpdateUnit;
  max_update_queue_size : nat
}.
Arguments mkDict {V} _ _ _ _ _ _ _ _ _ _ _.
Arguments cells {V} _.
Arguments attributes {V} _.
Arguments zero_cell_idx {V} _.
Arguments dict_lifetime {V} _.
Arguments allow_read_expired_keys {V} _.
Arguments rnd_engine {V} _.
Arguments element_count {V} _.
Arguments query_count {V} _.
Arguments hit_count {V} _.
Arguments update_queue {V} _.
Arguments max_update_queue_size {V} _.

(** [std::atomic<size_t>::fetch_add]: the counters are 64 bits wide. *)
Definition fetch_add (counter n : Z) : Z := (counter + n) mod 2 ^ 64.

Section Setters.
Context {V : Type}.
Implicit Type d : CacheDictionary V.

Definition with_cells d cs : CacheDictionary V :=
  mkDict cs (attributes d) (zero_cell_idx d) (dict_lifetime d)
    (allow_read_expired_keys d) (rnd_engine d) (element_count d)
    (query_count d) (hit_count d) (update_queue d) (max_update_queue_size d).

Definition with_attributes d ats : CacheDictionary V :=
  mkDict (cells d) ats (zero_cell_idx d) (dict_lifetime d)
    (allow_read_expired_keys d) (rnd_engine d) (element_count d)
    (query_count d) (hit_count d) (update_queue d) (max_update_queue_size d).

Definition with_rnd_engine d g : CacheDictionary V :=
  mkDict (cells d) (attributes d) (zero_cell_idx d) (dict_lifetime d)
    (allow_read_expired_keys d) g (element_count d)
    (query_count d) (hit_count d) (update_queue d) (max_update_queue_size d).

Definition with_element_count d n : CacheDictionary V :=
  mkDict (cells d) (attributes d) (zero_cell_idx d) (dict_lifetime d)
    (allow_read_expired_keys d) (rnd_engine d) n
    (query_count d) (hit_count d) (update_queue d) (max_update_queue_size d).

Definition with_query_count d n : CacheDictionary V :=
  mkDict (cells d) (attributes d) (zero_cell_idx d) (dict_lifetime d)
    (allow_read_expired_keys d) (rnd_engine d) (element_count d)
    n (hit_count d) (update_queue d) (max_update_queue_size d).

Definition with_hit_count d n : CacheDictionary V :=
  mkDict (cells d) (attributes d) (zero_cell_idx d) (dict_lifetime d)
    (allow_read_expired_keys d) (rnd_engine d) (element_count d)
    (query_count d) n (update_queue d) (max_update_queue_size d).

Definition with_update_queue d q : CacheDictionary V :=
  mkDict (cells d) (attributes d) (zero_cell_idx d) (dict_lifetime d)
    (allow_read_expired_keys d) (rnd_engine d) (element_count d)
    (query_count d) (hit_count d) q (max_update_queue_size d).
End Setters.

(** ** Collaborators that are declared elsewhere

    [findCellIdx], [tryPushToUpdateQueueOrThrow] and
    [waitForCurrentUpdateFinish] are members defined in CacheDictionary.cpp;
    [rnd_engine] is a [pcg64] and [std::uniform_int_distribution] comes from
    the standard library.  The functions of this file are written against
    this interface; [spec_externals] below instantiates it from the
    specification. *)
Class Externals (V : Type) : Type := {
  (** Where key [id] lives (or would live) and whether it is fresh at [now]. *)
  findCellIdx : list CellMetadata → Key → Z → FindResult;
  (** [distribution(rnd_engine)] for [distribution{a, b}]: the number drawn
      and the engine afterwards. *)
  uniform_int_distribution : Z → Z → N → Z * N;
  uniform_int_distribution_range : ∀ a b g,
    a ≤ b → a ≤ (uniform_int_distribution a b g).1 ≤ b;
  (** The keys of a grouping map in the order in which
      [std::unordered_map] iterates over it: every key, once. *)
  unordered_keys : gmap N (list nat) → list Key;
  unordered_keys_perm : ∀ m, unordered_keys m ≡ₚ (map_to_list m).*1;
  (** Enqueue a unit, or fail. *)
  tryPushToUpdateQueueOrThrow :
    CacheDictionary V → UpdateUnit → Result (CacheDictionary V);
  (** Block until a worker has processed the unit: the dictionary as the
      worker left it and the found mask it filled in. *)
  waitForCurrentUpdateFinish :
    CacheDictionary V → UpdateUnit → CacheDictionary V * (Key → bool)
}.

(** ** prepareAnswer (lines 341-411) *)

Section PrepareAnswer.
Context {V : Type} `{!Inhabited V} {EV : Externals V}.
(** The handlers are closures over the caller's locals [L]; they read the
    attribute array through a reference, hence from the dictionary as it
    is when they run. *)
Context {L : Type}.
Variable on_cell_updated : CacheDictionary V → Key → nat → L → L.
Variable on_id_not_found : CacheDictionary V → Key → nat → L → L.

(** Lines 395-401: the expiry given to a cell, and the engine afterwards. *)
Definition new_expires_at (lt : DictionaryLifetime) (now : Z) (g : N) : Z * N :=
  if negb (min_sec lt =? 0) && negb (max_sec lt =? 0) then
    let '(s, g') := uniform_int_distribution (min_sec lt) (max_sec lt) g in
    (time_point_add now (seconds_to_ticks s), g')
  else (time_point_max, g).

(** Lines 389-406: the cell at [idx] is taken over by [id]. *)
Definition occupy_as_default (d : CacheDictionary V) (id : Key) (idx : nat)
    (now : Z) : CacheDictionary V :=
  let cell := cells d !!! idx in
  let d1 :=
    if (cell_id cell =? 0)%N && negb (idx =? zero_cell_idx d)%nat
    then with_element_count d (fetch_add (element_count d) 1)
    else d in
  let cell1 := setId cell id in
  let '(t, g) := new_expires_at (dict_lifetime d1) now (rnd_engine d1) in
  let cell2 := setExpiresAt cell1 t in
  let cell3 := setDefault cell2 in
  let d2 := with_rnd_engine (with_cells d1 (<[idx := cell3]> (cells d1))) g in
  with_attributes d2 ((λ a, setDefaultAttributeValue a idx) <$> attributes d2).

(** The body of the loop over [requested_ids]. *)
Definition prepareAnswer_id (u : UpdateUnit) (now : Z)
    (st : CacheDictionary V * L) (id : Key) : CacheDictionary V * L :=
  let '(d, l) := st in
  let find_result := findCellIdx (cells d) id now in
  let idx := cell_idx find_result in
  let was_id_updated := found_ids_mask u id in
  if was_id_updated then (d, on_cell_updated d id idx l)
  else
    let d' := occupy_as_default d id idx now in
    (d', on_id_not_found d' id idx l).

Definition prepareAnswer (u : UpdateUnit) (now : Z)
    (d : CacheDictionary V) (l : L) : CacheDictionary V * L :=
  foldl (prepareAnswer_id u now) (d, l) (requested_ids u).
End PrepareAnswer.

(** ** Helpers shared by both lookups *)

(** [m[id].push_back(row)]. *)
Definition push_back (m : gmap N (list nat)) (id : Key) (row : nat) : gmap N (list nat) :=
  <[id := m !!! id ++ [row]]> m.

(** The keys of a grouping map, in the map's iteration order
    ([std::transform] with [pair.first]). *)
Definition keys_of {V : Type} {EV : Externals V} (m : gmap N (list nat)) : list Key :=
  unordered_keys m.

(** [m.empty()]. *)
Definition is_empty (m : gmap N (list nat)) : bool := bool_decide (m = ∅).

(** [attribute_array]: a reference into the arrays of attribute number [a]. *)
Definition attribute_array {V} `{!Inhabited V} (d : CacheDictionary V) (a : nat) : list V :=
  arrays (attributes d !!! a).

(** Lines 101-102 and 274-275: the request counters.  [misses] is
    [cache_expired_ids.size() + cache_not_found_ids.size()]; the difference
    is computed in [size_t]. *)
Definition count_request {V} (d : CacheDictionary V) (rows misses : nat) : CacheDictionary V :=
  let d1 := with_query_count d (fetch_add (query_count d) (Z.of_nat rows)) in
  with_hit_count d1
    (fetch_add (hit_count d1) ((Z.of_nat rows - Z.of_nat misses) mod 2 ^ 64)).

(** Lines 212-213: every row was a hit. *)
Definition count_all_hits {V} (d : CacheDictionary V) (rows : nat) : CacheDictionary V :=
  let d1 := with_query_count d (fetch_add (query_count d) (Z.of_nat rows)) in
  with_hit_count d1 (fetch_add (hit_count d1) (Z.of_nat rows)).

(** ** getItemsNumberImpl (lines 39-167) *)

Record NumberLocals (O : Type) : Type := mkNumberLocals {
  out : list O;
  cache_expired_ids : gmap N (list nat);
  cache_not_found_ids : gmap N (list nat);
  cache_hit : nat
}.
Arguments mkNumberLocals {O} _ _ _ _.
Arguments out {O} _.
Arguments cache_expired_ids {O} _.
Arguments cache_not_found_ids {O} _.
Arguments cache_hit {O} _.

Section GetItemsNumberImpl.
Context {V O : Type} `{!Inhabited V} {EV : Externals V}.
Variable static_cast : V → O.
Variable get_default : nat → O.

(** Line 72: what a row receives from the cell found for its key. *)
Definition cell_value (d : CacheDictionary V) (a : nat) (row idx : nat) : O :=
  if isDefault (cells d !!! idx) then get_default row
  else static_cast (attribute_array d a !!! idx).

(** Lines 59-93: one iteration of the classify loop. *)
Definition classify_row (d : CacheDictionary V) (a : nat) (now : Z)
    (row : nat) (id : Key) (l : NumberLocals O) : NumberLocals O :=
  let find_result := findCellIdx (cells d) id now in
  let update_routine (o : list O) : list O :=
    <[row := cell_value d a row (cell_idx find_result)]> o in
  if negb (valid find_result) then
    if outdated find_result then
      mkNumberLocals
        (if allow_read_expired_keys d then update_routine (out l) else out l)
        (push_back (cache_expired_ids l) id row)
        (cache_not_found_ids l) (cache_hit l)
    else
      mkNumberLocals (out l) (cache_expired_ids l)
        (push_back (cache_not_found_ids l) id row) (cache_hit l)
  else
    mkNumberLocals (update_routine (out l)) (cache_expired_ids l)
      (cache_not_found_ids l) (S (cache_hit l)).

(** Lines 57-94: the rows [row, row + 1, ...] hold the keys [ids]. *)
Fixpoint classify_rows (d : CacheDictionary V) (a : nat) (now : Z)
    (row : nat) (ids : list Key) (l : NumberLocals O) : NumberLocals O :=
  match ids with
  | [] => l
  | id :: rest => classify_rows d a now (S row) rest (classify_row d a now row id l)
  end.

(** Lines 44-95. *)
Definition classify (d : CacheDictionary V) (a : nat) (now : Z)
    (ids : list Key) (o : list O) : NumberLocals O :=
  classify_rows d a now 0 ids (mkNumberLocals o ∅ ∅ 0).

(** [for (row : rows) out[row] = f(row)]. *)
Definition write_rows (rows : list nat) (f : nat → O) (o : list O) : list O :=
  foldl (λ acc row, <[row := f row]> acc) o rows.

(** Lines 144-153. *)
Definition number_on_cell_updated (a : nat) (l : NumberLocals O)
    (d : CacheDictionary V) (id : Key) (idx : nat) (o : list O) : list O :=
  let attribute_value := attribute_array d a !!! idx in
  write_rows (cache_expired_ids l !!! id) (λ _, static_cast attribute_value)
    (write_rows (cache_not_found_ids l !!! id) (λ _, static_cast attribute_value) o).

(** Lines 155-162. *)
Definition number_on_id_not_found (l : NumberLocals O)
    (d : CacheDictionary V) (id : Key) (idx : nat) (o : list O) : list O :=
  write_rows (cache_expired_ids l !!! id) get_default
    (write_rows (cache_not_found_ids l !!! id) get_default o).

(** Lines 132-166: push, wait, prepare the answer. *)
Definition number_update_sync (a : nat) (l : NumberLocals O) (now' : Z)
    (d : CacheDictionary V) : Result (list O * CacheDictionary V) :=
  let required_ids :=
    keys_of (cache_not_found_ids l) ++ keys_of (cache_expired_ids l) in
  let update_unit := make_UpdateUnit required_ids in
  bind (tryPushToUpdateQueueOrThrow d update_unit) (λ d1,
    let '(d2, mask) := waitForCurrentUpdateFinish d1 update_unit in
    let '(d3, o) :=
      prepareAnswer (number_on_cell_updated a l) (number_on_id_not_found l)
        (mkUpdateUnit required_ids mask) now' d2 (out l) in
    Ok (o, d3)).

(** Lines 110-125: push the expired keys and return. *)
Definition number_update_async (l : NumberLocals O)
    (d : CacheDictionary V) : Result (list O * CacheDictionary V) :=
  let required_expired_ids := keys_of (cache_expired_ids l) in
  bind (tryPushToUpdateQueueOrThrow d (make_UpdateUnit required_expired_ids))
    (λ d1, Ok (out l, d1)).

(** [now] is read in the classify pass, [now'] in [prepareAnswer]. *)
Definition getItemsNumberImpl (d : CacheDictionary V) (a : nat)
    (ids : list Key) (o : list O) (now now' : Z)
    : Result (list O * CacheDictionary V) :=
  let l := classify d a now ids o in
  let rows := length ids in
  let d1 :=
    count_request d rows
      (size (cache_expired_ids l) + size (cache_not_found_ids l)) in
  if is_empty (cache_not_found_ids l) then
    if is_empty (cache_expired_ids l) then Ok (out l, d1)
    else if allow_read_expired_keys d then number_update_async l d1
    else number_update_sync a l now' d1
  else number_update_sync a l now' d1.
End GetItemsNumberImpl.

(** ** getItemsString (lines 169-339) *)

(** Modelled from the spec: [ColumnString] is declared in
    Columns/ColumnString.h, which is not part of the sources.  Section 4.1:
    the string output is append-only.  It has a character buffer and an
    offset buffer (lines 218-219); a row takes its bytes and one terminator,
    as the function's own accounting [string_ref.size + 1] says. *)
Record ColumnString : Type := mkColumnString {
  chars : list ascii;
  offsets : list nat
}.

Definition empty_column : ColumnString := mkColumnString [] [].

Definition insertData (c : ColumnString) (s : string) : ColumnString :=
  let chars' := chars c ++ list_ascii_of_string s ++ [zero] in
  mkColumnString chars' (offsets c ++ [length chars']).

(** Lines 218-219: both buffers are resized to 0. *)
Definition discard (c : ColumnString) : ColumnString := mkColumnString [] [].

Record StringLocals : Type := mkStringLocals {
  s_out : ColumnString;
  string_map : gmap N string;
  s_cache_expired_ids : gmap N (list nat);
  s_cache_not_found_ids : gmap N (list nat);
  total_length : nat;
  s_cache_hit : nat
}.

Section GetItemsString.
Context {EV : Externals string}.
Variable get_default : nat → string.

Definition string_ref_of (d : CacheDictionary string) (a : nat) (row idx : nat) : string :=
  if isDefault (cells d !!! idx) then get_default row
  else attribute_array d a !!! idx.

(** Lines 189-206: the optimistic pass.  The flag is
    [found_outdated_values]; the column holds what was inserted before
    the [break]. *)
Fixpoint optimistic_rows (d : CacheDictionary string) (a : nat) (now : Z)
    (row : nat) (ids : list Key) (c : ColumnString) : bool * ColumnString :=
  match ids with
  | [] => (false, c)
  | id :: rest =>
      let find_result := findCellIdx (cells d) id now in
      if negb (valid find_result) then (true, c)
      else
        optimistic_rows d a now (S row) rest
          (insertData c (string_ref_of d a row (cell_idx find_result)))
  end.

(** Lines 240-250: [insert_value_routine], on [map] and [total_length]. *)
Definition insert_value_routine (d : CacheDictionary string) (a : nat)
    (row : nat) (id : Key) (idx : nat) (l : StringLocals) : StringLocals :=
  let string_ref := string_ref_of d a row idx in
  mkStringLocals (s_out l)
    (if negb (isDefault (cells d !!! idx))
     then <[id := string_ref]> (string_map l) else string_map l)
    (s_cache_expired_ids l) (s_cache_not_found_ids l)
    (total_length l + (String.length string_ref + 1))%nat
    (s_cache_hit l).

(** Lines 235-266: one iteration of the pessimistic classify loop. *)
Definition s_classify_row (d : CacheDictionary string) (a : nat) (now : Z)
    (row : nat) (id : Key) (l : StringLocals) : StringLocals :=
  let find_result := findCellIdx (cells d) id now in
  let idx := cell_idx find_result in
  if negb (valid find_result) then
    if outdated find_result then
      let l1 :=
        mkStringLocals (s_out l) (string_map l)
          (push_back (s_cache_expired_ids l) id row)
          (s_cache_not_found_ids l) (total_length l) (s_cache_hit l) in
      if allow_read_expired_keys d then insert_value_routine d a row id idx l1
      else l1
    else
      mkStringLocals (s_out l) (string_map l) (s_cache_expired_ids l)
        (push_back (s_cache_not_found_ids l) id row)
        (total_length l) (s_cache_hit l)
  else
    insert_value_routine d a row id idx
      (mkStringLocals (s_out l) (string_map l) (s_cache_expired_ids l)
         (s_cache_not_found_ids l) (total_length l) (S (s_cache_hit l))).

Fixpoint s_classify_rows (d : CacheDictionary string) (a : nat) (now : Z)
    (row : nat) (ids : list Key) (l : StringLocals) : StringLocals :=
  match ids with
  | [] => l
  | id :: rest =>
      s_classify_rows d a now (S row) rest (s_classify_row d a now row id l)
  end.

(** Lines 221-268: the locals are fresh, the column is the one at hand. *)
Definition s_classify (d : CacheDictionary string) (a : nat) (now : Z)
    (ids : list Key) (c : ColumnString) : StringLocals :=
  s_classify_rows d a now 0 ids (mkStringLocals c ∅ ∅ ∅ 0 0).

(** Lines 308-314: the handler's locals are [map] and [total_length]. *)
Definition string_on_cell_updated (a : nat) (l : StringLocals)
    (d : CacheDictionary string) (id : Key) (idx : nat)
    (st : gmap N string * nat) : gmap N string * nat :=
  let attribute_value := attribute_array d a !!! idx in
  (<[id := attribute_value]> st.1,
   (st.2 + (String.length attribute_value + 1)
           * length (s_cache_not_found_ids l !!! id))%nat).

(** Lines 316-320. *)
Definition string_on_id_not_found (l : StringLocals)
    (d : CacheDictionary string) (id : Key) (idx : nat)
    (st : gmap N string * nat) : gmap N string * nat :=
  (st.1,
   foldl (λ n row, (n + (String.length (get_default row) + 1))%nat) st.2
     (s_cache_not_found_ids l !!! id)).

(** Lines 331-338: one [insertData] per row, from the map or the default. *)
Fixpoint emit_rows (m : gmap N string) (row : nat) (ids : list Key)
    (c : ColumnString) : ColumnString :=
  match ids with
  | [] => c
  | id :: rest =>
      let string_ref :=
        match m !! id with
        | Some s => s
        | None => get_default row
        end in
      emit_rows m (S row) rest (insertData c string_ref)
  end.

(** Lines 277-293: the asynchronous update of expired keys. *)
Definition string_update_async (l : StringLocals) (d : CacheDictionary string)
    : Result (CacheDictionary string) :=
  if is_empty (s_cache_not_found_ids l) then
    if allow_read_expired_keys d && negb (is_empty (s_cache_expired_ids l))
    then tryPushToUpdateQueueOrThrow d
           (make_UpdateUnit (keys_of (s_cache_expired_ids l)))
    else Ok d
  else Ok d.

(** Lines 295-327: the synchronous update, taken when some key was not
    found. *)
Definition string_update_sync (a : nat) (l : StringLocals) (now' : Z)
    (d : CacheDictionary string)
    : Result (CacheDictionary string * (gmap N string * nat)) :=
  if negb (is_empty (s_cache_not_found_ids l)) then
    let required_ids :=
      keys_of (s_cache_not_found_ids l) ++ keys_of (s_cache_expired_ids l) in
    let update_unit := make_UpdateUnit required_ids in
    bind (tryPushToUpdateQueueOrThrow d update_unit) (λ d1,
      let '(d2, mask) := waitForCurrentUpdateFinish d1 update_unit in
      Ok (prepareAnswer (string_on_cell_updated a l) (string_on_id_not_found l)
            (mkUpdateUnit required_ids mask) now' d2
            (string_map l, total_length l)))
  else Ok (d, (string_map l, total_length l)).

(** Lines 217-338: the pessimistic (general, grouped) algorithm, from the
    point where the column has been emptied. *)
Definition getItemsString_pessimistic (d : CacheDictionary string) (a : nat)
    (ids : list Key) (c : ColumnString) (now now' : Z)
    : Result (ColumnString * CacheDictionary string) :=
  let l := s_classify d a now ids (discard c) in
  let d1 :=
    count_request d (length ids)
      (size (s_cache_expired_ids l) + size (s_cache_not_found_ids l)) in
  bind (string_update_async l d1) (λ d2,
  bind (string_update_sync a l now' d2) (λ r,
    Ok (emit_rows r.2.1 0 ids (s_out l), r.1))).

(** [now0] is read in the optimistic pass, [now] in the pessimistic
    classify pass, [now'] in [prepareAnswer]. *)
Definition getItemsString (d : CacheDictionary string) (a : nat)
    (ids : list Key) (c : ColumnString) (now0 now now' : Z)
    : Result (ColumnString * CacheDictionary string) :=
  let '(found_outdated_values, c1) := optimistic_rows d a now0 0 ids c in
  if negb found_outdated_values then
    Ok (c1, count_all_hits d (length ids))
  else getItemsString_pessimistic d a ids c1 now now'.
End GetItemsString.

(** ** Locking *)

Inductive LockMode : Type :=
  | ReadLock
  | WriteLock.

(** Lines 53, 185 and 230: [ProfilingScopedReadRWLock read_lock{rw_lock, ...}]
    around the classify passes, which only read the cells. *)
Definition classify_lock : LockMode := ReadLock.

(** Line 348: [const ProfilingScopedReadRWLock read_lock{rw_lock, ...}] is the
    only lock [prepareAnswer] takes, and it holds it for its whole body. *)
Definition prepareAnswer_lock : LockMode := ReadLock.

(** ** The collaborators as the specification describes them *)

(** The external source and the worker's surroundings. *)
Record World (V : Type) : Type := mkWorld {
  hash : Key → nat;
  (** the payload of a key, one value per attribute, if the source has it *)
  fetch : Key → option (list V);
  (** the source call raises [SourceError] *)
  source_fails : bool;
  (** the worker's clock reading when it merges *)
  worker_now : Z;
  (** the Backoff Controller's freeze window *)
  frozen_until : Z
}.
Arguments mkWorld {V} _ _ _ _ _.
Arguments hash {V} _.
Arguments fetch {V} _.
Arguments source_fails {V} _.
Arguments worker_now {V} _.
Arguments frozen_until {V} _.

(** Modelled from the spec: [findCellIdx] is defined in CacheDictionary.cpp.
    Section 4.1: the slot is [hash(key) mod N]; a matching key is valid iff
    [expires_at > now] and outdated otherwise; another key is not found. *)
Definition findCellIdx_spec (h : Key → nat) (cs : list CellMetadata)
    (id : Key) (now : Z) : FindResult :=
  let slot := (h id mod length cs)%nat in
  let cell := cs !!! slot in
  if (cell_id cell =? id)%N then
    if expires_at cell >? now then mkFindResult slot true false
    else mkFindResult slot false true
  else mkFindResult slot false false.

(** Modelled from the spec: the random engine is a [pcg64] seeded per
    dictionary.  Section 9: a pseudo-random draw from [[min_sec, max_sec]];
    here a linear congruential step. *)
Definition uniform_spec (a b : Z) (g : N) : Z * N :=
  (a + Z.of_N g mod (b - a + 1),
   ((g * 6364136223846793005 + 1442695040888963407) mod 2 ^ 64)%N).

(** Modelled from the spec: [tryPushToUpdateQueueOrThrow] is defined in
    CacheDictionary.cpp.  Section 4.2: it enqueues the unit on the bounded
    update queue and fails with [QueueFullError] if the queue is at
    capacity. *)
Definition tryPush_spec {V} (d : CacheDictionary V) (u : UpdateUnit)
    : Result (CacheDictionary V) :=
  if (length (update_queue d) <? max_update_queue_size d)%nat
  then Ok (with_update_queue d (update_queue d ++ [u]))
  else Throw QueueFullError.

Section SpecWorker.
Context {V : Type} `{!Inhabited V}.
Variable w : World V.

(** Modelled from the spec: section 4.3, [element_count] grows the first
    time a never-occupied slot becomes occupied. *)
Definition count_first_occupancy (d : CacheDictionary V) (idx : nat) : CacheDictionary V :=
  if (cell_id (cells d !!! idx) =? 0)%N && negb (idx =? zero_cell_idx d)%nat
  then with_element_count d (fetch_add (element_count d) 1)
  else d.

(** Modelled from the spec: section 4.3, [now + uniform_random(ttl_min,
    ttl_max)], or the max sentinel if the TTL range is 0,0; the seconds
    drawn are counted in ticks of the clock. *)
Definition spec_expiry (d : CacheDictionary V) (now : Z) : Z * N :=
  let lt := dict_lifetime d in
  if (min_sec lt =? 0) && (max_sec lt =? 0) then (time_point_max, rnd_engine d)
  else
    let '(s, g) := uniform_spec (min_sec lt) (max_sec lt) (rnd_engine d) in
    (now + s * system_clock_ticks_per_second, g).

(** Modelled from the spec: section 6, [write(slot_index, payload)], one
    value per attribute. *)
Definition write_payload (ats : list (Attribute V)) (idx : nat) (payload : list V)
    : list (Attribute V) :=
  zip_with (λ a v, mkAttribute (null_values a) (<[idx := v]> (arrays a))) ats payload.

(** Modelled from the spec: section 4.3, state [Merging], for one key. *)
Definition merge_key (d : CacheDictionary V) (id : Key) : CacheDictionary V :=
  let idx := cell_idx (findCellIdx_spec (hash w) (cells d) id (worker_now w)) in
  let d1 := count_first_occupancy d idx in
  let '(t, g) := spec_expiry d1 (worker_now w) in
  let d2 := with_rnd_engine d1 g in
  match fetch w id with
  | Some payload =>
      with_attributes
        (with_cells d2 (<[idx := mkCell id t false]> (cells d2)))
        (write_payload (attributes d2) idx payload)
  | None =>
      with_attributes
        (with_cells d2 (<[idx := mkCell id t true]> (cells d2)))
        ((λ a, setDefaultAttributeValue a idx) <$> attributes d2)
  end.

(** Modelled from the spec: section 4.3, fetch failure, for one key: a
    key whose cell still holds it keeps its payload under the freeze
    window; a key without a previous value becomes a default under the
    same window. *)
Definition quarantine_key (d : CacheDictionary V) (id : Key) : CacheDictionary V :=
  let idx := cell_idx (findCellIdx_spec (hash w) (cells d) id (worker_now w)) in
  let cell := cells d !!! idx in
  if (cell_id cell =? id)%N then
    with_cells d (<[idx := setExpiresAt cell (frozen_until w)]> (cells d))
  else
    let d1 := count_first_occupancy d idx in
    with_attributes
      (with_cells d1 (<[idx := mkCell id (frozen_until w) true]> (cells d1)))
      ((λ a, setDefaultAttributeValue a idx) <$> attributes d1).

(** Modelled from the spec: section 4.3, one unit taken from the queue. *)
Definition worker_process (d : CacheDictionary V) (u : UpdateUnit) : CacheDictionary V :=
  foldl (if source_fails w then quarantine_key else merge_key) d (requested_ids u).

(** Modelled from the spec: section 4.3, [found_mask]: whether the source
    had the key. *)
Definition worker_mask (id : Key) : bool :=
  negb (source_fails w) && bool_decide (is_Some (fetch w id)).

(** Modelled from the spec: [waitForCurrentUpdateFinish] is defined in
    CacheDictionary.cpp.  Sections 4.2 and 4.3: the caller is blocked until
    the unit's completion is signalled; by then the worker has taken the
    queued units in order, and the unit's mask tells which keys the source
    had. *)
Definition wait_spec (d : CacheDictionary V) (u : UpdateUnit)
    : CacheDictionary V * (Key → bool) :=
  (with_update_queue (foldl worker_process d (update_queue d)) [], worker_mask).

(** The collaborators of the specification, as an instance of the
    interface. *)
#[refine] Definition spec_externals : Externals V := {|
  findCellIdx := findCellIdx_spec (hash w);
  uniform_int_distribution := uniform_spec;
  unordered_keys := λ m, (map_to_list m).*1;
  unordered_keys_perm := λ m, Permutation_refl _;
  tryPushToUpdateQueueOrThrow := tryPush_spec;
  waitForCurrentUpdateFinish := wait_spec
|}.
Proof.
  intros a b g Hab. unfold uniform_spec. simpl.
  pose proof (Z.mod_pos_bound (Z.of_N g) (b - a + 1)). lia.
Defined.
End SpecWorker.

(** ** Scenarios

    Four slots, keys hashed by their value.  The source knows key 5 only. *)

Definition source_z : World Z :=
  mkWorld N.to_nat (λ k, if (k =? 5)%N then Some [50] else None) false 0 100.

(** A source that is down; the freeze window ends at 100. *)
Definition failing_source_z : World Z :=
  mkWorld N.to_nat (λ _, None) true 20 100.

Definition source_s : World string :=
  mkWorld N.to_nat (λ k, if (k =? 5)%N then Some ["a"%string] else None) false 0 100.

(** The same for strings, down. *)
Definition failing_source_s : World string :=
  mkWorld N.to_nat (λ _, None) true 20 100.

(** Nothing cached yet. *)
Definition fresh_dict_z (lt : DictionaryLifetime) (allow : bool) (queue_size : nat)
    : CacheDictionary Z :=
  mkDict (replicate 4 (mkCell 0%N 0 false)) [mkAttribute 0 (replicate 4 0)]
    0%nat lt allow 1%N 0 0 0 [] queue_size.

(** Key 5 is cached in slot 1 with payload 42 and expired at time 10; the
    second attribute holds 77 for it. *)
Definition stale_dict_z (lt : DictionaryLifetime) (allow : bool) (queue_size : nat)
    : CacheDictionary Z :=
  mkDict
    [mkCell 0%N 0 false; mkCell 5%N 10 false; mkCell 0%N 0 false; mkCell 0%N 0 false]
    [mkAttribute 0 [0; 42; 0; 0]; mkAttribute (-1) [0; 77; 0; 0]]
    0%nat lt allow 1%N 1 0 0 [] queue_size.

(** Key 5 is cached in slot 1 with payload "a" and is fresh until 10. *)
Definition cached_dict_s (allow : bool) : CacheDictionary string :=
  mkDict
    [mkCell 0%N 0 false; mkCell 5%N 10 false; mkCell 0%N 0 false; mkCell 0%N 0 false]
    [mkAttribute ""%string [""%string; "a"%string; ""%string; ""%string]]
    0%nat (mkLifetime 10 10) allow 1%N 1 0 0 [] 10%nat.

Definition default_z (row : nat) : Z := 100 + Z.of_nat row.
Definition default_s (row : nat) : string := "dflt"%string.

(** ** Vocabulary of the statements *)

(** Line 43: all indices [i] of [ids] such that [ids[i] = k], the first
    element of [ids] being row [row]. *)
Fixpoint rows_of (k : Key) (row : nat) (ids : list Key) : list nat :=
  match ids with
  | [] => []
  | id :: rest =>
      if (id =? k)%N then row :: rows_of k (S row) rest
      else rows_of k (S row) rest
  end.

(** The three classes of a find result (lines 61-64, 75-93). *)
Definition is_hit (r : FindResult) : bool := valid r.
Definition is_expired (r : FindResult) : bool := negb (valid r) && outdated r.
Definition is_not_found (r : FindResult) : bool := negb (valid r) && negb (outdated r).

(** A row is served from the cell at once when its key is a hit, or when it
    is expired and stale reads are allowed (lines 81-82, 92, 258-259, 265). *)
Definition emits (allow : bool) (r : FindResult) : bool :=
  is_hit r || (is_expired r && allow).

(** The rows of the keys selected by [P], grouped by key. *)
Fixpoint group_rows (P : Key → bool) (row : nat) (ids : list Key)
    (m : gmap N (list nat)) : gmap N (list nat) :=
  match ids with
  | [] => m
  | id :: rest =>
      group_rows P (S row) rest (if P id then push_back m id row else m)
  end.

(** [insertData] once per row, row [i] receiving [f i ids[i]]. *)
Fixpoint insert_rows (f : nat → Key → string) (row : nat) (ids : list Key)
    (c : ColumnString) : ColumnString :=
  match ids with
  | [] => c
  | id :: rest => insert_rows f (S row) rest (insertData c (f row id))
  end.

(** What a cell gives to the rows of its key: its payload, or nothing when
    it is marked default (then every row takes its own default). *)
Definition cell_resolution {V O : Type} `{!Inhabited V} (static_cast : V → O)
    (d : CacheDictionary V) (a : nat) (idx : nat) : option O :=
  if isDefault (cells d !!! idx) then None
  else Some (static_cast (attribute_array d a !!! idx)).

(** The table keeps its shape: as many cells, as many attributes, each
    attribute with its null value and as many payloads; the configuration,
    the request counters and the queue are the same. *)
Definition same_shape {V : Type} (d d' : CacheDictionary V) : Prop :=
  length (cells d') = length (cells d)
  ∧ Forall2 (λ at_ at', null_values at' = null_values at_
                        ∧ length (arrays at') = length (arrays at_))
      (attributes d) (attributes d')
  ∧ zero_cell_idx d' = zero_cell_idx d
  ∧ dict_lifetime d' = dict_lifetime d
  ∧ allow_read_expired_keys d' = allow_read_expired_keys d
  ∧ query_count d' = query_count d
  ∧ hit_count d' = hit_count d
  ∧ update_queue d' = update_queue d
  ∧ max_update_queue_size d' = max_update_queue_size d.

(** A cell counts as occupied when its stored id is not 0 and it is not the
    zero slot (line 390 reads the negation of this). *)
Definition slot_occupied (zero j : nat) (c : CellMetadata) : nat :=
  if negb (cell_id c =? 0)%N && negb (j =? zero)%nat then 1%nat else 0%nat.

(** The number of occupied cells among [cs], the first of which is cell [j]. *)
Fixpoint occupied_from (zero j : nat) (cs : list CellMetadata) : nat :=
  match cs with
  | [] => 0%nat
  | c :: rest => (slot_occupied zero j c + occupied_from zero (S j) rest)%nat
  end.

Definition occupied_slots {V : Type} (d : CacheDictionary V) : nat :=
  occupied_from (zero_cell_idx d) 0 (cells d).

(** * Properties *)

(** ** Arithmetic on time points *)

Lemma wrap_int64_small z : - 2 ^ 63 ≤ z < 2 ^ 63 → wrap_int64 z = z.
Proof. intros Hz. unfold wrap_int64. rewrite Z.mod_small by lia. lia. Qed.

(** Seconds that fit: the conversion and the sum are exact. *)
Lemma time_point_add_seconds_fits now s :
  0 ≤ s → 0 ≤ now → now + s * system_clock_ticks_per_second < 2 ^ 63 →
  time_point_add now (seconds_to_ticks s) = now + s * system_clock_ticks_per_second.
Proof.
  intros Hs Hnow Hfit. unfold time_point_add, seconds_to_ticks.
  unfold system_clock_ticks_per_second in *.
  rewrite (wrap_int64_small s) by nia.
  rewrite (wrap_int64_small (s * 10 ^ 9)) by nia.
  apply wrap_int64_small. nia.
Qed.

(** ** The takeover of a cell *)

Section OccupyFacts.
Context {V : Type} `{!Inhabited V} {EV : Externals V}.
Implicit Type d : CacheDictionary V.

Lemma new_expires_at_zero lt now g :
  min_sec lt = 0 ∨ max_sec lt = 0 → new_expires_at lt now g = (time_point_max, g).
Proof.
  intros Hz. unfold new_expires_at.
  destruct (Z.eqb_spec (min_sec lt) 0), (Z.eqb_spec (max_sec lt) 0); simpl; try done.
  lia.
Qed.

Lemma new_expires_at_nonzero lt now g :
  min_sec lt ≠ 0 → max_sec lt ≠ 0 →
  new_expires_at lt now g =
    (time_point_add now
       (seconds_to_ticks (uniform_int_distribution (min_sec lt) (max_sec lt) g).1),
     (uniform_int_distribution (min_sec lt) (max_sec lt) g).2).
Proof.
  intros Hmin Hmax. unfold new_expires_at.
  destruct (Z.eqb_spec (min_sec lt) 0), (Z.eqb_spec (max_sec lt) 0); simpl; try done.
  by destruct (uniform_int_distribution _ _ _).
Qed.

Lemma occupy_cells d id idx now :
  cells (occupy_as_default d id idx now) =
    <[idx := mkCell id (new_expires_at (dict_lifetime d) now (rnd_engine d)).1 true]>
      (cells d).
Proof.
  unfold occupy_as_default.
  destruct (_ && _); simpl;
    destruct (new_expires_at _ _ _) as [t g]; reflexivity.
Qed.

Lemma occupy_attributes d id idx now :
  attributes (occupy_as_default d id idx now) =
    (λ a, setDefaultAttributeValue a idx) <$> attributes d.
Proof.
  unfold occupy_as_default.
  destruct (_ && _); simpl;
    destruct (new_expires_at _ _ _) as [t g]; reflexivity.
Qed.

Lemma occupy_element_count d id idx now :
  element_count (occupy_as_default d id idx now) =
    if (cell_id (cells d !!! idx) =? 0)%N && negb (idx =? zero_cell_idx d)%nat
    then fetch_add (element_count d) 1 else element_count d.
Proof.
  unfold occupy_as_default.
  destruct (_ && _); simpl;
    destruct (new_expires_at _ _ _) as [t g]; reflexivity.
Qed.

Lemma occupy_same_zero d id idx now :
  zero_cell_idx (occupy_as_default d id idx now) = zero_cell_idx d
  ∧ cells (occupy_as_default d id idx now) =
      <[idx := mkCell id (new_expires_at (dict_lifetime d) now (rnd_engine d)).1 true]>
        (cells d).
Proof.
  split; [|apply occupy_cells].
  unfold occupy_as_default.
  destruct (_ && _); simpl; destruct (new_expires_at _ _ _) as [t g]; reflexivity.
Qed.

Lemma occupy_cell_at d id idx now :
  (idx < length (cells d))%nat →
  cells (occupy_as_default d id idx now) !!! idx =
    mkCell id (new_expires_at (dict_lifetime d) now (rnd_engine d)).1 true.
Proof.
  intros Hidx. rewrite occupy_cells.
  apply list_lookup_total_correct. by apply list_lookup_insert_eq.
Qed.

Lemma occupy_attribute_at d id idx now a :
  (a < length (attributes d))%nat →
  (idx < length (attribute_array d a))%nat →
  attribute_array (occupy_as_default d id idx now) a !!! idx =
    null_values (attributes d !!! a).
Proof.
  intros Ha Hidx. unfold attribute_array in *. rewrite occupy_attributes.
  destruct (lookup_lt_is_Some_2 _ _ Ha) as [at_ Hat].
  rewrite (list_lookup_total_correct _ _ _ Hat) in Hidx |- *.
  rewrite (list_lookup_total_correct ((λ a0, setDefaultAttributeValue a0 idx) <$> attributes d)
             a (setDefaultAttributeValue at_ idx)).
  - simpl. apply list_lookup_total_correct. by apply list_lookup_insert_eq.
  - by rewrite list_lookup_fmap, Hat.
Qed.
End OccupyFacts.

(** ** Writing a group of rows *)

Section WriteRows.
Context {O : Type}.
Implicit Types (o : list O) (rows : list nat) (f : nat → O).

Lemma write_rows_cons r rows f o :
  write_rows (r :: rows) f o = write_rows rows f (<[r := f r]> o).
Proof. reflexivity. Qed.

Lemma write_rows_length rows f o : length (write_rows rows f o) = length o.
Proof.
  revert o. induction rows as [|r rows IH]; intros o; [done|].
  rewrite write_rows_cons, IH. apply length_insert.
Qed.

Lemma write_rows_lookup rows f o i :
  write_rows rows f o !! i =
    if decide (i ∈ rows) then (λ _, f i) <$> o !! i else o !! i.
Proof.
  revert o. induction rows as [|r rows IH]; intros o.
  - destruct (decide (i ∈ [])) as [Hi|Hi]; [by apply elem_of_nil in Hi | done].
  - rewrite write_rows_cons, IH.
    destruct (decide (i = r)) as [->|Hne].
    + rewrite (decide_True (P := r ∈ r :: rows)) by left.
      destruct (decide (r < length o)%nat) as [Hlt|Hge].
      * rewrite list_lookup_insert_eq by done.
        destruct (lookup_lt_is_Some_2 _ _ Hlt) as [x ->].
        by destruct (decide (r ∈ rows)).
      * rewrite list_insert_ge by lia.
        rewrite (proj2 (lookup_ge_None o r)) by lia.
        by destruct (decide (r ∈ rows)).
    + rewrite list_lookup_insert_ne by done.
      destruct (decide (i ∈ rows)) as [Hin|Hnin].
      * by rewrite (decide_True (P := i ∈ r :: rows)) by (by right).
      * rewrite (decide_False (P := i ∈ r :: rows)); [done|].
        by intros [?|?]%elem_of_cons.
Qed.

Lemma write_rows_lookup_in rows f o i :
  i ∈ rows → (i < length o)%nat → write_rows rows f o !! i = Some (f i).
Proof.
  intros Hin Hlt. rewrite write_rows_lookup, decide_True by done.
  by destruct (lookup_lt_is_Some_2 _ _ Hlt) as [x ->].
Qed.

Lemma write_rows_lookup_notin rows f o i :
  i ∉ rows → write_rows rows f o !! i = o !! i.
Proof. intros Hnin. by rewrite write_rows_lookup, decide_False. Qed.
End WriteRows.

(** ** Claims about one iteration of [prepareAnswer] *)

(** C5 (as amended).  When [prepareAnswer] assigns the expiry of the cell it
    takes over for a key that was not found, the cell's [expires_at] is the
    max sentinel as soon as one of [min_sec] and [max_sec] is zero (not only
    when both are).  When both are non-zero it is [now] plus the number of
    seconds that [std::uniform_int_distribution] over [[min_sec, max_sec]]
    draws from the dictionary's random engine, a number in that range; the
    seconds are converted to ticks of the clock and added in 64-bit
    arithmetic, which wraps around.  When the bounds are ordered and
    [now + max_sec] seconds fits the clock's range below the sentinel,
    nothing wraps: the expiry is exactly [now] plus the drawn seconds, and
    the sentinel is assigned if and only if [min_sec = 0] or [max_sec = 0]. *)
Theorem prepareAnswer_expiry_rule {V L : Type} `{!Inhabited V} {EV : Externals V}
    (on_upd on_nf : CacheDictionary V → Key → nat → L → L)
    (u : UpdateUnit) (now : Z) (d : CacheDictionary V) (l : L) (id : Key) :
  let idx := cell_idx (findCellIdx (cells d) id now) in
  let lt := dict_lifetime d in
  let d' := (prepareAnswer_id on_upd on_nf u now (d, l) id).1 in
  let s := (uniform_int_distribution (min_sec lt) (max_sec lt) (rnd_engine d)).1 in
  found_ids_mask u id = false →
  (idx < length (cells d))%nat →
  (min_sec lt = 0 ∨ max_sec lt = 0 →
     expires_at (cells d' !!! idx) = time_point_max)
  ∧ (min_sec lt ≠ 0 → max_sec lt ≠ 0 →
       expires_at (cells d' !!! idx) = time_point_add now (seconds_to_ticks s)
       ∧ (min_sec lt ≤ max_sec lt → min_sec lt ≤ s ≤ max_sec lt))
  ∧ (0 ≤ min_sec lt → min_sec lt ≤ max_sec lt → 0 ≤ now →
     now + max_sec lt * system_clock_ticks_per_second < time_point_max →
       (min_sec lt ≠ 0 →
          expires_at (cells d' !!! idx) = now + s * system_clock_ticks_per_second)
       ∧ (expires_at (cells d' !!! idx) = time_point_max
          ↔ min_sec lt = 0 ∨ max_sec lt = 0)).
Proof.
  intros idx lt d' s Hmask Hidx.
  assert (Hd' : d' = occupy_as_default d id idx now).
  { unfold d', prepareAnswer_id. fold idx. by rewrite Hmask. }
  assert (Hexp : expires_at (cells d' !!! idx) =
                 (new_expires_at lt now (rnd_engine d)).1).
  { rewrite Hd', occupy_cell_at by done. reflexivity. }
  assert (Hnz : min_sec lt ≠ 0 → max_sec lt ≠ 0 →
            expires_at (cells d' !!! idx) = time_point_add now (seconds_to_ticks s)).
  { intros Hmin Hmax. by rewrite Hexp, new_expires_at_nonzero. }
  assert (Hfit : 0 ≤ min_sec lt → min_sec lt ≤ max_sec lt → 0 ≤ now →
            now + max_sec lt * system_clock_ticks_per_second < time_point_max →
            min_sec lt ≠ 0 →
            expires_at (cells d' !!! idx) = now + s * system_clock_ticks_per_second).
  { intros H0 Hle Hnow Hmax Hmin.
    pose proof (uniform_int_distribution_range (min_sec lt) (max_sec lt)
                  (rnd_engine d) Hle) as Hs. fold s in Hs.
    rewrite Hnz by lia.
    apply time_point_add_seconds_fits; [lia|done|].
    unfold system_clock_ticks_per_second, time_point_max in *. nia. }
  split; [|split].
  - intros Hz. by rewrite Hexp, new_expires_at_zero.
  - intros Hmin Hmax. split; [by apply Hnz|].
    apply uniform_int_distribution_range.
  - intros H0 Hle Hnow Hmax. split; [by apply Hfit|]. split.
    + intros Hsent.
      destruct (decide (min_sec lt = 0)) as [|Hmin]; [by left|].
      exfalso. rewrite (Hfit H0 Hle Hnow Hmax Hmin) in Hsent.
      pose proof (uniform_int_distribution_range (min_sec lt) (max_sec lt)
                    (rnd_engine d) Hle) as Hs. fold s in Hs.
      unfold system_clock_ticks_per_second, time_point_max in *. nia.
    + intros Hz. by rewrite Hexp, new_expires_at_zero.
Qed.

Lemma prepareAnswer_expiry_rule_witness :
  let d := fresh_dict_z (mkLifetime 10 10) false 10 in
  let d' :=
    (prepareAnswer_id (EV := spec_externals source_z)
       (λ _ _ _ (o : list Z), o) (λ _ _ _ o, o)
       (make_UpdateUnit [7%N]) 0 (d, [0]) 7%N).1 in
  expires_at (cells d' !!! 3%nat) = 0 + 10 * system_clock_ticks_per_second
  ∧ (expires_at (cells d' !!! 3%nat) = time_point_max ↔ 10 = 0 ∨ 10 = 0).
Proof.
  intros d d'.
  destruct (prepareAnswer_expiry_rule (EV := spec_externals source_z)
              (λ _ _ _ (o : list Z), o) (λ _ _ _ o, o)
              (make_UpdateUnit [7%N]) 0 d [0] 7%N)
    as (_ & _ & Hfit).
  - reflexivity.
  - simpl. lia.
  - destruct Hfit as [Hexp Hiff].
    + simpl. lia.
    + simpl. lia.
    + lia.
    + vm_compute. reflexivity.
    + split; [|exact Hiff]. apply Hexp. simpl. lia.
Defined.

(** C5 (counterexample).  With the lifetime [[0, 10]] the bounds are not both
    zero, yet the cell taken over for key 7 gets the max sentinel: the
    sentinel is not assigned "if and only if both bounds are zero". *)
Lemma prepareAnswer_expiry_not_iff_both_zero :
  let d := fresh_dict_z (mkLifetime 0 10) false 10 in
  let d' :=
    (prepareAnswer_id (EV := spec_externals source_z)
       (λ _ _ _ (o : list Z), o) (λ _ _ _ o, o)
       (make_UpdateUnit [7%N]) 0 (d, [0]) 7%N).1 in
  ¬ (expires_at (cells d' !!! 3%nat) = time_point_max
     ↔ min_sec (dict_lifetime d) = 0 ∧ max_sec (dict_lifetime d) = 0).
Proof.
  intros d d' [Hto _].
  assert (Hsent : expires_at (cells d' !!! 3%nat) = time_point_max)
    by (vm_compute; reflexivity).
  destruct (Hto Hsent) as [_ Hmax]. simpl in Hmax. lia.
Qed.

(** The bound on [now + max_sec] in the expiry rule is needed: with the lifetime
    [[2^34, 2^34]] the seconds drawn do not fit the clock's 64-bit count of
    nanoseconds, and the expiry assigned at time 0 lies before time 0. *)
Lemma prepareAnswer_expiry_wraps :
  let d := fresh_dict_z (mkLifetime (2 ^ 34) (2 ^ 34)) false 10 in
  let d' :=
    (prepareAnswer_id (EV := spec_externals source_z)
       (λ _ _ _ (o : list Z), o) (λ _ _ _ o, o)
       (make_UpdateUnit [7%N]) 0 (d, [0]) 7%N).1 in
  expires_at (cells d' !!! 3%nat) = 2 ^ 34 * 10 ^ 9 - 2 ^ 64
  ∧ expires_at (cells d' !!! 3%nat) < 0.
Proof. vm_compute. split; reflexivity. Qed.

Lemma occupied_from_insert zero j cs idx x :
  (idx < length cs)%nat →
  (occupied_from zero j (<[idx := x]> cs) + slot_occupied zero (j + idx) (cs !!! idx)
   = occupied_from zero j cs + slot_occupied zero (j + idx) x)%nat.
Proof.
  revert j idx. induction cs as [|c rest IH]; intros j idx Hidx; simpl in Hidx; [lia|].
  destruct idx as [|i].
  - simpl. rewrite Nat.add_0_r. lia.
  - simpl. specialize (IH (S j) i ltac:(lia)).
    replace (j + S i)%nat with (S j + i)%nat by lia.
    change ((c :: rest) !!! S i) with (rest !!! i). lia.
Qed.

(** C9.  In one iteration of [prepareAnswer], [element_count] becomes
    [element_count + 1] (modulo 2^64, the counter being 64 bits wide) exactly
    when the key was not found by the update, the cell selected for it has
    stored id 0 and the cell is not the zero slot; in every other case, in
    particular when the key overwrites a cell that holds a non-zero id or is
    the zero slot, it is left as it was.  The increment goes with the
    occupation of a slot: when the selected cell is in the table, and key 0
    is only ever given the zero slot, the number of occupied cells grows by
    one in exactly that case and is unchanged otherwise. *)
Theorem element_count_first_occupancy {V L : Type} `{!Inhabited V} {EV : Externals V}
    (on_upd on_nf : CacheDictionary V → Key → nat → L → L)
    (u : UpdateUnit) (now : Z) (d : CacheDictionary V) (l : L) (id : Key) :
  let idx := cell_idx (findCellIdx (cells d) id now) in
  let d' := (prepareAnswer_id on_upd on_nf u now (d, l) id).1 in
  let first_occupancy :=
    bool_decide (found_ids_mask u id = false
                 ∧ cell_id (cells d !!! idx) = 0%N
                 ∧ idx ≠ zero_cell_idx d) in
  element_count d' =
    (if first_occupancy then (element_count d + 1) mod 2 ^ 64 else element_count d)
  ∧ ((idx < length (cells d))%nat →
     (id = 0%N → idx = zero_cell_idx d) →
     occupied_slots d' =
       (occupied_slots d + (if first_occupancy then 1 else 0))%nat).
Proof.
  intros idx d' first_occupancy. unfold first_occupancy, d', prepareAnswer_id.
  fold idx. clear first_occupancy d'.
  destruct (found_ids_mask u id) eqn:Hmask; cbn [fst].
  - rewrite bool_decide_eq_false_2 by (by intros [? _]).
    split; [done|]. intros _ _. lia.
  - split.
    + rewrite occupy_element_count. unfold fetch_add.
      destruct (N.eqb_spec (cell_id (cells d !!! idx)) 0) as [Hid|Hid];
        destruct (Nat.eqb_spec idx (zero_cell_idx d)) as [Hz|Hz]; cbn [andb negb].
      * rewrite bool_decide_eq_false_2; [done|]. by intros (_ & _ & ?).
      * by rewrite bool_decide_eq_true_2.
      * rewrite bool_decide_eq_false_2; [done|]. by intros (_ & ? & _).
      * rewrite bool_decide_eq_false_2; [done|]. by intros (_ & ? & _).
    + intros Hidx Hzero. unfold occupied_slots.
      destruct (occupy_same_zero d id idx now) as [Hz' Hcells].
      rewrite Hz', Hcells.
      pose proof (occupied_from_insert (zero_cell_idx d) 0 (cells d) idx
                    (mkCell id (new_expires_at (dict_lifetime d) now (rnd_engine d)).1
                       true) Hidx) as Hocc.
      simpl Nat.add in Hocc. unfold slot_occupied in Hocc. simpl cell_id in Hocc.
      destruct (N.eqb_spec (cell_id (cells d !!! idx)) 0) as [Hid|Hid];
        destruct (Nat.eqb_spec idx (zero_cell_idx d)) as [Hz|Hz];
        destruct (N.eqb_spec id 0) as [Hid0|Hid0];
        cbn [andb negb] in Hocc;
        try (exfalso; apply Hz; by apply Hzero).
      * rewrite bool_decide_eq_false_2 by (by intros (_ & _ & ?)). lia.
      * rewrite bool_decide_eq_false_2 by (by intros (_ & _ & ?)). lia.
      * rewrite bool_decide_eq_true_2 by done. lia.
      * rewrite bool_decide_eq_false_2 by (by intros (_ & _ & ?)). lia.
      * rewrite bool_decide_eq_false_2 by (by intros (_ & _ & ?)). lia.
      * rewrite bool_decide_eq_false_2 by (by intros (_ & ? & _)). lia.
Qed.

Lemma element_count_first_occupancy_witness :
  (* key 7 takes the never-occupied slot 3; key 9 takes slot 1 from key 5 *)
  let d := stale_dict_z (mkLifetime 10 10) false 10 in
  let step id :=
    (prepareAnswer_id (EV := spec_externals source_z)
       (λ _ _ _ (o : list Z), o) (λ _ _ _ o, o)
       (make_UpdateUnit [7; 9]%N) 20 (d, [0]) id).1 in
  occupied_slots d = 1%nat ∧ element_count d = 1
  ∧ occupied_slots (step 7%N) = 2%nat ∧ element_count (step 7%N) = 2
  ∧ occupied_slots (step 9%N) = 1%nat ∧ element_count (step 9%N) = 1.
Proof.
  intros d step.
  destruct (element_count_first_occupancy (EV := spec_externals source_z)
              (λ _ _ _ (o : list Z), o) (λ _ _ _ o, o)
              (make_UpdateUnit [7; 9]%N) 20 d [0] 7%N) as [Hc7 Ho7].
  destruct (element_count_first_occupancy (EV := spec_externals source_z)
              (λ _ _ _ (o : list Z), o) (λ _ _ _ o, o)
              (make_UpdateUnit [7; 9]%N) 20 d [0] 9%N) as [Hc9 Ho9].
  split; [reflexivity|]. split; [reflexivity|].
  split; [|split; [|split]].
  - apply Ho7; [simpl; lia | discriminate].
  - exact Hc7.
  - apply Ho9; [simpl; lia | discriminate].
  - exact Hc9.
Defined.

(** C10.  In one iteration of [prepareAnswer] for a key whose found mask is
    false, whatever the selected cell held before (no assumption is made on
    it, so also a fresh entry of another key), afterwards that cell holds the
    key, is marked default and has the freshly assigned expiry; every other
    cell is unchanged; and every attribute of the dictionary has its null
    value at that index, its other payloads unchanged. *)
Theorem prepareAnswer_takes_over_slot {V L : Type} `{!Inhabited V} {EV : Externals V}
    (on_upd on_nf : CacheDictionary V → Key → nat → L → L)
    (u : UpdateUnit) (now : Z) (d : CacheDictionary V) (l : L) (id : Key) :
  let idx := cell_idx (findCellIdx (cells d) id now) in
  let d' := (prepareAnswer_id on_upd on_nf u now (d, l) id).1 in
  found_ids_mask u id = false →
  (idx < length (cells d))%nat →
  cells d' !! idx =
    Some (mkCell id (new_expires_at (dict_lifetime d) now (rnd_engine d)).1 true)
  ∧ (∀ j, j ≠ idx → cells d' !! j = cells d !! j)
  ∧ length (attributes d') = length (attributes d)
  ∧ (∀ a at_, attributes d !! a = Some at_ →
       ∃ at', attributes d' !! a = Some at'
         ∧ null_values at' = null_values at_
         ∧ ((idx < length (arrays at_))%nat →
              arrays at' !! idx = Some (null_values at_))
         ∧ (∀ j, j ≠ idx → arrays at' !! j = arrays at_ !! j)).
Proof.
  intros idx d' Hmask Hidx.
  assert (Hd' : d' = occupy_as_default d id idx now).
  { unfold d', prepareAnswer_id. fold idx. by rewrite Hmask. }
  rewrite Hd', occupy_cells, occupy_attributes.
  split; [by apply list_lookup_insert_eq|].
  split; [by intros j Hj; apply list_lookup_insert_ne|].
  split; [by rewrite length_fmap|].
  intros a at_ Hat. exists (setDefaultAttributeValue at_ idx).
  split; [by rewrite list_lookup_fmap, Hat|].
  split; [done|]. simpl. split.
  - intros Hlt. by apply list_lookup_insert_eq.
  - intros j Hj. by apply list_lookup_insert_ne.
Qed.

Lemma prepareAnswer_takes_over_slot_witness :
  let d := stale_dict_z (mkLifetime 10 10) false 10 in
  let d' :=
    (prepareAnswer_id (EV := spec_externals source_z)
       (λ _ _ _ (o : list Z), o) (λ _ _ _ o, o)
       (make_UpdateUnit [9%N]) 20 (d, [0]) 9%N).1 in
  cells d !! 1%nat = Some (mkCell 5%N 10 false)
  ∧ cells d' !! 1%nat = Some (mkCell 9%N 10000000020 true)
  ∧ length (attributes d') = 2%nat.
Proof.
  intros d d'.
  destruct (prepareAnswer_takes_over_slot (EV := spec_externals source_z)
              (λ _ _ _ (o : list Z), o) (λ _ _ _ o, o)
              (make_UpdateUnit [9%N]) 20 d [0] 9%N)
    as (Hcell & _ & Hlen & _).
  - reflexivity.
  - simpl. lia.
  - split; [reflexivity|]. split; [exact Hcell | exact Hlen].
Defined.

(** ** Grouping rows by key *)

Lemma rows_of_elem k row ids i :
  i ∈ rows_of k row ids ↔ (row ≤ i)%nat ∧ ids !! (i - row)%nat = Some k.
Proof.
  revert row. induction ids as [|id rest IH]; intros row; simpl.
  - split; [by intros ?%elem_of_nil | by intros [_ ?]].
  - assert (Hrest : i ∈ rows_of k (S row) rest ↔
              (row < i)%nat ∧ (id :: rest) !! (i - row)%nat = Some k).
    { rewrite IH. split.
      - intros [Hle Hl]. split; [lia|].
        replace (i - row)%nat with (S (i - S row)) by lia. done.
      - intros [Hlt Hl]. split; [lia|].
        replace (i - row)%nat with (S (i - S row)) in Hl by lia. done. }
    destruct (N.eqb_spec id k) as [->|Hne].
    + rewrite elem_of_cons, Hrest. split.
      * intros [->|[Hlt Hl]]; [|split; [lia|done]].
        split; [lia|]. by rewrite Nat.sub_diag.
      * intros [Hle Hl]. destruct (decide (i = row)) as [->|Hne]; [by left|].
        right. split; [lia|done].
    + rewrite Hrest. split.
      * intros [Hlt Hl]. split; [lia|done].
      * intros [Hle Hl]. split; [|done].
        destruct (decide (i = row)) as [->|Hne']; [|lia].
        rewrite Nat.sub_diag in Hl. simpl in Hl. congruence.
Qed.

Lemma rows_of_nil k row ids : rows_of k row ids = [] ↔ k ∉ ids.
Proof.
  revert row. induction ids as [|id rest IH]; intros row; simpl.
  - split; [intros _; apply not_elem_of_nil | done].
  - rewrite not_elem_of_cons. destruct (N.eqb_spec id k) as [->|Hne].
    + split; [done | by intros [? _]].
    + rewrite IH. split; [by intros ? | by intros [_ ?]].
Qed.

Lemma rows_of_key k ids i :
  i ∈ rows_of k 0 ids ↔ ids !! i = Some k.
Proof. rewrite rows_of_elem, Nat.sub_0_r. split; [by intros [_ ?] | split; [lia|done]]. Qed.

Lemma push_back_lookup (m : gmap N (list nat)) id row k :
  push_back m id row !! k =
    if decide (id = k) then Some (m !!! k ++ [row]) else m !! k.
Proof.
  unfold push_back. destruct (decide (id = k)) as [->|Hne].
  - by rewrite lookup_insert_eq.
  - by rewrite lookup_insert_ne.
Qed.

(** What [group_rows] adds for key [k]. *)
Lemma group_rows_lookup P row ids (m : gmap N (list nat)) k :
  group_rows P row ids m !! k =
    match (if P k then rows_of k row ids else []) with
    | [] => m !! k
    | rows => Some (m !!! k ++ rows)
    end.
Proof.
  revert row m. induction ids as [|id rest IH]; intros row m; simpl.
  - by destruct (P k).
  - rewrite IH. destruct (N.eqb_spec id k) as [->|Hne].
    + destruct (P k) eqn:HP; [|done].
      rewrite push_back_lookup, decide_True by done.
      rewrite (lookup_total_correct (push_back m k row) k (m !!! k ++ [row]))
        by (by rewrite push_back_lookup, decide_True).
      destruct (rows_of k (S row) rest); [done|].
      by rewrite <- app_assoc.
    + assert (Hsame : (if P id then push_back m id row else m) !! k = m !! k).
      { destruct (P id); [|done]. by rewrite push_back_lookup, decide_False. }
      rewrite !lookup_total_alt, Hsame. done.
Qed.

Lemma group_rows_empty_lookup P ids k :
  group_rows P 0 ids ∅ !! k =
    if P k && bool_decide (k ∈ ids) then Some (rows_of k 0 ids) else None.
Proof.
  rewrite group_rows_lookup, lookup_empty, lookup_total_empty.
  destruct (P k); simpl; [|done].
  destruct (rows_of k 0 ids) as [|r rs] eqn:Hrows.
  - apply rows_of_nil in Hrows. by rewrite bool_decide_eq_false_2.
  - rewrite bool_decide_eq_true_2; [done|].
    destruct (decide (k ∈ ids)) as [|Hnin]; [done|].
    apply (rows_of_nil k 0) in Hnin. congruence.
Qed.

Lemma group_rows_empty_total P ids k :
  group_rows P 0 ids ∅ !!! k = if P k then rows_of k 0 ids else [].
Proof.
  rewrite lookup_total_alt, group_rows_empty_lookup.
  destruct (P k); simpl; [|done].
  case_bool_decide as Hin; [done|].
  simpl. symmetry. by apply rows_of_nil.
Qed.

Lemma group_rows_is_empty P ids :
  group_rows P 0 ids ∅ = ∅ ↔ ∀ k, k ∈ ids → P k = false.
Proof.
  split.
  - intros Hm k Hin. pose proof (group_rows_empty_lookup P ids k) as Hk.
    rewrite Hm, lookup_empty in Hk.
    destruct (P k); [|done]. by rewrite bool_decide_eq_true_2 in Hk.
  - intros HP. apply map_eq. intros k.
    rewrite group_rows_empty_lookup, lookup_empty.
    destruct (P k) eqn:HPk; [|done].
    rewrite bool_decide_eq_false_2; [done|].
    intros Hin. rewrite (HP k Hin) in HPk. done.
Qed.

Lemma keys_of_elem {V : Type} {EV : Externals V} (m : gmap N (list nat)) k :
  k ∈ keys_of m ↔ is_Some (m !! k).
Proof.
  unfold keys_of. rewrite (unordered_keys_perm m), list_elem_of_fmap. split.
  - intros [[k' rows] [-> Hin]]. apply elem_of_map_to_list in Hin. by exists rows.
  - intros [rows Hk]. exists (k, rows). split; [done|]. by apply elem_of_map_to_list.
Qed.

Lemma keys_of_NoDup {V : Type} {EV : Externals V} (m : gmap N (list nat)) :
  NoDup (keys_of m).
Proof.
  unfold keys_of. rewrite (unordered_keys_perm m). apply NoDup_fst_map_to_list.
Qed.

Lemma keys_of_length {V : Type} {EV : Externals V} (m : gmap N (list nat)) :
  length (keys_of m) = size m.
Proof.
  unfold keys_of. rewrite (unordered_keys_perm m), length_fmap.
  apply length_map_to_list.
Qed.

Lemma keys_of_group_rows {V : Type} {EV : Externals V} P ids k :
  k ∈ keys_of (group_rows P 0 ids ∅) ↔ k ∈ ids ∧ P k = true.
Proof.
  rewrite keys_of_elem, group_rows_empty_lookup.
  destruct (P k); simpl.
  - case_bool_decide as Hin; split.
    + by intros _.
    + intros _. by eexists.
    + by intros [? ?].
    + by intros [? _].
  - split; [by intros [? ?] | by intros [_ ?]].
Qed.

Lemma is_empty_true (m : gmap N (list nat)) : is_empty m = true ↔ m = ∅.
Proof. unfold is_empty. apply bool_decide_eq_true. Qed.

Lemma is_empty_false (m : gmap N (list nat)) : is_empty m = false ↔ m ≠ ∅.
Proof. unfold is_empty. apply bool_decide_eq_false. Qed.

Lemma list_lookup_insert_self {A} (l : list A) i x :
  <[i := x]> l !! i = (λ _, x) <$> l !! i.
Proof.
  destruct (decide (i < length l)%nat) as [Hlt|Hge].
  - rewrite list_lookup_insert_eq by done.
    by destruct (lookup_lt_is_Some_2 _ _ Hlt) as [y ->].
  - rewrite list_insert_ge by lia. by rewrite (proj2 (lookup_ge_None l i)) by lia.
Qed.

(** ** The classify pass of [getItemsNumberImpl] *)

Section ClassifyFacts.
Context {V O : Type} `{!Inhabited V} {EV : Externals V}.
Variable static_cast : V → O.
Variable get_default : nat → O.
Implicit Types (d : CacheDictionary V) (l : NumberLocals O).

Lemma classify_row_expired d a now row id l :
  cache_expired_ids (classify_row static_cast get_default d a now row id l) =
    if is_expired (findCellIdx (cells d) id now)
    then push_back (cache_expired_ids l) id row else cache_expired_ids l.
Proof.
  unfold classify_row, is_expired.
  by destruct (valid _), (outdated _).
Qed.

Lemma classify_row_not_found d a now row id l :
  cache_not_found_ids (classify_row static_cast get_default d a now row id l) =
    if is_not_found (findCellIdx (cells d) id now)
    then push_back (cache_not_found_ids l) id row else cache_not_found_ids l.
Proof.
  unfold classify_row, is_not_found.
  by destruct (valid _), (outdated _).
Qed.

Lemma classify_row_out d a now row id l :
  out (classify_row static_cast get_default d a now row id l) =
    if emits (allow_read_expired_keys d) (findCellIdx (cells d) id now)
    then <[row := cell_value static_cast get_default d a row
                    (cell_idx (findCellIdx (cells d) id now))]> (out l)
    else out l.
Proof.
  unfold classify_row, emits, is_hit, is_expired.
  by destruct (valid _), (outdated _), (allow_read_expired_keys d).
Qed.

Lemma classify_row_hit d a now row id l :
  cache_hit (classify_row static_cast get_default d a now row id l) =
    if is_hit (findCellIdx (cells d) id now) then S (cache_hit l) else cache_hit l.
Proof.
  unfold classify_row, is_hit.
  by destruct (valid _), (outdated _).
Qed.

Lemma classify_rows_expired d a now row ids l :
  cache_expired_ids (classify_rows static_cast get_default d a now row ids l) =
    group_rows (λ k, is_expired (findCellIdx (cells d) k now)) row ids
      (cache_expired_ids l).
Proof.
  revert row l. induction ids as [|id rest IH]; intros row l; [done|].
  simpl. by rewrite IH, classify_row_expired.
Qed.

Lemma classify_rows_not_found d a now row ids l :
  cache_not_found_ids (classify_rows static_cast get_default d a now row ids l) =
    group_rows (λ k, is_not_found (findCellIdx (cells d) k now)) row ids
      (cache_not_found_ids l).
Proof.
  revert row l. induction ids as [|id rest IH]; intros row l; [done|].
  simpl. by rewrite IH, classify_row_not_found.
Qed.

Lemma classify_rows_hit d a now row ids l :
  cache_hit (classify_rows static_cast get_default d a now row ids l) =
    (cache_hit l
     + length (List.filter (λ k, is_hit (findCellIdx (cells d) k now)) ids))%nat.
Proof.
  revert row l. induction ids as [|id rest IH]; intros row l; simpl; [lia|].
  rewrite IH, classify_row_hit.
  destruct (is_hit _); simpl; lia.
Qed.

Lemma classify_rows_length d a now row ids l :
  length (out (classify_rows static_cast get_default d a now row ids l)) =
    length (out l).
Proof.
  revert row l. induction ids as [|id rest IH]; intros row l; [done|].
  simpl. rewrite IH, classify_row_out.
  destruct (emits _ _); [apply length_insert | done].
Qed.

(** The pass writes row [i] from the key of row [i], and nothing else. *)
Lemma classify_rows_out d a now row ids l i :
  out (classify_rows static_cast get_default d a now row ids l) !! i =
    match (if decide (row ≤ i)%nat then ids !! (i - row)%nat else None) with
    | Some id =>
        if emits (allow_read_expired_keys d) (findCellIdx (cells d) id now)
        then (λ _, cell_value static_cast get_default d a i
                     (cell_idx (findCellIdx (cells d) id now))) <$> out l !! i
        else out l !! i
    | None => out l !! i
    end.
Proof.
  revert row l. induction ids as [|id rest IH]; intros row l.
  - simpl. by destruct (decide (row ≤ i)%nat).
  - simpl classify_rows. rewrite IH, classify_row_out.
    destruct (decide (row ≤ i)%nat) as [Hle|Hlt].
    + destruct (decide (i = row)) as [->|Hne].
      * rewrite decide_False by lia. rewrite Nat.sub_diag. simpl.
        destruct (emits _ _); [apply list_lookup_insert_self | done].
      * rewrite decide_True by lia.
        replace (i - row)%nat with (S (i - S row)) by lia. simpl.
        assert (Hsame : ∀ v : O, <[row := v]> (out l) !! i = out l !! i)
          by (intros v; apply list_lookup_insert_ne; lia).
        destruct (emits (allow_read_expired_keys d) (findCellIdx (cells d) id now));
          by rewrite ?Hsame.
    + rewrite decide_False by lia.
      destruct (emits _ _); [|done].
      apply list_lookup_insert_ne. lia.
Qed.

Lemma classify_out d a now ids o row id :
  ids !! row = Some id →
  out (classify static_cast get_default d a now ids o) !! row =
    if emits (allow_read_expired_keys d) (findCellIdx (cells d) id now)
    then (λ _, cell_value static_cast get_default d a row
                 (cell_idx (findCellIdx (cells d) id now))) <$> o !! row
    else o !! row.
Proof.
  intros Hrow. unfold classify. rewrite classify_rows_out.
  rewrite decide_True by lia. rewrite Nat.sub_0_r, Hrow. done.
Qed.

Lemma classify_expired d a now ids o :
  cache_expired_ids (classify static_cast get_default d a now ids o) =
    group_rows (λ k, is_expired (findCellIdx (cells d) k now)) 0 ids ∅.
Proof. apply classify_rows_expired. Qed.

Lemma classify_not_found d a now ids o :
  cache_not_found_ids (classify static_cast get_default d a now ids o) =
    group_rows (λ k, is_not_found (findCellIdx (cells d) k now)) 0 ids ∅.
Proof. apply classify_rows_not_found. Qed.

Lemma classify_length d a now ids o :
  length (out (classify static_cast get_default d a now ids o)) = length o.
Proof. apply classify_rows_length. Qed.
End ClassifyFacts.

(** ** The classify pass of [getItemsString] *)

Section StringClassifyFacts.
Context {EV : Externals string}.
Variable get_default : nat → string.
Implicit Types (d : CacheDictionary string) (l : StringLocals).

Lemma s_classify_row_expired d a now row id l :
  s_cache_expired_ids (s_classify_row get_default d a now row id l) =
    if is_expired (findCellIdx (cells d) id now)
    then push_back (s_cache_expired_ids l) id row else s_cache_expired_ids l.
Proof.
  unfold s_classify_row, is_expired.
  by destruct (valid _), (outdated _), (allow_read_expired_keys d).
Qed.

Lemma s_classify_row_not_found d a now row id l :
  s_cache_not_found_ids (s_classify_row get_default d a now row id l) =
    if is_not_found (findCellIdx (cells d) id now)
    then push_back (s_cache_not_found_ids l) id row else s_cache_not_found_ids l.
Proof.
  unfold s_classify_row, is_not_found.
  by destruct (valid _), (outdated _), (allow_read_expired_keys d).
Qed.

Lemma s_classify_row_out d a now row id l :
  s_out (s_classify_row get_default d a now row id l) = s_out l.
Proof.
  unfold s_classify_row.
  by destruct (valid _), (outdated _), (allow_read_expired_keys d).
Qed.

Lemma s_classify_row_map d a now row id l :
  string_map (s_classify_row get_default d a now row id l) =
    let r := findCellIdx (cells d) id now in
    if emits (allow_read_expired_keys d) r
       && negb (isDefault (cells d !!! cell_idx r))
    then <[id := attribute_array d a !!! cell_idx r]> (string_map l)
    else string_map l.
Proof.
  unfold s_classify_row, insert_value_routine, string_ref_of, emits,
    is_hit, is_expired.
  destruct (valid _), (outdated _), (allow_read_expired_keys d); simpl;
    try done;
    by destruct (isDefault (cells d !!! cell_idx (findCellIdx (cells d) id now))).
Qed.

Lemma s_classify_rows_expired d a now row ids l :
  s_cache_expired_ids (s_classify_rows get_default d a now row ids l) =
    group_rows (λ k, is_expired (findCellIdx (cells d) k now)) row ids
      (s_cache_expired_ids l).
Proof.
  revert row l. induction ids as [|id rest IH]; intros row l; [done|].
  simpl. by rewrite IH, s_classify_row_expired.
Qed.

Lemma s_classify_rows_not_found d a now row ids l :
  s_cache_not_found_ids (s_classify_rows get_default d a now row ids l) =
    group_rows (λ k, is_not_found (findCellIdx (cells d) k now)) row ids
      (s_cache_not_found_ids l).
Proof.
  revert row l. induction ids as [|id rest IH]; intros row l; [done|].
  simpl. by rewrite IH, s_classify_row_not_found.
Qed.

Lemma s_classify_rows_out d a now row ids l :
  s_out (s_classify_rows get_default d a now row ids l) = s_out l.
Proof.
  revert row l. induction ids as [|id rest IH]; intros row l; [done|].
  simpl. by rewrite IH, s_classify_row_out.
Qed.

(** The pass stores, for every key served from its cell and not default,
    the payload of that cell. *)
Lemma s_classify_rows_map d a now row ids l k :
  string_map (s_classify_rows get_default d a now row ids l) !! k =
    let r := findCellIdx (cells d) k now in
    if bool_decide (k ∈ ids) && emits (allow_read_expired_keys d) r
       && negb (isDefault (cells d !!! cell_idx r))
    then Some (attribute_array d a !!! cell_idx r)
    else string_map l !! k.
Proof.
  revert row l. induction ids as [|id rest IH]; intros row l.
  - by simpl.
  - simpl s_classify_rows. rewrite IH. clear IH. cbv zeta.
    rewrite s_classify_row_map. cbv zeta.
    destruct (decide (id = k)) as [->|Hne].
    + rewrite (bool_decide_eq_true_2 (k ∈ k :: rest)) by left.
      destruct (bool_decide (k ∈ rest)),
        (emits (allow_read_expired_keys d) (findCellIdx (cells d) k now)),
        (negb (isDefault (cells d !!! cell_idx (findCellIdx (cells d) k now))));
        simpl; rewrite ?lookup_insert_eq; done.
    + assert (Hdec : bool_decide (k ∈ id :: rest) = bool_decide (k ∈ rest)).
      { apply bool_decide_ext. rewrite elem_of_cons.
        split; [intros [?|?]; [congruence|done] | by right]. }
      rewrite Hdec.
      destruct (bool_decide (k ∈ rest) && _ && _); [done|].
      destruct (emits _ _ && negb _); [|done].
      by rewrite lookup_insert_ne.
Qed.
End StringClassifyFacts.

(** C1 (as amended).  The classify pass goes through the keys in input order
    and sorts each row by the find result of its key.  In the numeric lookup
    a row whose key is valid, or expired while [allow_read_expired_keys] is
    set, is written at once with the cached value (the per-row default when
    the cell is marked default) and every other row is left alone; the
    expired-group map holds exactly the expired keys of the batch, each with
    all its rows in input order, and the not-found-group map holds exactly
    the keys that were not found, likewise; [cache_hit] counts the valid
    rows.  In the string lookup the groups are built in the same way, but
    the pass writes no output row: it leaves the column as it is and stores
    the payload of every served key whose cell is not default in the per-key
    string map, from which the rows are emitted after the pass. *)
Theorem classify_pass_spec {V O : Type} `{!Inhabited V}
    {EV : Externals V} {ES : Externals string}
    (static_cast : V → O) (get_default : nat → O) (get_default_s : nat → string)
    (d : CacheDictionary V) (ds : CacheDictionary string)
    (a : nat) (now : Z) (ids : list Key) (o : list O) (c : ColumnString) :
  let l := classify static_cast get_default d a now ids o in
  let ls := s_classify get_default_s ds a now ids c in
  let r := λ k, @findCellIdx V EV (cells d) k now in
  let rs := λ k, @findCellIdx string ES (cells ds) k now in
  (∀ row id, ids !! row = Some id → (row < length o)%nat →
     out l !! row =
       if emits (allow_read_expired_keys d) (r id)
       then Some (cell_value static_cast get_default d a row (cell_idx (r id)))
       else o !! row)
  ∧ length (out l) = length o
  ∧ (∀ k, cache_expired_ids l !! k =
       if is_expired (r k) && bool_decide (k ∈ ids)
       then Some (rows_of k 0 ids) else None)
  ∧ (∀ k, cache_not_found_ids l !! k =
       if is_not_found (r k) && bool_decide (k ∈ ids)
       then Some (rows_of k 0 ids) else None)
  ∧ cache_hit l = length (List.filter (λ k, is_hit (r k)) ids)
  ∧ s_out ls = c
  ∧ (∀ k, string_map ls !! k =
       if bool_decide (k ∈ ids) && emits (allow_read_expired_keys ds) (rs k)
          && negb (isDefault (cells ds !!! cell_idx (rs k)))
       then Some (attribute_array ds a !!! cell_idx (rs k)) else None)
  ∧ (∀ k, s_cache_expired_ids ls !! k =
       if is_expired (rs k) && bool_decide (k ∈ ids)
       then Some (rows_of k 0 ids) else None)
  ∧ (∀ k, s_cache_not_found_ids ls !! k =
       if is_not_found (rs k) && bool_decide (k ∈ ids)
       then Some (rows_of k 0 ids) else None).
Proof.
  intros l ls r rs. repeat split.
  - intros row id Hrow Hlt. unfold l. rewrite (classify_out _ _ _ _ _ _ _ _ _ Hrow).
    fold (r id). destruct (emits _ _); [|done].
    by destruct (lookup_lt_is_Some_2 _ _ Hlt) as [x ->].
  - apply classify_length.
  - intros k. unfold l. rewrite classify_expired.
    apply (group_rows_empty_lookup (λ k, is_expired (r k))).
  - intros k. unfold l. rewrite classify_not_found.
    apply (group_rows_empty_lookup (λ k, is_not_found (r k))).
  - unfold l, classify. by rewrite classify_rows_hit.
  - apply s_classify_rows_out.
  - intros k. unfold ls, s_classify. rewrite s_classify_rows_map.
    cbv zeta. fold (rs k). simpl. by rewrite lookup_empty.
  - intros k. unfold ls, s_classify. rewrite s_classify_rows_expired.
    apply (group_rows_empty_lookup (λ k, is_expired (rs k))).
  - intros k. unfold ls, s_classify. rewrite s_classify_rows_not_found.
    apply (group_rows_empty_lookup (λ k, is_not_found (rs k))).
Qed.

Lemma classify_pass_spec_witness :
  let l :=
    classify (EV := spec_externals source_z) (λ v : Z, v) default_z
      (stale_dict_z (mkLifetime 10 10) true 10) 0 20 [5; 7; 5]%N [0; 0; 0] in
  out l !! 0%nat = Some 42
  ∧ out l !! 1%nat = Some 0
  ∧ cache_expired_ids l !! 5%N = Some [0; 2]%nat
  ∧ cache_not_found_ids l !! 7%N = Some [1]%nat.
Proof.
  intros l.
  destruct (classify_pass_spec (EV := spec_externals source_z)
              (ES := spec_externals source_s) (λ v : Z, v) default_z default_s
              (stale_dict_z (mkLifetime 10 10) true 10) (cached_dict_s false)
              0 20 [5; 7; 5]%N [0; 0; 0] empty_column)
    as (Hout & _ & Hexp & Hnf & _).
  split; [|split; [|split]].
  - apply (Hout 0%nat 5%N); [reflexivity | simpl; lia].
  - apply (Hout 1%nat 7%N); [reflexivity | simpl; lia].
  - apply (Hexp 5%N).
  - apply (Hnf 7%N).
Defined.

(** C1 (counterexample).  String lookup of the keys 5 and 7 at time 0, key 5
    being cached and fresh, key 7 unknown: the find result of key 5 is valid,
    yet after the classify pass the output column has no row at all; the
    value of key 5 sits in the string map. *)
Lemma string_classify_writes_no_row :
  let d := cached_dict_s false in
  let l :=
    s_classify (EV := spec_externals source_s) default_s d 0 0 [5; 7]%N
      empty_column in
  valid (findCellIdx (Externals := spec_externals source_s) (cells d) 5%N 0) = true
  ∧ offsets (s_out l) = []
  ∧ chars (s_out l) = []
  ∧ string_map l !! 5%N = Some "a"%string.
Proof. vm_compute. done. Qed.

(** ** Which update a batch needs *)

Lemma group_rows_nonempty P ids :
  is_empty (group_rows P 0 ids ∅) = false ↔ ∃ k, k ∈ ids ∧ P k = true.
Proof.
  rewrite is_empty_false. split.
  - intros Hne. apply map_choose in Hne as (k & rows & Hk).
    rewrite group_rows_empty_lookup in Hk. exists k.
    destruct (P k); [|done]. simpl in Hk.
    case_bool_decide; [done|discriminate].
  - intros (k & Hin & HP) Hempty.
    pose proof (proj1 (group_rows_is_empty P ids) Hempty k Hin). congruence.
Qed.

Lemma group_rows_all_false P ids :
  is_empty (group_rows P 0 ids ∅) = true ↔ ∀ k, k ∈ ids → P k = false.
Proof. rewrite is_empty_true. apply group_rows_is_empty. Qed.

Lemma find_result_classes r :
  (is_hit r = true ∧ is_expired r = false ∧ is_not_found r = false)
  ∨ (is_hit r = false ∧ is_expired r = true ∧ is_not_found r = false)
  ∨ (is_hit r = false ∧ is_expired r = false ∧ is_not_found r = true).
Proof.
  unfold is_hit, is_expired, is_not_found.
  destruct (valid r), (outdated r); simpl; auto.
Qed.

Lemma keys_of_groups_disjoint {V : Type} {EV : Externals V} (P Q : Key → bool) ids :
  (∀ k, P k = true → Q k = true → False) →
  NoDup (keys_of (group_rows P 0 ids ∅) ++ keys_of (group_rows Q 0 ids ∅)).
Proof.
  intros Hexcl. apply NoDup_app. split; [apply keys_of_NoDup|].
  split; [|apply keys_of_NoDup].
  intros k [_ HP]%keys_of_group_rows [_ HQ]%keys_of_group_rows. eauto.
Qed.

Section DispatchFacts.
Context {V O : Type} `{!Inhabited V} {EV : Externals V}.
Variable static_cast : V → O.
Variable get_default : nat → O.
Implicit Types (d : CacheDictionary V) (l : NumberLocals O).

Lemma number_update_sync_unfold a l now' d :
  number_update_sync static_cast get_default a l now' d =
    let required_ids :=
      keys_of (cache_not_found_ids l) ++ keys_of (cache_expired_ids l) in
    bind (tryPushToUpdateQueueOrThrow d (make_UpdateUnit required_ids)) (λ d1,
      let w := waitForCurrentUpdateFinish d1 (make_UpdateUnit required_ids) in
      let p :=
        prepareAnswer (number_on_cell_updated static_cast a l)
          (number_on_id_not_found get_default l)
          (mkUpdateUnit required_ids w.2) now' w.1 (out l) in
      Ok (p.2, p.1)).
Proof.
  unfold number_update_sync. cbv zeta.
  destruct (tryPushToUpdateQueueOrThrow _ _) as [d1|e]; [|done]. simpl.
  destruct (waitForCurrentUpdateFinish _ _) as [d2 mask]. simpl.
  by destruct (prepareAnswer _ _ _ _ _ _) as [d3 o'].
Qed.

(** The three ways out of [getItemsNumberImpl], by the classes of the
    batch's keys. *)
Lemma getItemsNumberImpl_all_hits d a ids o now now' :
  (∀ k, k ∈ ids → is_hit (findCellIdx (cells d) k now) = true) →
  getItemsNumberImpl static_cast get_default d a ids o now now' =
    Ok (out (classify static_cast get_default d a now ids o),
        count_request d (length ids) 0).
Proof.
  intros Hhit. unfold getItemsNumberImpl. cbv zeta.
  rewrite classify_expired, classify_not_found.
  assert (Hnf : group_rows (λ k, is_not_found (findCellIdx (cells d) k now)) 0 ids ∅ = ∅).
  { apply group_rows_is_empty. intros k Hin.
    destruct (find_result_classes (findCellIdx (cells d) k now))
      as [(?&?&?)|[(?&?&?)|(?&?&?)]]; [done|done|].
    rewrite (Hhit k Hin) in *. done. }
  assert (Hexp : group_rows (λ k, is_expired (findCellIdx (cells d) k now)) 0 ids ∅ = ∅).
  { apply group_rows_is_empty. intros k Hin.
    destruct (find_result_classes (findCellIdx (cells d) k now))
      as [(?&?&?)|[(?&?&?)|(?&?&?)]]; [done| |done].
    rewrite (Hhit k Hin) in *. done. }
  rewrite Hnf, Hexp. done.
Qed.

Lemma getItemsNumberImpl_async d a ids o now now' :
  (∀ k, k ∈ ids → is_not_found (findCellIdx (cells d) k now) = false) →
  (∃ k, k ∈ ids ∧ is_expired (findCellIdx (cells d) k now) = true) →
  allow_read_expired_keys d = true →
  let l := classify static_cast get_default d a now ids o in
  getItemsNumberImpl static_cast get_default d a ids o now now' =
    number_update_async l
      (count_request d (length ids)
         (size (cache_expired_ids l) + size (cache_not_found_ids l))).
Proof.
  intros Hnf Hexp Hallow l. unfold getItemsNumberImpl. cbv zeta. fold l.
  assert (H1 : is_empty (cache_not_found_ids l) = true).
  { unfold l. rewrite classify_not_found. by apply group_rows_all_false. }
  assert (H2 : is_empty (cache_expired_ids l) = false).
  { unfold l. rewrite classify_expired.
    by apply (group_rows_nonempty (λ k, is_expired (findCellIdx (cells d) k now))). }
  by rewrite H1, H2, Hallow.
Qed.

Lemma getItemsNumberImpl_sync d a ids o now now' :
  (∃ k, k ∈ ids ∧ is_not_found (findCellIdx (cells d) k now) = true)
  ∨ (allow_read_expired_keys d = false
     ∧ ∃ k, k ∈ ids ∧ is_expired (findCellIdx (cells d) k now) = true) →
  let l := classify static_cast get_default d a now ids o in
  getItemsNumberImpl static_cast get_default d a ids o now now' =
    number_update_sync static_cast get_default a l now'
      (count_request d (length ids)
         (size (cache_expired_ids l) + size (cache_not_found_ids l))).
Proof.
  intros Hcase l. unfold getItemsNumberImpl. cbv zeta. fold l.
  destruct Hcase as [Hnf|[Hallow Hexp]].
  - assert (H1 : is_empty (cache_not_found_ids l) = false).
    { unfold l. rewrite classify_not_found.
      by apply (group_rows_nonempty (λ k, is_not_found (findCellIdx (cells d) k now))). }
    by rewrite H1.
  - assert (H2 : is_empty (cache_expired_ids l) = false).
    { unfold l. rewrite classify_expired.
      by apply (group_rows_nonempty (λ k, is_expired (findCellIdx (cells d) k now))). }
    rewrite H2, Hallow. by destruct (is_empty (cache_not_found_ids l)).
Qed.

Lemma required_ids_spec d a ids o now k :
  let l := classify static_cast get_default d a now ids o in
  k ∈ keys_of (cache_not_found_ids l) ++ keys_of (cache_expired_ids l)
  ↔ k ∈ ids ∧ is_hit (findCellIdx (cells d) k now) = false.
Proof.
  intros l. unfold l. rewrite classify_not_found, classify_expired.
  rewrite elem_of_app.
  rewrite (keys_of_group_rows (λ k, is_not_found (findCellIdx (cells d) k now))).
  rewrite (keys_of_group_rows (λ k, is_expired (findCellIdx (cells d) k now))).
  destruct (find_result_classes (findCellIdx (cells d) k now))
    as [(->&->&->)|[(->&->&->)|(->&->&->)]]; intuition congruence.
Qed.

Lemma required_ids_NoDup d a ids o now :
  let l := classify static_cast get_default d a now ids o in
  NoDup (keys_of (cache_not_found_ids l) ++ keys_of (cache_expired_ids l)).
Proof.
  intros l. unfold l. rewrite classify_not_found, classify_expired.
  apply (keys_of_groups_disjoint
           (λ k, is_not_found (findCellIdx (cells d) k now))
           (λ k, is_expired (findCellIdx (cells d) k now))).
  intros k Hnf Hexp.
  destruct (find_result_classes (findCellIdx (cells d) k now))
    as [(?&?&?)|[(?&?&?)|(?&?&?)]]; congruence.
Qed.
End DispatchFacts.

(** C3 (the code at a failing input).  Key 5 is cached with payload "a" and
    expired at time 10; stale reads are not allowed; the update queue is
    empty and has room; the source has "a" for key 5.  The batch [5] is
    looked up at time 20, so its only key is expired.  [getItemsString]
    requests the synchronous update only when some key was not found (line
    297): here it pushes no update unit, waits for nothing and prepares no
    answer; it returns the default of the row, and the dictionary comes back
    with nothing but the request counters changed.  [getItemsNumberImpl], on
    the same dictionary read at string type, takes the synchronous path of
    lines 128-166: the update is pushed and waited for, the cell is
    refreshed and the row holds the value "a" of the source. *)
Lemma getItemsString_expired_only_no_fetch :
  let ds := cached_dict_s false in
  let r := @findCellIdx string (spec_externals source_s) (cells ds) 5%N 20 in
  is_expired r = true
  ∧ allow_read_expired_keys ds = false
  ∧ update_queue ds = [] ∧ max_update_queue_size ds = 10%nat
  ∧ getItemsString (EV := spec_externals source_s) default_s ds 0 [5]%N
      empty_column 20 20 20
    = Ok (insertData empty_column "dflt", count_request ds 1 1)
  ∧ match
      getItemsNumberImpl (EV := spec_externals source_s) (λ v : string, v)
        default_s ds 0 [5]%N [""%string] 20 20
    with
    | Ok (o', d') =>
        o' = ["a"%string]
        ∧ cells d' !! 1%nat = Some (mkCell 5%N 10000000000 false)
    | Throw _ => False
    end.
Proof. vm_compute. repeat split. Qed.

(** ** The two passes of [getItemsString] *)

Lemma insert_rows_ext f g row ids c :
  (∀ i id, id ∈ ids → f i id = g i id) →
  insert_rows f row ids c = insert_rows g row ids c.
Proof.
  revert row c. induction ids as [|id rest IH]; intros row c Hfg; [done|].
  simpl. rewrite (Hfg row id) by left.
  apply IH. intros i id' Hin. apply Hfg. by right.
Qed.

Lemma insert_rows_offsets f row ids c :
  length (offsets (insert_rows f row ids c)) = (length (offsets c) + length ids)%nat.
Proof.
  revert row c. induction ids as [|id rest IH]; intros row c; simpl; [lia|].
  rewrite IH. simpl. rewrite length_app. simpl. lia.
Qed.

Section StringPassFacts.
Context {EV : Externals string}.
Variable get_default : nat → string.
Implicit Types (d : CacheDictionary string) (l : StringLocals).

Lemma emit_rows_insert_rows (m : gmap N string) row ids c :
  emit_rows get_default m row ids c =
    insert_rows (λ i id, default (get_default i) (m !! id)) row ids c.
Proof.
  revert row c. induction ids as [|id rest IH]; intros row c; [done|].
  simpl. rewrite IH. by destruct (m !! id).
Qed.

Lemma optimistic_rows_all_valid d a now row ids c :
  (∀ k, k ∈ ids → valid (findCellIdx (cells d) k now) = true) →
  optimistic_rows get_default d a now row ids c =
    (false,
     insert_rows
       (λ i id, string_ref_of get_default d a i (cell_idx (findCellIdx (cells d) id now)))
       row ids c).
Proof.
  revert row c. induction ids as [|id rest IH]; intros row c Hvalid; [done|].
  simpl. rewrite (Hvalid id) by left. simpl.
  apply IH. intros k Hin. apply Hvalid. by right.
Qed.

Lemma optimistic_rows_some_invalid d a now row ids c :
  (∃ k, k ∈ ids ∧ valid (findCellIdx (cells d) k now) = false) →
  (optimistic_rows get_default d a now row ids c).1 = true.
Proof.
  revert row c. induction ids as [|id rest IH]; intros row c (k & Hin & Hk).
  - by apply elem_of_nil in Hin.
  - simpl. destruct (valid (findCellIdx (cells d) id now)) eqn:Hid; [|done].
    simpl. apply IH. exists k. split; [|done].
    apply elem_of_cons in Hin as [->|Hin]; [congruence|done].
Qed.

Lemma getItemsString_pessimistic_column d a ids c now now' :
  getItemsString_pessimistic get_default d a ids c now now' =
    getItemsString_pessimistic get_default d a ids empty_column now now'.
Proof. reflexivity. Qed.

Lemma count_all_hits_eq {V} (d : CacheDictionary V) rows :
  count_all_hits d rows = count_request d rows 0.
Proof.
  unfold count_all_hits, count_request, fetch_add. cbv zeta. f_equal.
  change (Z.of_nat 0) with 0. rewrite Z.sub_0_r.
  by rewrite Z.add_mod_idemp_r by lia.
Qed.

(** The pessimistic algorithm on a batch of hits: no update, and the rows
    come out of the string map as the optimistic pass reads them from the
    cells. *)
Lemma getItemsString_pessimistic_all_valid d a ids c now now' :
  (∀ k, k ∈ ids → valid (findCellIdx (cells d) k now) = true) →
  getItemsString_pessimistic get_default d a ids c now now' =
    Ok (insert_rows
          (λ i id, string_ref_of get_default d a i (cell_idx (findCellIdx (cells d) id now)))
          0 ids empty_column,
        count_request d (length ids) 0).
Proof.
  intros Hvalid. unfold getItemsString_pessimistic. cbv zeta.
  set (l := s_classify get_default d a now ids (discard c)).
  assert (Hnf : s_cache_not_found_ids l = ∅).
  { unfold l, s_classify. rewrite s_classify_rows_not_found.
    apply group_rows_is_empty. intros k Hin.
    unfold is_not_found. by rewrite (Hvalid k Hin). }
  assert (Hexp : s_cache_expired_ids l = ∅).
  { unfold l, s_classify. rewrite s_classify_rows_expired.
    apply group_rows_is_empty. intros k Hin.
    unfold is_expired. by rewrite (Hvalid k Hin). }
  assert (Hout : s_out l = empty_column).
  { unfold l, s_classify. by rewrite s_classify_rows_out. }
  unfold string_update_async, string_update_sync.
  rewrite Hnf, Hexp, Hout.
  change (is_empty ∅) with true. rewrite andb_false_r. simpl.
  rewrite emit_rows_insert_rows. f_equal. f_equal.
  apply insert_rows_ext. intros i id Hin.
  unfold l, s_classify. rewrite s_classify_rows_map. cbv zeta.
  rewrite bool_decide_eq_true_2 by done.
  unfold emits, is_hit. rewrite (Hvalid id Hin). simpl.
  unfold string_ref_of.
  destruct (isDefault _); simpl; [by rewrite lookup_empty | done].
Qed.
End StringPassFacts.

(** C6.  [getItemsString] first runs the optimistic pass, which inserts the
    rows directly into the column and builds no group.  If every key of the
    batch is valid, the call returns the column so streamed, and this is the
    very result (column, counters, queue) the pessimistic grouped algorithm
    gives on that batch.  If some key is not valid, the pass stops there,
    whatever was written is discarded (the pessimistic algorithm starts from
    the emptied buffers, so the result does not depend on the column's
    previous content) and the result is that of the pessimistic grouped
    algorithm. *)
Theorem getItemsString_refines_pessimistic {EV : Externals string}
    (get_default : nat → string) (d : CacheDictionary string) (a : nat)
    (ids : list Key) (now0 now now' : Z) :
  ((∀ k, k ∈ ids → valid (findCellIdx (cells d) k now0) = true) →
     getItemsString get_default d a ids empty_column now0 now now' =
       Ok (insert_rows
             (λ i id, string_ref_of get_default d a i
                        (cell_idx (findCellIdx (cells d) id now0)))
             0 ids empty_column,
           count_all_hits d (length ids))
     ∧ getItemsString get_default d a ids empty_column now0 now now' =
         getItemsString_pessimistic get_default d a ids empty_column now0 now')
  ∧ ((∃ k, k ∈ ids ∧ valid (findCellIdx (cells d) k now0) = false) →
     ∀ c,
       discard (optimistic_rows get_default d a now0 0 ids c).2 = empty_column
       ∧ getItemsString get_default d a ids c now0 now now' =
           getItemsString_pessimistic get_default d a ids empty_column now now').
Proof.
  split.
  - intros Hvalid.
    assert (Hfast : getItemsString get_default d a ids empty_column now0 now now' =
              Ok (insert_rows
                    (λ i id, string_ref_of get_default d a i
                               (cell_idx (findCellIdx (cells d) id now0)))
                    0 ids empty_column,
                  count_all_hits d (length ids))).
    { unfold getItemsString. by rewrite optimistic_rows_all_valid. }
    split; [done|].
    rewrite Hfast, getItemsString_pessimistic_all_valid by done.
    by rewrite count_all_hits_eq.
  - intros Hinvalid c. split; [done|].
    unfold getItemsString.
    pose proof (optimistic_rows_some_invalid get_default d a now0 0 ids c Hinvalid) as Hflag.
    destruct (optimistic_rows get_default d a now0 0 ids c) as [flag c1].
    simpl in Hflag. subst flag. simpl.
    apply getItemsString_pessimistic_column.
Qed.

Lemma getItemsString_refines_pessimistic_witness :
  (* key 5 is fresh at time 0: the rows are streamed *)
  getItemsString (EV := spec_externals source_s) default_s (cached_dict_s false)
    0 [5; 5]%N empty_column 0 0 0 =
  getItemsString_pessimistic (EV := spec_externals source_s) default_s
    (cached_dict_s false) 0 [5; 5]%N empty_column 0 0
  (* key 7 is unknown: the grouped algorithm answers *)
  ∧ getItemsString (EV := spec_externals source_s) default_s (cached_dict_s false)
      0 [5; 7]%N (insertData empty_column "junk") 0 0 0 =
    getItemsString_pessimistic (EV := spec_externals source_s) default_s
      (cached_dict_s false) 0 [5; 7]%N empty_column 0 0.
Proof.
  destruct (getItemsString_refines_pessimistic (EV := spec_externals source_s)
              default_s (cached_dict_s false) 0 [5; 5]%N 0 0 0) as [Hfast _].
  destruct (getItemsString_refines_pessimistic (EV := spec_externals source_s)
              default_s (cached_dict_s false) 0 [5; 7]%N 0 0 0) as [_ Hslow].
  split.
  - apply Hfast.
    intros k [->|[->|Hin]%elem_of_cons]%elem_of_cons;
      [reflexivity | reflexivity | by apply elem_of_nil in Hin].
  - apply Hslow. exists 7%N. split; [|reflexivity].
    apply elem_of_cons. right. apply list_elem_of_singleton. reflexivity.
Defined.

(** ** A failed push *)

Section StringDispatchFacts.
Context {EV : Externals string}.
Variable get_default : nat → string.
Implicit Types (d : CacheDictionary string) (l : StringLocals).

Lemma s_classify_not_found_empty d a now ids c :
  is_empty (s_cache_not_found_ids (s_classify get_default d a now ids c)) =
    is_empty (group_rows (λ k, is_not_found (findCellIdx (cells d) k now)) 0 ids ∅).
Proof. unfold s_classify. by rewrite s_classify_rows_not_found. Qed.

Lemma s_classify_expired_empty d a now ids c :
  is_empty (s_cache_expired_ids (s_classify get_default d a now ids c)) =
    is_empty (group_rows (λ k, is_expired (findCellIdx (cells d) k now)) 0 ids ∅).
Proof. unfold s_classify. by rewrite s_classify_rows_expired. Qed.

Lemma getItemsString_slow d a ids c now0 now now' :
  (∃ k, k ∈ ids ∧ valid (findCellIdx (cells d) k now0) = false) →
  getItemsString get_default d a ids c now0 now now' =
    getItemsString_pessimistic get_default d a ids empty_column now now'.
Proof.
  intros Hinvalid. unfold getItemsString.
  pose proof (optimistic_rows_some_invalid get_default d a now0 0 ids c Hinvalid) as Hflag.
  destruct (optimistic_rows get_default d a now0 0 ids c) as [flag c1].
  simpl in Hflag. by subst flag.
Qed.

Lemma getItemsString_pessimistic_async_throw d a ids c now now' e :
  let l := s_classify get_default d a now ids empty_column in
  let d1 :=
    count_request d (length ids)
      (size (s_cache_expired_ids l) + size (s_cache_not_found_ids l)) in
  (∀ k, k ∈ ids → is_not_found (findCellIdx (cells d) k now) = false) →
  (∃ k, k ∈ ids ∧ is_expired (findCellIdx (cells d) k now) = true) →
  allow_read_expired_keys d = true →
  (∀ u, tryPushToUpdateQueueOrThrow d1 u = Throw e) →
  getItemsString_pessimistic get_default d a ids c now now' = Throw e.
Proof.
  intros l d1 Hnf Hexp Hallow Hpush.
  unfold getItemsString_pessimistic. cbv zeta.
  change (discard c) with empty_column. fold l. fold d1.
  unfold string_update_async.
  unfold l at 1. rewrite s_classify_not_found_empty.
  rewrite (proj2 (group_rows_all_false _ ids) Hnf).
  assert (Hcount : allow_read_expired_keys d1 = allow_read_expired_keys d) by done.
  rewrite Hcount, Hallow.
  unfold l at 1. rewrite s_classify_expired_empty.
  rewrite (proj2 (group_rows_nonempty
                    (λ k, is_expired (findCellIdx (cells d) k now)) ids) Hexp).
  simpl. by rewrite Hpush.
Qed.

Lemma getItemsString_pessimistic_sync_throw d a ids c now now' e :
  let l := s_classify get_default d a now ids empty_column in
  let d1 :=
    count_request d (length ids)
      (size (s_cache_expired_ids l) + size (s_cache_not_found_ids l)) in
  (∃ k, k ∈ ids ∧ is_not_found (findCellIdx (cells d) k now) = true) →
  (∀ u, tryPushToUpdateQueueOrThrow d1 u = Throw e) →
  getItemsString_pessimistic get_default d a ids c now now' = Throw e.
Proof.
  intros l d1 Hnf Hpush.
  unfold getItemsString_pessimistic. cbv zeta.
  change (discard c) with empty_column. fold l. fold d1.
  assert (Hne : is_empty (s_cache_not_found_ids l) = false).
  { unfold l. rewrite s_classify_not_found_empty.
    by apply (group_rows_nonempty
                (λ k, is_not_found (findCellIdx (cells d) k now))). }
  unfold string_update_async, string_update_sync. rewrite Hne. simpl.
  by rewrite Hpush.
Qed.
End StringDispatchFacts.

(** C4 (as amended).  [tryPushToUpdateQueueOrThrow] is called without any
    handler on every path, so when the push fails, the lookup fails with the
    same error: on the synchronous path and on the asynchronous
    (expired keys only, stale reads allowed) path alike, in the numeric
    lookup and in the string lookup.  On the asynchronous path the caller
    gets the error, not the stale values. *)
Theorem failed_push_fails_lookup {V O : Type} `{!Inhabited V}
    {EV : Externals V} {ES : Externals string}
    (static_cast : V → O) (get_default : nat → O) (get_default_s : nat → string)
    (d : CacheDictionary V) (ds : CacheDictionary string) (a : nat)
    (ids : list Key) (o : list O) (c : ColumnString) (now0 now now' : Z)
    (e : Exception) :
  let r := λ k, @findCellIdx V EV (cells d) k now in
  let rs := λ k, @findCellIdx string ES (cells ds) k now in
  let l := classify static_cast get_default d a now ids o in
  let ls := s_classify get_default_s ds a now ids empty_column in
  let d1 :=
    count_request d (length ids)
      (size (cache_expired_ids l) + size (cache_not_found_ids l)) in
  let ds1 :=
    count_request ds (length ids)
      (size (s_cache_expired_ids ls) + size (s_cache_not_found_ids ls)) in
  ((∀ u, tryPushToUpdateQueueOrThrow d1 u = Throw e) →
     ((∀ k, k ∈ ids → is_not_found (r k) = false) →
      (∃ k, k ∈ ids ∧ is_expired (r k) = true) →
      allow_read_expired_keys d = true →
        getItemsNumberImpl static_cast get_default d a ids o now now' = Throw e)
     ∧ ((∃ k, k ∈ ids ∧ is_not_found (r k) = true)
        ∨ (allow_read_expired_keys d = false
           ∧ ∃ k, k ∈ ids ∧ is_expired (r k) = true) →
        getItemsNumberImpl static_cast get_default d a ids o now now' = Throw e))
  ∧ ((∀ u, tryPushToUpdateQueueOrThrow ds1 u = Throw e) →
     (∃ k, k ∈ ids ∧ valid (@findCellIdx string ES (cells ds) k now0) = false) →
     ((∀ k, k ∈ ids → is_not_found (rs k) = false) →
      (∃ k, k ∈ ids ∧ is_expired (rs k) = true) →
      allow_read_expired_keys ds = true →
        getItemsString get_default_s ds a ids c now0 now now' = Throw e)
     ∧ ((∃ k, k ∈ ids ∧ is_not_found (rs k) = true) →
        getItemsString get_default_s ds a ids c now0 now now' = Throw e)).
Proof.
  intros r rs l ls d1 ds1. split.
  - intros Hpush. split.
    + intros Hnf Hexp Hallow.
      rewrite getItemsNumberImpl_async by done.
      unfold number_update_async. fold l. fold d1. by rewrite Hpush.
    + intros Hcase.
      rewrite getItemsNumberImpl_sync by done.
      unfold number_update_sync. fold l. fold d1. cbv zeta. by rewrite Hpush.
  - intros Hpush Hinvalid. split.
    + intros Hnf Hexp Hallow.
      rewrite getItemsString_slow by done.
      by apply getItemsString_pessimistic_async_throw.
    + intros Hnf.
      rewrite getItemsString_slow by done.
      by apply getItemsString_pessimistic_sync_throw.
Qed.

Lemma failed_push_fails_lookup_witness :
  (* queue of capacity 0; key 5 is expired, stale reads are allowed *)
  getItemsNumberImpl (EV := spec_externals source_z) (λ v : Z, v) default_z
    (stale_dict_z (mkLifetime 10 10) true 0) 0 [5]%N [0] 20 20
  = Throw QueueFullError
  (* key 7 is unknown to the string dictionary *)
  ∧ getItemsString (EV := spec_externals source_s) default_s
      (mkDict (cells (cached_dict_s true)) (attributes (cached_dict_s true))
         0%nat (mkLifetime 10 10) true 1%N 1 0 0 [] 0%nat)
      0 [7]%N empty_column 20 20 20
    = Throw QueueFullError.
Proof.
  destruct (failed_push_fails_lookup (EV := spec_externals source_z)
              (ES := spec_externals source_s) (λ v : Z, v) default_z default_s
              (stale_dict_z (mkLifetime 10 10) true 0)
              (mkDict (cells (cached_dict_s true)) (attributes (cached_dict_s true))
                 0%nat (mkLifetime 10 10) true 1%N 1 0 0 [] 0%nat)
              0 [5]%N [0] empty_column 20 20 20 QueueFullError)
    as [Hnum _].
  destruct (failed_push_fails_lookup (EV := spec_externals source_z)
              (ES := spec_externals source_s) (λ v : Z, v) default_z default_s
              (stale_dict_z (mkLifetime 10 10) true 0)
              (mkDict (cells (cached_dict_s true)) (attributes (cached_dict_s true))
                 0%nat (mkLifetime 10 10) true 1%N 1 0 0 [] 0%nat)
              0 [7]%N [0] empty_column 20 20 20 QueueFullError)
    as [_ Hstr].
  split.
  - destruct Hnum as [Hasync _]; [intros u; reflexivity|].
    apply Hasync.
    + intros k ->%list_elem_of_singleton. reflexivity.
    + exists 5%N. split; [apply list_elem_of_singleton; reflexivity | reflexivity].
    + reflexivity.
  - destruct Hstr as [_ Hsync].
    + intros u. reflexivity.
    + exists 7%N. split; [apply list_elem_of_singleton; reflexivity | reflexivity].
    + apply Hsync.
      exists 7%N. split; [apply list_elem_of_singleton; reflexivity | reflexivity].
Defined.

(** C4 (counterexample).  Queue of capacity 0, key 5 cached with the stale
    value 42 and expired, stale reads allowed: the lookup of key 5 takes the
    asynchronous path and ends in [QueueFullError]; it does not return the
    stale value. *)
Lemma async_queue_full_reaches_caller :
  let res :=
    getItemsNumberImpl (EV := spec_externals source_z) (λ v : Z, v) default_z
      (stale_dict_z (mkLifetime 10 10) true 0) 0 [5]%N [0] 20 20 in
  is_expired (findCellIdx (Externals := spec_externals source_z)
                (cells (stale_dict_z (mkLifetime 10 10) true 0)) 5%N 20) = true
  ∧ res = Throw QueueFullError
  ∧ ∀ d', res ≠ Ok ([42], d').
Proof.
  split; [reflexivity|]. split; [reflexivity|].
  intros d' Habs. discriminate Habs.
Qed.

(** ** The rows written by [prepareAnswer] *)

Lemma fmap_const_twice {A} (x y : A) (z : option A) :
  (λ _, x) <$> ((λ _, y) <$> z) = (λ _, x) <$> z.
Proof. by destruct z. Qed.

Section PrepareAnswerRows.
Context {V O : Type} `{!Inhabited V} {EV : Externals V}.
Variable static_cast : V → O.
Variable get_default : nat → O.
Variable a : nat.
Variable l : NumberLocals O.
Variable ids : list Key.
(** [miss k]: the key was not a hit in the classify pass. *)
Variable miss : Key → bool.
Hypothesis groups_rows : ∀ i k,
  i ∈ cache_not_found_ids l !!! k ∨ i ∈ cache_expired_ids l !!! k
  ↔ ids !! i = Some k ∧ miss k = true.

Lemma number_on_cell_updated_lookup (d : CacheDictionary V) k idx (o : list O) i :
  number_on_cell_updated static_cast a l d k idx o !! i =
    if decide (i ∈ cache_not_found_ids l !!! k ∨ i ∈ cache_expired_ids l !!! k)
    then (λ _, static_cast (attribute_array d a !!! idx)) <$> o !! i
    else o !! i.
Proof.
  unfold number_on_cell_updated. rewrite !write_rows_lookup.
  destruct (decide (i ∈ cache_expired_ids l !!! k)) as [He|He];
    destruct (decide (i ∈ cache_not_found_ids l !!! k)) as [Hn|Hn].
  - rewrite decide_True by (by left). apply fmap_const_twice.
  - by rewrite decide_True by (by right).
  - by rewrite decide_True by (by left).
  - rewrite decide_False; [done|]. by intros [?|?].
Qed.

Lemma number_on_id_not_found_lookup (d : CacheDictionary V) k idx (o : list O) i :
  number_on_id_not_found get_default l d k idx o !! i =
    if decide (i ∈ cache_not_found_ids l !!! k ∨ i ∈ cache_expired_ids l !!! k)
    then (λ _, get_default i) <$> o !! i
    else o !! i.
Proof.
  unfold number_on_id_not_found. rewrite !write_rows_lookup.
  destruct (decide (i ∈ cache_expired_ids l !!! k)) as [He|He];
    destruct (decide (i ∈ cache_not_found_ids l !!! k)) as [Hn|Hn].
  - rewrite decide_True by (by left). apply fmap_const_twice.
  - by rewrite decide_True by (by right).
  - by rewrite decide_True by (by left).
  - rewrite decide_False; [done|]. by intros [?|?].
Qed.

(** One iteration resolves its key, to the payload of the cell or to the
    default, and writes all the rows of that key. *)
Lemma prepareAnswer_id_rows u now (d : CacheDictionary V) (o : list O) k :
  ∃ res : option O,
    (res = if found_ids_mask u k
           then Some (static_cast
                        (attribute_array d a !!! cell_idx (findCellIdx (cells d) k now)))
           else None)
    ∧ ∀ i,
        (prepareAnswer_id (number_on_cell_updated static_cast a l)
           (number_on_id_not_found get_default l) u now (d, o) k).2 !! i =
          if decide (i ∈ cache_not_found_ids l !!! k ∨ i ∈ cache_expired_ids l !!! k)
          then (λ _, default (get_default i) res) <$> o !! i
          else o !! i.
Proof.
  eexists. split; [reflexivity|]. intros i. unfold prepareAnswer_id.
  destruct (found_ids_mask u k); cbn [snd default].
  - apply number_on_cell_updated_lookup.
  - apply number_on_id_not_found_lookup.
Qed.

Lemma prepareAnswer_fold_rows u now req (d : CacheDictionary V) (o : list O) :
  ∃ res : Key → option O,
    (∀ k, found_ids_mask u k = false → res k = None)
    ∧ ∀ i k,
        ids !! i = Some k →
        (foldl (prepareAnswer_id (number_on_cell_updated static_cast a l)
                  (number_on_id_not_found get_default l) u now) (d, o) req).2 !! i =
          if decide (k ∈ req ∧ miss k = true)
          then (λ _, default (get_default i) (res k)) <$> o !! i
          else o !! i.
Proof.
  revert d o. induction req as [|k0 rest IH]; intros d o.
  - exists (λ _, None). split; [done|]. intros i k Hik. cbn [foldl snd].
    destruct (decide (k ∈ [] ∧ miss k = true)) as [[Hin _]|_];
      [by apply elem_of_nil in Hin | done].
  - destruct (prepareAnswer_id_rows u now d o k0) as (res0 & Hres0 & Hstep).
    change (foldl ?f (d, o) (k0 :: rest)) with (foldl f (f (d, o) k0) rest).
    destruct (prepareAnswer_id (number_on_cell_updated static_cast a l)
                (number_on_id_not_found get_default l) u now (d, o) k0)
      as [d1 o1].
    cbn [snd] in Hstep.
    destruct (IH d1 o1) as (res' & Hnone & Hrest).
    exists (λ k, if decide (k ∈ rest) then res' k
                 else if decide (k = k0) then res0 else None).
    split.
    { intros k Hmask. destruct (decide (k ∈ rest)); [by apply Hnone|].
      destruct (decide (k = k0)) as [->|]; [|done].
      by rewrite Hres0, Hmask. }
    intros i k Hik.
    rewrite (Hrest i k Hik), Hstep.
    assert (Hk0 : (i ∈ cache_not_found_ids l !!! k0 ∨ i ∈ cache_expired_ids l !!! k0)
                  ↔ k = k0 ∧ miss k = true).
    { rewrite groups_rows. split.
      - intros [Hik0 Hm]. split; congruence.
      - intros [-> Hm]. done. }
    destruct (decide (k ∈ rest ∧ miss k = true)) as [[Hin Hm]|Hnot].
    + rewrite (decide_True (P := k ∈ k0 :: rest ∧ miss k = true))
        by (split; [by right|done]).
      rewrite (decide_True (P := k ∈ rest)) by done.
      destruct (decide (_ ∨ _)); [apply fmap_const_twice | done].
    + destruct (decide (k = k0 ∧ miss k = true)) as [[-> Hm]|Hnot0].
      * rewrite (decide_True (P := _ ∨ _)) by (by apply Hk0).
        rewrite (decide_True (P := k0 ∈ k0 :: rest ∧ miss k0 = true))
          by (split; [by left|done]).
        rewrite (decide_False (P := k0 ∈ rest)) by (intros Hin; by apply Hnot).
        by rewrite decide_True.
      * rewrite (decide_False (P := _ ∨ _)) by (by rewrite Hk0).
        rewrite (decide_False (P := k ∈ k0 :: rest ∧ miss k = true)); [done|].
        intros [[->|Hin]%elem_of_cons Hm]; [by apply Hnot0 | by apply Hnot].
Qed.

(** The whole loop: every row of a requested key that was a miss is written
    from that key's resolution, which is "default" for a key the update did
    not find; all other rows are untouched. *)
Lemma prepareAnswer_rows req mask now (d : CacheDictionary V) (o : list O) :
  ∃ res : Key → option O,
    (∀ k, mask k = false → res k = None)
    ∧ ∀ i k,
        ids !! i = Some k →
        (prepareAnswer (number_on_cell_updated static_cast a l)
           (number_on_id_not_found get_default l)
           (mkUpdateUnit req mask) now d o).2 !! i =
          if decide (k ∈ req ∧ miss k = true)
          then (λ _, default (get_default i) (res k)) <$> o !! i
          else o !! i.
Proof. apply (prepareAnswer_fold_rows (mkUpdateUnit req mask)). Qed.

Lemma prepareAnswer_length u now (d : CacheDictionary V) (o : list O) :
  length (prepareAnswer (number_on_cell_updated static_cast a l)
            (number_on_id_not_found get_default l) u now d o).2 = length o.
Proof.
  unfold prepareAnswer. generalize (requested_ids u) as req. intros req.
  revert d o. induction req as [|k0 rest IH]; intros d o; [done|].
  change (foldl ?f (d, o) (k0 :: rest)) with (foldl f (f (d, o) k0) rest).
  destruct (prepareAnswer_id _ _ u now (d, o) k0) as [d1 o1] eqn:Hst.
  rewrite IH. unfold prepareAnswer_id in Hst.
  destruct (found_ids_mask u k0); inversion Hst; subst.
  - unfold number_on_cell_updated. by rewrite !write_rows_length.
  - unfold number_on_id_not_found. by rewrite !write_rows_length.
Qed.
End PrepareAnswerRows.

(** ** One output per row, resolved per key *)

Section LookupRows.
Context {V O : Type} `{!Inhabited V} {EV : Externals V}.
Variable static_cast : V → O.
Variable get_default : nat → O.
Implicit Types (d : CacheDictionary V) (o : list O).

Lemma cell_value_resolution d a row idx :
  cell_value static_cast get_default d a row idx =
    default (get_default row) (cell_resolution static_cast d a idx).
Proof. unfold cell_value, cell_resolution. by destruct (isDefault _). Qed.

Lemma classify_emitted_row d a now ids o i k :
  length o = length ids →
  ids !! i = Some k →
  emits (allow_read_expired_keys d) (findCellIdx (cells d) k now) = true →
  out (classify static_cast get_default d a now ids o) !! i =
    Some (default (get_default i)
            (cell_resolution static_cast d a (cell_idx (findCellIdx (cells d) k now)))).
Proof.
  intros Hlen Hik Hemits.
  rewrite (classify_out _ _ _ _ _ _ _ _ _ Hik), Hemits, cell_value_resolution.
  assert (Hlt : (i < length o)%nat) by (rewrite Hlen; by eapply lookup_lt_Some).
  by destruct (lookup_lt_is_Some_2 _ _ Hlt) as [x ->].
Qed.

Lemma classify_groups_rows d a now ids o i k :
  let l := classify static_cast get_default d a now ids o in
  i ∈ cache_not_found_ids l !!! k ∨ i ∈ cache_expired_ids l !!! k
  ↔ ids !! i = Some k ∧ negb (is_hit (findCellIdx (cells d) k now)) = true.
Proof.
  intros l. unfold l. rewrite classify_not_found, classify_expired.
  rewrite (group_rows_empty_total (λ k, is_not_found (findCellIdx (cells d) k now))).
  rewrite (group_rows_empty_total (λ k, is_expired (findCellIdx (cells d) k now))).
  destruct (find_result_classes (findCellIdx (cells d) k now))
    as [(->&->&->)|[(->&->&->)|(->&->&->)]]; simpl;
    rewrite ?rows_of_key, ?elem_of_nil; intuition congruence.
Qed.

Lemma number_update_sync_rows d a now ids o now' d1 o' d' :
  length o = length ids →
  let l := classify static_cast get_default d a now ids o in
  number_update_sync static_cast get_default a l now' d1 = Ok (o', d') →
  length o' = length ids
  ∧ ∃ res : Key → option O, ∀ i k,
      ids !! i = Some k → o' !! i = Some (default (get_default i) (res k)).
Proof.
  intros Hlen l Hres. rewrite number_update_sync_unfold in Hres. cbv zeta in Hres.
  destruct (tryPushToUpdateQueueOrThrow _ _) as [d2|e]; [|discriminate].
  simpl in Hres. injection Hres as Ho' _.
  set (r := λ k, findCellIdx (cells d) k now).
  split.
  - rewrite <- Ho', prepareAnswer_length. unfold l.
    by rewrite classify_length.
  - destruct (prepareAnswer_rows static_cast get_default a l ids
                (λ k, negb (is_hit (r k)))
                (classify_groups_rows d a now ids o)
                (keys_of (cache_not_found_ids l) ++ keys_of (cache_expired_ids l))
                (waitForCurrentUpdateFinish d2
                   (make_UpdateUnit
                      (keys_of (cache_not_found_ids l) ++ keys_of (cache_expired_ids l)))).2
                now'
                (waitForCurrentUpdateFinish d2
                   (make_UpdateUnit
                      (keys_of (cache_not_found_ids l) ++ keys_of (cache_expired_ids l)))).1
                (out l)) as (res_f & _ & Hrows).
    exists (λ k, if is_hit (r k) then cell_resolution static_cast d a (cell_idx (r k))
                 else res_f k).
    intros i k Hik. rewrite <- Ho', (Hrows i k Hik).
    destruct (is_hit (r k)) eqn:Hhit.
    + rewrite decide_False by (simpl; by intros [_ ?]).
      apply classify_emitted_row; [done|done|].
      unfold emits. fold (r k). by rewrite Hhit.
    + rewrite decide_True.
      * assert (Hlt : (i < length (out l))%nat).
        { unfold l. rewrite classify_length, Hlen. by eapply lookup_lt_Some. }
        by destruct (lookup_lt_is_Some_2 _ _ Hlt) as [x ->].
      * split; [|done]. apply required_ids_spec. split; [|done].
        by eapply list_elem_of_lookup_2.
Qed.

Lemma getItemsNumberImpl_rows d a ids o now now' o' d' :
  length o = length ids →
  getItemsNumberImpl static_cast get_default d a ids o now now' = Ok (o', d') →
  length o' = length ids
  ∧ ∃ res : Key → option O, ∀ i k,
      ids !! i = Some k → o' !! i = Some (default (get_default i) (res k)).
Proof.
  intros Hlen Hres.
  set (r := λ k, findCellIdx (cells d) k now).
  set (l := classify static_cast get_default d a now ids o).
  assert (Hserved : (∀ k, k ∈ ids → emits (allow_read_expired_keys d) (r k) = true) →
    length (out l) = length ids
    ∧ ∃ res : Key → option O, ∀ i k,
        ids !! i = Some k → out l !! i = Some (default (get_default i) (res k))).
  { intros Hall. split; [unfold l; by rewrite classify_length|].
    exists (λ k, cell_resolution static_cast d a (cell_idx (r k))). intros i k Hik.
    apply classify_emitted_row; [done|done|].
    apply Hall. by eapply list_elem_of_lookup_2. }
  unfold getItemsNumberImpl in Hres. cbv zeta in Hres. fold l in Hres.
  destruct (is_empty (cache_not_found_ids l)) eqn:Hnf.
  - assert (Hnf' : ∀ k, k ∈ ids → is_not_found (r k) = false).
    { apply group_rows_all_false. unfold l in Hnf.
      by rewrite classify_not_found in Hnf. }
    destruct (is_empty (cache_expired_ids l)) eqn:Hexp.
    + simpl in Hres. injection Hres as <- _. apply Hserved.
      assert (Hexp' : ∀ k, k ∈ ids → is_expired (r k) = false).
      { apply group_rows_all_false. unfold l in Hexp.
        by rewrite classify_expired in Hexp. }
      intros k Hin. unfold emits.
      destruct (find_result_classes (r k)) as [(->&_)|[(_&Habs&_)|(_&_&Habs)]].
      * done.
      * by rewrite (Hexp' k Hin) in Habs.
      * by rewrite (Hnf' k Hin) in Habs.
    + simpl in Hres. destruct (allow_read_expired_keys d) eqn:Hallow.
      * unfold number_update_async in Hres.
        destruct (tryPushToUpdateQueueOrThrow _ _) as [d2|e]; [|discriminate].
        simpl in Hres. injection Hres as <- _. apply Hserved.
        intros k Hin. unfold emits. rewrite andb_true_r.
        destruct (find_result_classes (r k)) as [(->&_)|[(_&->&_)|(_&_&Habs)]].
        -- done.
        -- apply orb_true_r.
        -- by rewrite (Hnf' k Hin) in Habs.
      * by eapply number_update_sync_rows.
  - simpl in Hres. by eapply number_update_sync_rows.
Qed.
End LookupRows.

Section StringRows.
Context {EV : Externals string}.
Variable get_default : nat → string.
Implicit Types (d : CacheDictionary string).

Lemma optimistic_rows_streamed d a now row ids c c1 :
  optimistic_rows get_default d a now row ids c = (false, c1) →
  c1 = insert_rows
         (λ i id, string_ref_of get_default d a i
                    (cell_idx (findCellIdx (cells d) id now)))
         row ids c.
Proof.
  revert row c. induction ids as [|id rest IH]; intros row c Hopt; simpl in *.
  - congruence.
  - destruct (valid (findCellIdx (cells d) id now)); simpl in Hopt; [|discriminate].
    by apply IH.
Qed.

Lemma getItemsString_rows d a ids now0 now now' c' d' :
  getItemsString get_default d a ids empty_column now0 now now' = Ok (c', d') →
  ∃ res : Key → option string,
    c' = insert_rows (λ i id, default (get_default i) (res id)) 0 ids empty_column.
Proof.
  intros Hres. unfold getItemsString in Hres.
  destruct (optimistic_rows get_default d a now0 0 ids empty_column)
    as [flag c1] eqn:Hopt.
  destruct flag; simpl in Hres.
  - unfold getItemsString_pessimistic in Hres. cbv zeta in Hres.
    destruct (string_update_async _ _) as [d2|e]; [|discriminate]. simpl in Hres.
    destruct (string_update_sync _ _ _ _ _) as [[d3 [m tl]]|e]; [|discriminate].
    simpl in Hres. injection Hres as <- _.
    exists (λ k, m !! k).
    unfold s_classify. rewrite s_classify_rows_out. simpl.
    apply emit_rows_insert_rows.
  - injection Hres as <- _.
    exists (λ k, if isDefault (cells d !!! cell_idx (findCellIdx (cells d) k now0))
                 then None
                 else Some (attribute_array d a !!! cell_idx (findCellIdx (cells d) k now0))).
    rewrite (optimistic_rows_streamed _ _ _ _ _ _ _ Hopt).
    apply insert_rows_ext. intros i id _. unfold string_ref_of.
    by destruct (isDefault _).
Qed.
End StringRows.

(** C2 (as amended).  A lookup that returns gives one output per input key,
    in input order, and the output of a row is fixed by the key of the row:
    there is a resolution of the batch's keys, each key resolved either to
    one value or to "default", such that every row whose key is resolved to
    a value holds that value (also when the value came from a synchronous
    fetch), and every row whose key is resolved to "default" holds the
    default of that row, [get_default row].  So two rows with the same key
    hold the same output whenever their defaults agree; when the defaults of
    the rows differ, rows of a defaulted key differ.  For the string lookup
    the column is the one obtained by inserting, row after row, the value or
    the row's default. *)
Theorem lookup_rows_resolved_per_key {V O : Type} `{!Inhabited V}
    {EV : Externals V} {ES : Externals string}
    (static_cast : V → O) (get_default : nat → O) (get_default_s : nat → string)
    (d : CacheDictionary V) (ds : CacheDictionary string) (a : nat)
    (ids : list Key) (o : list O) (now0 now now' : Z) :
  (∀ o' d', length o = length ids →
     getItemsNumberImpl static_cast get_default d a ids o now now' = Ok (o', d') →
     length o' = length ids
     ∧ (∃ res : Key → option O, ∀ i k,
          ids !! i = Some k → o' !! i = Some (default (get_default i) (res k)))
     ∧ (∀ i j k, ids !! i = Some k → ids !! j = Some k →
          get_default i = get_default j → o' !! i = o' !! j))
  ∧ (∀ c' ds',
       getItemsString get_default_s ds a ids empty_column now0 now now' = Ok (c', ds') →
       length (offsets c') = length ids
       ∧ ∃ res : Key → option string,
           c' = insert_rows (λ i id, default (get_default_s i) (res id))
                  0 ids empty_column).
Proof.
  split.
  - intros o' d' Hlen Hres.
    destruct (getItemsNumberImpl_rows _ _ _ _ _ _ _ _ _ _ Hlen Hres) as [Hlen' [res Hrows]].
    split; [done|]. split; [by exists res|].
    intros i j k Hi Hj Hdef. by rewrite (Hrows i k Hi), (Hrows j k Hj), Hdef.
  - intros c' ds' Hres.
    destruct (getItemsString_rows _ _ _ _ _ _ _ _ _ Hres) as [res ->].
    split; [by rewrite insert_rows_offsets | by exists res].
Qed.

Lemma lookup_rows_resolved_per_key_witness :
  ∃ o' d',
    getItemsNumberImpl (EV := spec_externals source_z) (λ v : Z, v) (λ _, 9)
      (fresh_dict_z (mkLifetime 10 10) false 10) 0 [5; 7; 5; 7]%N [0; 0; 0; 0] 0 0
    = Ok (o', d')
    ∧ length o' = 4%nat
    ∧ o' !! 0%nat = o' !! 2%nat
    ∧ o' !! 1%nat = o' !! 3%nat.
Proof.
  eexists _, _. split; [vm_compute; reflexivity|].
  destruct (lookup_rows_resolved_per_key (EV := spec_externals source_z)
              (ES := spec_externals source_s) (λ v : Z, v) (λ _, 9) default_s
              (fresh_dict_z (mkLifetime 10 10) false 10) (cached_dict_s false)
              0 [5; 7; 5; 7]%N [0; 0; 0; 0] 0 0 0) as [Hnum _].
  edestruct Hnum as (Hlen & _ & Hsame); [reflexivity | vm_compute; reflexivity |].
  split; [exact Hlen|]. split.
  - apply (Hsame 0%nat 2%nat 5%N); reflexivity.
  - apply (Hsame 1%nat 3%nat 7%N); reflexivity.
Defined.

(** C2 (counterexample).  Key 7 is unknown to the cache and to the source;
    the defaults of the rows are 100 and 101.  The lookup of [7; 7] fetches
    synchronously and the two rows of key 7 come out different. *)
Lemma repeated_key_rows_differ :
  match
    getItemsNumberImpl (EV := spec_externals source_z) (λ v : Z, v) default_z
      (fresh_dict_z (mkLifetime 10 10) false 10) 0 [7; 7]%N [0; 0] 0 0
  with
  | Ok (o', _) => o' = [100; 101] ∧ o' !! 0%nat ≠ o' !! 1%nat
  | Throw _ => False
  end.
Proof. vm_compute. split; [reflexivity | discriminate]. Qed.

(** ** What the string lookup keeps in its map *)

Section StringLookupFacts.
Context {EV : Externals string}.
Variable get_default : nat → string.
Implicit Types (d : CacheDictionary string) (l : StringLocals).

(** A key that the update did not mark found keeps its entry of the string
    map, or its absence from it. *)
Lemma string_prepareAnswer_map_unfound a l u now req d (st : gmap N string * nat) k :
  found_ids_mask u k = false →
  (foldl (prepareAnswer_id (string_on_cell_updated a l)
            (string_on_id_not_found get_default l) u now) (d, st) req).2.1 !! k =
    st.1 !! k.
Proof.
  intros Hmask. revert d st. induction req as [|k0 rest IH]; intros d st; [done|].
  change (foldl ?f (d, st) (k0 :: rest)) with (foldl f (f (d, st) k0) rest).
  unfold prepareAnswer_id at 2.
  destruct (found_ids_mask u k0) eqn:Hk0.
  - rewrite IH. unfold string_on_cell_updated. cbn [fst].
    apply lookup_insert_ne. intros ->. congruence.
  - by rewrite IH.
Qed.

Lemma s_classify_map d a now ids c k :
  k ∈ ids →
  string_map (s_classify get_default d a now ids c) !! k =
    if emits (allow_read_expired_keys d) (findCellIdx (cells d) k now)
       && negb (isDefault (cells d !!! cell_idx (findCellIdx (cells d) k now)))
    then Some (attribute_array d a !!! cell_idx (findCellIdx (cells d) k now))
    else None.
Proof.
  intros Hin. unfold s_classify. rewrite s_classify_rows_map. cbv zeta.
  rewrite bool_decide_eq_true_2 by done. simpl.
  by rewrite lookup_empty.
Qed.
End StringLookupFacts.

(** ** A fetch that found nothing *)

(** C7 (as amended).  When the update comes back with no requested key
    marked found, as after a failed fetch, the waiting lookup still returns,
    without an exception.  No stale value is kept in the cache: in
    [prepareAnswer], the iteration for a key that is not marked found takes
    the key's cell over whatever it holds (also the key's own expired or
    quarantined payload), marks it default, gives it the expiry of the
    lifetime rule (the max sentinel, or [now] plus a draw; not a freeze
    window), and resets the payload to the attribute's null value.  What the
    waiter receives depends on the lookup.  In the numeric lookup every row
    whose key was not a hit receives the default of that row.  In the string
    lookup every row receives what the classify pass stored for its key: the
    cached payload when the key was served from a cell that is not marked
    default (a hit, or an expired key while stale reads are allowed), and the
    default of the row otherwise. *)
Theorem failed_fetch_defaults_requested_keys {V O : Type} `{!Inhabited V}
    {EV : Externals V} {ES : Externals string}
    (static_cast : V → O) (get_default : nat → O) (get_default_s : nat → string)
    (d : CacheDictionary V) (ds : CacheDictionary string) (a : nat)
    (ids : list Key) (o : list O) (c : ColumnString) (now0 now now' : Z) :
  let r := λ k, @findCellIdx V EV (cells d) k now in
  let rs := λ k, @findCellIdx string ES (cells ds) k now in
  let l := classify static_cast get_default d a now ids o in
  let ls := s_classify get_default_s ds a now ids empty_column in
  let d1 :=
    count_request d (length ids)
      (size (cache_expired_ids l) + size (cache_not_found_ids l)) in
  let ds1 :=
    count_request ds (length ids)
      (size (s_cache_expired_ids ls) + size (s_cache_not_found_ids ls)) in
  let u :=
    make_UpdateUnit
      (keys_of (EV := EV) (cache_not_found_ids l)
       ++ keys_of (EV := EV) (cache_expired_ids l)) in
  let us :=
    make_UpdateUnit
      (keys_of (EV := ES) (s_cache_not_found_ids ls)
       ++ keys_of (EV := ES) (s_cache_expired_ids ls)) in
  (length o = length ids →
   (∃ k, k ∈ ids ∧ is_not_found (r k) = true)
   ∨ (allow_read_expired_keys d = false ∧ ∃ k, k ∈ ids ∧ is_expired (r k) = true) →
   ∀ d2, tryPushToUpdateQueueOrThrow d1 u = Ok d2 →
   (∀ k, (waitForCurrentUpdateFinish d2 u).2 k = false) →
   ∃ o' d',
     getItemsNumberImpl static_cast get_default d a ids o now now' = Ok (o', d')
     ∧ ∀ i k, ids !! i = Some k → is_hit (r k) = false →
         o' !! i = Some (get_default i))
  ∧ ((∃ k, k ∈ ids ∧ valid (@findCellIdx string ES (cells ds) k now0) = false) →
     (∃ k, k ∈ ids ∧ is_not_found (rs k) = true) →
     ∀ ds2, tryPushToUpdateQueueOrThrow ds1 us = Ok ds2 →
     (∀ k, (waitForCurrentUpdateFinish ds2 us).2 k = false) →
     ∃ ds',
       getItemsString get_default_s ds a ids c now0 now now' =
         Ok (insert_rows
               (λ i id,
                  if emits (allow_read_expired_keys ds) (rs id)
                     && negb (isDefault (cells ds !!! cell_idx (rs id)))
                  then attribute_array ds a !!! cell_idx (rs id)
                  else get_default_s i)
               0 ids empty_column,
             ds'))
  ∧ (∀ (L : Type) (on_upd on_nf : CacheDictionary V → Key → nat → L → L)
       (uw : UpdateUnit) (dw : CacheDictionary V) (lw : L) (id : Key),
       let idx := cell_idx (@findCellIdx V EV (cells dw) id now') in
       let st' := prepareAnswer_id on_upd on_nf uw now' (dw, lw) id in
       found_ids_mask uw id = false →
       (idx < length (cells dw))%nat →
       (a < length (attributes dw))%nat →
       (idx < length (attribute_array dw a))%nat →
       cells st'.1 !!! idx =
         mkCell id
           (new_expires_at (EV := EV) (dict_lifetime dw) now' (rnd_engine dw)).1 true
       ∧ attribute_array st'.1 a !!! idx = null_values (attributes dw !!! a)).
Proof.
  intros r rs l ls d1 ds1 u us. split; [|split].
  - intros Hlen Hcase d2 Hpush Hmask.
    rewrite getItemsNumberImpl_sync by done.
    rewrite number_update_sync_unfold. cbv zeta.
    fold l. fold d1. fold u. rewrite Hpush. simpl.
    eexists _, _. split; [reflexivity|].
    intros i k Hik Hmiss.
    destruct (prepareAnswer_rows static_cast get_default a l ids
                (λ k, negb (is_hit (r k)))
                (classify_groups_rows static_cast get_default d a now ids o)
                (keys_of (EV := EV) (cache_not_found_ids l)
                 ++ keys_of (EV := EV) (cache_expired_ids l))
                (waitForCurrentUpdateFinish d2 u).2 now'
                (waitForCurrentUpdateFinish d2 u).1 (out l))
      as (res & Hnone & Hrows).
    rewrite (Hrows i k Hik), (Hnone k (Hmask k)).
    rewrite decide_True.
    + assert (Hlt : (i < length (out l))%nat).
      { unfold l. rewrite classify_length, Hlen. by eapply lookup_lt_Some. }
      by destruct (lookup_lt_is_Some_2 _ _ Hlt) as [x ->].
    + split; [|by rewrite Hmiss].
      apply required_ids_spec. split; [|done]. by eapply list_elem_of_lookup_2.
  - intros Hinvalid Hnf ds2 Hpush Hmask.
    rewrite getItemsString_slow by done.
    unfold getItemsString_pessimistic. cbv zeta.
    change (discard empty_column) with empty_column. fold ls. fold ds1.
    assert (Hne : is_empty (s_cache_not_found_ids ls) = false).
    { unfold ls. rewrite s_classify_not_found_empty.
      by apply (group_rows_nonempty (λ k, is_not_found (rs k))). }
    unfold string_update_async, string_update_sync. rewrite Hne. simpl.
    fold us. rewrite Hpush. simpl.
    pose proof Hmask as Hmask'.
    destruct (waitForCurrentUpdateFinish ds2 us) as [dw mask]. simpl in Hmask'.
    cbn [bind].
    assert (Hout : s_out ls = empty_column).
    { unfold ls, s_classify. by rewrite s_classify_rows_out. }
    rewrite Hout, emit_rows_insert_rows.
    eexists. f_equal. f_equal.
    apply insert_rows_ext. intros i id Hin. unfold prepareAnswer.
    rewrite string_prepareAnswer_map_unfound by apply Hmask'.
    cbn [fst]. unfold ls. rewrite (s_classify_map _ _ _ _ _ _ _ Hin).
    fold (rs id). by destruct (_ && _).
  - intros L on_upd on_nf uw dw lw id idx st' Hmask Hidx Ha Hattr.
    assert (Hst : st'.1 = occupy_as_default (EV := EV) dw id idx now').
    { unfold st', prepareAnswer_id. fold idx. by rewrite Hmask. }
    rewrite Hst. split.
    + by apply (occupy_cell_at (EV := EV)).
    + by apply (occupy_attribute_at (EV := EV)).
Qed.

Lemma failed_fetch_defaults_requested_keys_witness :
  (* the source is down; key 5 is cached (42, respectively "a") and expired,
     key 7 is unknown; the string dictionary allows stale reads *)
  (∃ o' d',
     getItemsNumberImpl (EV := spec_externals failing_source_z) (λ v : Z, v) default_z
       (stale_dict_z (mkLifetime 10 10) false 10) 0 [5; 7]%N [0; 0] 20 20
     = Ok (o', d')
     ∧ o' !! 0%nat = Some 100
     ∧ o' !! 1%nat = Some 101)
  ∧ (∃ ds',
       getItemsString (EV := spec_externals failing_source_s) default_s
         (cached_dict_s true) 0 [5; 7]%N empty_column 20 20 20
       = Ok (insertData (insertData empty_column "a") "dflt", ds')).
Proof.
  destruct (failed_fetch_defaults_requested_keys
              (EV := spec_externals failing_source_z)
              (ES := spec_externals failing_source_s)
              (λ v : Z, v) default_z default_s
              (stale_dict_z (mkLifetime 10 10) false 10) (cached_dict_s true)
              0 [5; 7]%N [0; 0] empty_column 20 20 20)
    as (Hnum & Hstr & _).
  split.
  - edestruct Hnum as (o' & d' & Hres & Hrows).
    + reflexivity.
    + left. exists 7%N. split; [|reflexivity].
      apply elem_of_cons. right. apply list_elem_of_singleton. reflexivity.
    + vm_compute. reflexivity.
    + intros k. reflexivity.
    + exists o', d'. split; [exact Hres|]. split.
      * apply (Hrows 0%nat 5%N); reflexivity.
      * apply (Hrows 1%nat 7%N); reflexivity.
  - edestruct Hstr as (ds' & Hres).
    + exists 5%N. split; [by left | reflexivity].
    + exists 7%N. split; [|reflexivity].
      apply elem_of_cons. right. by left.
    + vm_compute. reflexivity.
    + intros k. reflexivity.
    + exists ds'. exact Hres.
Defined.

(** C7 (counterexample).  Key 5 is cached with payload 42 and expired at 10;
    the source is down and the freeze window ends at 100; stale reads are
    not allowed.  The worker, as the specification describes it, keeps the
    payload and sets the expiry to 100.  The lookup of key 5 at time 20 then
    returns the default of the row, and leaves the cell marked default, with
    the payload 0 and the expiry 20 plus ten seconds: the stale value is not
    kept and the expiry is not the freeze window. *)
Lemma failed_fetch_loses_stale_value :
  let d := stale_dict_z (mkLifetime 10 10) false 10 in
  let after_worker :=
    (wait_spec failing_source_z
       (with_update_queue d [make_UpdateUnit [5%N]]) (make_UpdateUnit [5%N])).1 in
  cells after_worker !! 1%nat = Some (mkCell 5%N 100 false)
  ∧ attribute_array after_worker 0 !! 1%nat = Some 42
  ∧ match
      getItemsNumberImpl (EV := spec_externals failing_source_z) (λ v : Z, v)
        default_z d 0 [5]%N [0] 20 20
    with
    | Ok (o', d') =>
        o' = [100]
        ∧ cells d' !! 1%nat = Some (mkCell 5%N 10000000020 true)
        ∧ attribute_array d' 0 !! 1%nat = Some 0
    | Throw _ => False
    end.
Proof. vm_compute. repeat split. Qed.

(** ** The lock held while cells are written *)

(** C8 (the code at a failing input).  [prepareAnswer] holds the read lock,
    the same shared lock the classify passes read the cells under, and with
    this lock held it rewrites a cell: key 9, not found by the update, takes
    slot 1 from key 5. *)
Lemma prepareAnswer_writes_cell_under_read_lock :
  let d := stale_dict_z (mkLifetime 10 10) false 10 in
  let d' :=
    (prepareAnswer (EV := spec_externals source_z)
       (λ _ _ _ (o : list Z), o) (λ _ _ _ o, o)
       (make_UpdateUnit [9%N]) 20 d [0]).1 in
  prepareAnswer_lock = ReadLock
  ∧ prepareAnswer_lock = classify_lock
  ∧ prepareAnswer_lock ≠ WriteLock
  ∧ cells d !! 1%nat = Some (mkCell 5%N 10 false)
  ∧ cells d' !! 1%nat = Some (mkCell 9%N 10000000020 true).
Proof. vm_compute. repeat split. discriminate. Qed.

(** * Further properties of the three functions *)

(** ** What [prepareAnswer] keeps *)

Section PrepareAnswerInvariants.
Context {V L : Type} `{!Inhabited V} {EV : Externals V}.
Variable on_upd on_nf : CacheDictionary V → Key → nat → L → L.
Implicit Types (d : CacheDictionary V) (l : L).

Lemma same_shape_refl d : same_shape d d.
Proof.
  unfold same_shape. repeat split; try done.
  apply Forall2_same_length_lookup. split; [done|].
  intros i x y Hx Hy. rewrite Hx in Hy. by injection Hy as <-.
Qed.

Lemma same_shape_trans d1 d2 d3 :
  same_shape d1 d2 → same_shape d2 d3 → same_shape d1 d3.
Proof.
  unfold same_shape.
  intros (Hc & Ha & Hz & Hl & Hr & Hq & Hh & Hu & Hm)
         (Hc' & Ha' & Hz' & Hl' & Hr' & Hq' & Hh' & Hu' & Hm').
  repeat split; try congruence.
  eapply Forall2_trans; [|exact Ha|exact Ha'].
  intros x y z [? ?] [? ?]. split; congruence.
Qed.

Lemma occupy_same_shape d id idx now :
  same_shape d (occupy_as_default d id idx now).
Proof.
  unfold same_shape. rewrite occupy_cells, occupy_attributes.
  split; [apply length_insert|]. split.
  { apply Forall2_fmap_r, Forall_Forall2_diag, Forall_forall.
    intros at_ _. simpl. split; [done | apply length_insert]. }
  unfold occupy_as_default.
  destruct (_ && _); simpl; destruct (new_expires_at _ _ _); simpl; done.
Qed.

Lemma prepareAnswer_id_same_shape u now d l id :
  same_shape d (prepareAnswer_id on_upd on_nf u now (d, l) id).1.
Proof.
  unfold prepareAnswer_id. destruct (found_ids_mask u id); cbn [fst].
  - apply same_shape_refl.
  - apply occupy_same_shape.
Qed.

Lemma prepareAnswer_fold_same_shape u now req d l :
  same_shape d (foldl (prepareAnswer_id on_upd on_nf u now) (d, l) req).1.
Proof.
  revert d l. induction req as [|k rest IH]; intros d l.
  - apply same_shape_refl.
  - change (foldl ?f (d, l) (k :: rest)) with (foldl f (f (d, l) k) rest).
    pose proof (prepareAnswer_id_same_shape u now d l k) as Hstep.
    destruct (prepareAnswer_id on_upd on_nf u now (d, l) k) as [d1 l1].
    eapply same_shape_trans; [exact Hstep | apply IH].
Qed.

Lemma prepareAnswer_fold_all_found u now req d l :
  (∀ k, k ∈ req → found_ids_mask u k = true) →
  (foldl (prepareAnswer_id on_upd on_nf u now) (d, l) req).1 = d.
Proof.
  revert l. induction req as [|k rest IH]; intros l Hfound; [done|].
  change (foldl ?f (d, l) (k :: rest)) with (foldl f (f (d, l) k) rest).
  unfold prepareAnswer_id at 2. rewrite (Hfound k) by left.
  apply IH. intros k' Hin. apply Hfound. by right.
Qed.

Lemma prepareAnswer_all_found_dictionary u now d l :
  (∀ k, k ∈ requested_ids u → found_ids_mask u k = true) →
  (prepareAnswer on_upd on_nf u now d l).1 = d.
Proof. apply prepareAnswer_fold_all_found. Qed.

Lemma occupy_element_count_step d id idx now :
  0 ≤ element_count d < 2 ^ 64 →
  let d' := occupy_as_default d id idx now in
  0 ≤ element_count d' < 2 ^ 64
  ∧ (element_count d' = element_count d
     ∨ element_count d' = (element_count d + 1) mod 2 ^ 64).
Proof.
  intros Hrange d'. unfold d'. rewrite occupy_element_count.
  destruct (_ && _).
  - unfold fetch_add. split; [by apply Z.mod_pos_bound | by right].
  - split; [done | by left].
Qed.

Lemma prepareAnswer_fold_element_count u now req d l :
  0 ≤ element_count d < 2 ^ 64 →
  ∃ n : nat,
    (n ≤ length (List.filter (λ k, negb (found_ids_mask u k)) req))%nat
    ∧ element_count (foldl (prepareAnswer_id on_upd on_nf u now) (d, l) req).1
      = (element_count d + Z.of_nat n) mod 2 ^ 64.
Proof.
  revert d l. induction req as [|k rest IH]; intros d l Hrange.
  - exists 0%nat. split; [done|]. simpl. rewrite Z.add_0_r.
    by rewrite Z.mod_small.
  - change (foldl ?f (d, l) (k :: rest)) with (foldl f (f (d, l) k) rest).
    unfold prepareAnswer_id at 2. simpl List.filter.
    destruct (found_ids_mask u k); simpl negb; cbv iota.
    + destruct (IH d (on_upd d k (cell_idx (findCellIdx (cells d) k now)) l) Hrange)
        as (n & Hn & Hec).
      exists n. split; [done | exact Hec].
    + destruct (occupy_element_count_step d k
                  (cell_idx (findCellIdx (cells d) k now)) now Hrange)
        as [Hrange' Hstep].
      destruct (IH _ (on_nf (occupy_as_default d k
                               (cell_idx (findCellIdx (cells d) k now)) now) k
                        (cell_idx (findCellIdx (cells d) k now)) l) Hrange')
        as (n & Hn & Hec).
      destruct Hstep as [Hsame|Hinc].
      * exists n. split; [simpl; lia|]. by rewrite Hec, Hsame.
      * exists (S n). split; [simpl; lia|]. rewrite Hec, Hinc.
        rewrite Z.add_mod_idemp_l by lia. f_equal. lia.
Qed.
End PrepareAnswerInvariants.

(** X1.  [prepareAnswer] never changes the shape of the table: whatever the
    unit and the handlers, the dictionary it returns has as many cells and
    as many attributes as before, each attribute keeps its null value and the
    length of its payload column, and the configuration ([zero_cell_idx],
    [dict_lifetime], [allow_read_expired_keys]), the request counters and
    the update queue are untouched. *)
Theorem prepareAnswer_keeps_table_shape {V L : Type} `{!Inhabited V}
    {EV : Externals V} (on_upd on_nf : CacheDictionary V → Key → nat → L → L)
    (u : UpdateUnit) (now : Z) (d : CacheDictionary V) (l : L) :
  let d' := (prepareAnswer on_upd on_nf u now d l).1 in
  length (cells d') = length (cells d)
  ∧ length (attributes d') = length (attributes d)
  ∧ (∀ a at_, attributes d !! a = Some at_ →
       ∃ at', attributes d' !! a = Some at'
         ∧ null_values at' = null_values at_
         ∧ length (arrays at') = length (arrays at_))
  ∧ zero_cell_idx d' = zero_cell_idx d
  ∧ dict_lifetime d' = dict_lifetime d
  ∧ allow_read_expired_keys d' = allow_read_expired_keys d
  ∧ query_count d' = query_count d
  ∧ hit_count d' = hit_count d
  ∧ update_queue d' = update_queue d.
Proof.
  intros d'.
  destruct (prepareAnswer_fold_same_shape on_upd on_nf u now (requested_ids u) d l)
    as (Hc & Ha & Hz & Hl & Hr & Hq & Hh & Hu & _).
  fold (prepareAnswer on_upd on_nf u now d l) in Hc, Ha, Hz, Hl, Hr, Hq, Hh, Hu.
  fold d' in Hc, Ha, Hz, Hl, Hr, Hq, Hh, Hu.
  repeat split; try done.
  - symmetry. by eapply Forall2_length.
  - intros a at_ Hat.
    destruct (Forall2_lookup_l _ _ _ _ _ Ha Hat) as (at' & Hat' & Hnull & Hlen).
    by exists at'.
Qed.

(** X2.  When every requested key is marked found, [prepareAnswer] only
    calls [on_cell_updated]: the dictionary it returns is the dictionary it
    was given (no cell, payload, counter or random-engine state changes). *)
Theorem prepareAnswer_all_found_keeps_dictionary {V L : Type} `{!Inhabited V}
    {EV : Externals V} (on_upd on_nf : CacheDictionary V → Key → nat → L → L)
    (u : UpdateUnit) (now : Z) (d : CacheDictionary V) (l : L) :
  (∀ k, k ∈ requested_ids u → found_ids_mask u k = true) →
  (prepareAnswer on_upd on_nf u now d l).1 = d.
Proof. apply prepareAnswer_fold_all_found. Qed.

Lemma prepareAnswer_all_found_keeps_dictionary_witness :
  (prepareAnswer (EV := spec_externals source_z)
     (λ _ k _ (o : list Key), k :: o) (λ _ _ _ o, o)
     (mkUpdateUnit [5; 9]%N (λ _, true)) 20
     (stale_dict_z (mkLifetime 10 10) false 10) []).1
  = stale_dict_z (mkLifetime 10 10) false 10.
Proof.
  apply (prepareAnswer_all_found_keeps_dictionary (EV := spec_externals source_z)).
  intros k _. reflexivity.
Defined.

(** X3.  Over one call of [prepareAnswer], [element_count] (a 64-bit
    counter) grows by at most the number of requested keys that are not
    marked found, and never shrinks otherwise: it ends at the old count plus
    some [n] not larger than that number, modulo 2^64. *)
Theorem prepareAnswer_element_count_bound {V L : Type} `{!Inhabited V}
    {EV : Externals V} (on_upd on_nf : CacheDictionary V → Key → nat → L → L)
    (u : UpdateUnit) (now : Z) (d : CacheDictionary V) (l : L) :
  0 ≤ element_count d < 2 ^ 64 →
  ∃ n : nat,
    (n ≤ length (List.filter (λ k, negb (found_ids_mask u k)) (requested_ids u)))%nat
    ∧ element_count (prepareAnswer on_upd on_nf u now d l).1
      = (element_count d + Z.of_nat n) mod 2 ^ 64.
Proof. apply prepareAnswer_fold_element_count. Qed.

Lemma prepareAnswer_element_count_bound_witness :
  ∃ n : nat,
    (n ≤ 2)%nat
    ∧ element_count
        (prepareAnswer (EV := spec_externals source_z)
           (λ _ _ _ (o : list Z), o) (λ _ _ _ o, o)
           (make_UpdateUnit [7; 9]%N) 20
           (stale_dict_z (mkLifetime 10 10) false 10) []).1
      = (1 + Z.of_nat n) mod 2 ^ 64.
Proof.
  apply (prepareAnswer_element_count_bound (EV := spec_externals source_z)
           (λ _ _ _ (o : list Z), o) (λ _ _ _ o, o)
           (make_UpdateUnit [7; 9]%N) 20
           (stale_dict_z (mkLifetime 10 10) false 10) []).
  vm_compute. split; [discriminate | reflexivity].
Defined.

(** ** More on [getItemsNumberImpl] *)

Section NumberLookupFacts.
Context {V O : Type} `{!Inhabited V} {EV : Externals V}.
Variable static_cast : V → O.
Variable get_default : nat → O.
Implicit Types (d : CacheDictionary V) (o : list O).

Lemma count_request_fields d rows misses :
  let d1 := count_request d rows misses in
  cells d1 = cells d ∧ attributes d1 = attributes d
  ∧ element_count d1 = element_count d ∧ rnd_engine d1 = rnd_engine d
  ∧ update_queue d1 = update_queue d
  ∧ query_count d1 = fetch_add (query_count d) (Z.of_nat rows).
Proof. done. Qed.

Lemma classify_hit_row d a now ids o i k :
  length o = length ids →
  ids !! i = Some k →
  is_hit (findCellIdx (cells d) k now) = true →
  out (classify static_cast get_default d a now ids o) !! i =
    Some (cell_value static_cast get_default d a i
            (cell_idx (findCellIdx (cells d) k now))).
Proof.
  intros Hlen Hik Hhit.
  rewrite (classify_emitted_row _ _ _ _ _ _ _ _ _ Hlen Hik)
    by (unfold emits; by rewrite Hhit).
  by rewrite cell_value_resolution.
Qed.

(** The rows after the synchronous update, read off the rows before it. *)
Lemma number_update_sync_result d a now ids o now' d1 d2 :
  let l := classify static_cast get_default d a now ids o in
  let req := keys_of (cache_not_found_ids l) ++ keys_of (cache_expired_ids l) in
  tryPushToUpdateQueueOrThrow d1 (make_UpdateUnit req) = Ok d2 →
  let w := waitForCurrentUpdateFinish d2 (make_UpdateUnit req) in
  let p :=
    prepareAnswer (number_on_cell_updated static_cast a l)
      (number_on_id_not_found get_default l) (mkUpdateUnit req w.2) now' w.1 (out l) in
  number_update_sync static_cast get_default a l now' d1 = Ok (p.2, p.1).
Proof.
  intros l req Hpush w p. rewrite number_update_sync_unfold. cbv zeta.
  fold l. fold req. by rewrite Hpush.
Qed.

Lemma prepareAnswer_fold_found_rows a (l : NumberLocals O) (ids : list Key)
    (miss : Key → bool) u now req d o :
  (∀ i k, i ∈ cache_not_found_ids l !!! k ∨ i ∈ cache_expired_ids l !!! k
          ↔ ids !! i = Some k ∧ miss k = true) →
  (∀ k, k ∈ req → found_ids_mask u k = true) →
  ∀ i k, ids !! i = Some k →
    (foldl (prepareAnswer_id (number_on_cell_updated static_cast a l)
              (number_on_id_not_found get_default l) u now) (d, o) req).2 !! i =
      if decide (k ∈ req ∧ miss k = true)
      then (λ _, static_cast
                   (attribute_array d a !!! cell_idx (findCellIdx (cells d) k now)))
             <$> o !! i
      else o !! i.
Proof.
  intros Hgroups. revert o. induction req as [|k0 rest IH]; intros o Hfound i k Hik.
  - cbn [foldl snd].
    destruct (decide (k ∈ [] ∧ miss k = true)) as [[Hin _]|_];
      [by apply elem_of_nil in Hin | done].
  - change (foldl ?f (d, o) (k0 :: rest)) with (foldl f (f (d, o) k0) rest).
    unfold prepareAnswer_id at 2. rewrite (Hfound k0) by left.
    assert (Hrest : ∀ k', k' ∈ rest → found_ids_mask u k' = true)
      by (intros k' Hin; apply Hfound; by right).
    rewrite (IH _ Hrest i k Hik), number_on_cell_updated_lookup.
    assert (Hk0 : (i ∈ cache_not_found_ids l !!! k0 ∨ i ∈ cache_expired_ids l !!! k0)
                  ↔ k = k0 ∧ miss k = true).
    { rewrite Hgroups. split.
      - intros [Hik0 Hm]. split; congruence.
      - intros [-> Hm]. done. }
    destruct (decide (k ∈ rest ∧ miss k = true)) as [[Hin Hm]|Hnot].
    + rewrite (decide_True (P := k ∈ k0 :: rest ∧ miss k = true))
        by (split; [by right|done]).
      destruct (decide (_ ∨ _)); [apply fmap_const_twice | done].
    + destruct (decide (k = k0 ∧ miss k = true)) as [[-> Hm]|Hnot0].
      * rewrite (decide_True (P := _ ∨ _)) by (by apply Hk0).
        by rewrite (decide_True (P := k0 ∈ k0 :: rest ∧ miss k0 = true))
          by (split; [by left|done]).
      * rewrite (decide_False (P := _ ∨ _)) by (by rewrite Hk0).
        rewrite (decide_False (P := k ∈ k0 :: rest ∧ miss k = true)); [done|].
        intros [[->|Hin]%elem_of_cons Hm]; [by apply Hnot0 | by apply Hnot].
Qed.
End NumberLookupFacts.

(** X4.  A numeric batch in which every key is a hit is answered from the
    cells alone: the call succeeds whatever the state of the update queue,
    every row holds the value of its key's cell (the row's default when the
    cell is marked default), and the dictionary comes back with only
    [query_count] and [hit_count] advanced by the number of rows; cells,
    payloads, [element_count], the random engine and the queue are
    untouched.  The empty batch is such a batch. *)
Theorem number_all_hits_no_update {V O : Type} `{!Inhabited V} {EV : Externals V}
    (static_cast : V → O) (get_default : nat → O)
    (d : CacheDictionary V) (a : nat) (ids : list Key) (o : list O) (now now' : Z) :
  (∀ k, k ∈ ids → is_hit (findCellIdx (cells d) k now) = true) →
  length o = length ids →
  ∃ o' d',
    getItemsNumberImpl static_cast get_default d a ids o now now' = Ok (o', d')
    ∧ length o' = length ids
    ∧ (∀ i k, ids !! i = Some k →
         o' !! i = Some (cell_value static_cast get_default d a i
                           (cell_idx (findCellIdx (cells d) k now))))
    ∧ cells d' = cells d ∧ attributes d' = attributes d
    ∧ element_count d' = element_count d ∧ rnd_engine d' = rnd_engine d
    ∧ update_queue d' = update_queue d
    ∧ query_count d' = fetch_add (query_count d) (Z.of_nat (length ids))
    ∧ hit_count d' = fetch_add (hit_count d) (Z.of_nat (length ids)).
Proof.
  intros Hhit Hlen. eexists _, _.
  split; [by apply getItemsNumberImpl_all_hits|].
  split; [by rewrite classify_length|].
  split.
  { intros i k Hik. apply classify_hit_row; [done|done|].
    apply Hhit. by eapply list_elem_of_lookup_2. }
  repeat split.
  simpl. unfold fetch_add. change (Z.of_nat 0) with 0. rewrite Z.sub_0_r.
  by rewrite Z.add_mod_idemp_r by lia.
Qed.

Lemma number_all_hits_no_update_witness :
  ∃ o' d',
    getItemsNumberImpl (EV := spec_externals source_z) (λ v : Z, v) default_z
      (stale_dict_z (mkLifetime 10 10) false 0) 0 [5; 5]%N [0; 0] 3 3
    = Ok (o', d')
    ∧ o' !! 1%nat = Some 42
    ∧ cells d' = cells (stale_dict_z (mkLifetime 10 10) false 0)
    ∧ hit_count d' = 2.
Proof.
  destruct (number_all_hits_no_update (EV := spec_externals source_z)
              (λ v : Z, v) default_z
              (stale_dict_z (mkLifetime 10 10) false 0) 0 [5; 5]%N [0; 0] 3 3)
    as (o' & d' & Hres & _ & Hrows & Hcells & _ & _ & _ & _ & _ & Hhits).
  - intros k [->|[->|Hin]%elem_of_cons]%elem_of_cons;
      [reflexivity | reflexivity | by apply elem_of_nil in Hin].
  - reflexivity.
  - exists o', d'. split; [exact Hres|]. split; [|split; [exact Hcells | exact Hhits]].
    apply (Hrows 1%nat 5%N). reflexivity.
Defined.

(** X6.  In a numeric lookup that returns, a row whose key was a hit holds
    the value its cell had in the classify pass (the row's default for a
    default cell), on every path: the synchronous update that the other keys
    of the batch cause may rewrite that cell, but never that row. *)
Theorem number_hit_rows_keep_classify_value {V O : Type} `{!Inhabited V}
    {EV : Externals V} (static_cast : V → O) (get_default : nat → O)
    (d : CacheDictionary V) (a : nat) (ids : list Key) (o : list O) (now now' : Z)
    (o' : list O) (d' : CacheDictionary V) :
  length o = length ids →
  getItemsNumberImpl static_cast get_default d a ids o now now' = Ok (o', d') →
  ∀ i k, ids !! i = Some k →
    is_hit (findCellIdx (cells d) k now) = true →
    o' !! i = Some (cell_value static_cast get_default d a i
                      (cell_idx (findCellIdx (cells d) k now))).
Proof.
  intros Hlen Hres i k Hik Hhit.
  set (l := classify static_cast get_default d a now ids o).
  assert (Hrow : out l !! i =
            Some (cell_value static_cast get_default d a i
                    (cell_idx (findCellIdx (cells d) k now))))
    by (by apply classify_hit_row).
  assert (Hsync : ∀ d1,
            number_update_sync static_cast get_default a l now' d1 = Ok (o', d') →
            o' !! i = Some (cell_value static_cast get_default d a i
                              (cell_idx (findCellIdx (cells d) k now)))).
  { intros d1 Hs. rewrite number_update_sync_unfold in Hs. cbv zeta in Hs.
    destruct (tryPushToUpdateQueueOrThrow d1 _) as [d2|e]; [|discriminate].
    simpl in Hs. injection Hs as <- _.
    destruct (prepareAnswer_rows static_cast get_default a l ids
                (λ k, negb (is_hit (findCellIdx (cells d) k now)))
                (classify_groups_rows static_cast get_default d a now ids o)
                (keys_of (cache_not_found_ids l) ++ keys_of (cache_expired_ids l))
                (waitForCurrentUpdateFinish d2
                   (make_UpdateUnit
                      (keys_of (cache_not_found_ids l) ++ keys_of (cache_expired_ids l)))).2
                now'
                (waitForCurrentUpdateFinish d2
                   (make_UpdateUnit
                      (keys_of (cache_not_found_ids l) ++ keys_of (cache_expired_ids l)))).1
                (out l)) as (res & _ & Hrows).
    rewrite (Hrows i k Hik), decide_False; [done|].
    rewrite Hhit. by intros [_ ?]. }
  unfold getItemsNumberImpl in Hres. cbv zeta in Hres. fold l in Hres.
  destruct (is_empty (cache_not_found_ids l)); [|by eapply Hsync].
  destruct (is_empty (cache_expired_ids l)).
  - by injection Hres as <- _.
  - destruct (allow_read_expired_keys d); [|by eapply Hsync].
    unfold number_update_async in Hres.
    destruct (tryPushToUpdateQueueOrThrow _ _) as [d2|e]; [|discriminate].
    simpl in Hres. by injection Hres as <- _.
Qed.

Lemma number_hit_rows_keep_classify_value_witness :
  (* key 5 is a hit at time 3; key 9 is unknown and takes slot 1 from it *)
  ∃ o' d',
    getItemsNumberImpl (EV := spec_externals source_z) (λ v : Z, v) default_z
      (stale_dict_z (mkLifetime 10 10) false 10) 0 [5; 9]%N [0; 0] 3 3
    = Ok (o', d')
    ∧ o' !! 0%nat = Some 42
    ∧ cell_id <$> cells d' !! 1%nat = Some 9%N.
Proof.
  eexists _, _. split; [vm_compute; reflexivity|]. split; [|reflexivity].
  eapply (number_hit_rows_keep_classify_value (EV := spec_externals source_z)
            (λ v : Z, v) default_z
            (stale_dict_z (mkLifetime 10 10) false 10) 0 [5; 9]%N [0; 0] 3 3
            _ _ eq_refl ltac:(vm_compute; reflexivity) 0%nat 5%N eq_refl eq_refl).
Defined.

(** X7.  On the synchronous path of the numeric lookup, every row of a
    non-hit key that the update did not mark found receives the default of
    that row, whatever the update found for the other keys; a stale value
    that the classify pass had written into the row is overwritten. *)
Theorem number_unfound_rows_get_default {V O : Type} `{!Inhabited V}
    {EV : Externals V} (static_cast : V → O) (get_default : nat → O)
    (d : CacheDictionary V) (a : nat) (ids : list Key) (o : list O) (now now' : Z)
    (d2 : CacheDictionary V) :
  let r := λ k, findCellIdx (cells d) k now in
  let l := classify static_cast get_default d a now ids o in
  let d1 :=
    count_request d (length ids)
      (size (cache_expired_ids l) + size (cache_not_found_ids l)) in
  let u :=
    make_UpdateUnit
      (keys_of (cache_not_found_ids l) ++ keys_of (cache_expired_ids l)) in
  length o = length ids →
  (∃ k, k ∈ ids ∧ is_not_found (r k) = true)
  ∨ (allow_read_expired_keys d = false ∧ ∃ k, k ∈ ids ∧ is_expired (r k) = true) →
  tryPushToUpdateQueueOrThrow d1 u = Ok d2 →
  ∃ o' d',
    getItemsNumberImpl static_cast get_default d a ids o now now' = Ok (o', d')
    ∧ ∀ i k, ids !! i = Some k → is_hit (r k) = false →
        (waitForCurrentUpdateFinish d2 u).2 k = false →
        o' !! i = Some (get_default i).
Proof.
  intros r l d1 u Hlen Hcase Hpush.
  rewrite getItemsNumberImpl_sync by done.
  rewrite number_update_sync_unfold. cbv zeta.
  fold l. fold d1. fold u. rewrite Hpush. simpl.
  eexists _, _. split; [reflexivity|].
  intros i k Hik Hmiss Hmask.
  destruct (prepareAnswer_rows static_cast get_default a l ids
              (λ k, negb (is_hit (r k)))
              (classify_groups_rows static_cast get_default d a now ids o)
              (keys_of (cache_not_found_ids l) ++ keys_of (cache_expired_ids l))
              (waitForCurrentUpdateFinish d2 u).2 now'
              (waitForCurrentUpdateFinish d2 u).1 (out l))
    as (res & Hnone & Hrows).
  rewrite (Hrows i k Hik), (Hnone k Hmask), decide_True.
  - assert (Hlt : (i < length (out l))%nat).
    { unfold l. rewrite classify_length, Hlen. by eapply lookup_lt_Some. }
    by destruct (lookup_lt_is_Some_2 _ _ Hlt) as [x ->].
  - split; [|by rewrite Hmiss].
    apply required_ids_spec. split; [|done]. by eapply list_elem_of_lookup_2.
Qed.

Lemma number_unfound_rows_get_default_witness :
  (* stale reads allowed: the classify pass serves the stale 42 for key 5;
     key 7 is unknown, the source is down, so key 5 is not found either *)
  ∃ o' d',
    getItemsNumberImpl (EV := spec_externals failing_source_z) (λ v : Z, v)
      default_z (stale_dict_z (mkLifetime 10 10) true 10) 0 [5; 7]%N [0; 0] 20 20
    = Ok (o', d')
    ∧ out (classify (EV := spec_externals failing_source_z) (λ v : Z, v) default_z
             (stale_dict_z (mkLifetime 10 10) true 10) 0 20 [5; 7]%N [0; 0])
        !! 0%nat = Some 42
    ∧ o' !! 0%nat = Some 100.
Proof.
  edestruct (number_unfound_rows_get_default
               (EV := spec_externals failing_source_z) (λ v : Z, v) default_z
               (stale_dict_z (mkLifetime 10 10) true 10) 0 [5; 7]%N [0; 0] 20 20)
    as (o' & d' & Hres & Hrows).
  - reflexivity.
  - left. exists 7%N. split; [|reflexivity].
    apply elem_of_cons. right. apply list_elem_of_singleton. reflexivity.
  - vm_compute. reflexivity.
  - exists o', d'. split; [exact Hres|]. split; [reflexivity|].
    apply (Hrows 0%nat 5%N); reflexivity.
Defined.

(** X8.  On the synchronous path of the numeric lookup, when the update
    marks every requested key found, the caller's [prepareAnswer] changes
    nothing in the dictionary: the call returns the dictionary exactly as the
    update left it, and every row of a non-hit key holds the payload that
    this dictionary has, for the attribute read, in the cell found for the
    key at the time of the answer. *)
Theorem number_all_found_rows_from_update {V O : Type} `{!Inhabited V}
    {EV : Externals V} (static_cast : V → O) (get_default : nat → O)
    (d : CacheDictionary V) (a : nat) (ids : list Key) (o : list O) (now now' : Z)
    (d2 : CacheDictionary V) :
  let r := λ k, findCellIdx (cells d) k now in
  let l := classify static_cast get_default d a now ids o in
  let d1 :=
    count_request d (length ids)
      (size (cache_expired_ids l) + size (cache_not_found_ids l)) in
  let u :=
    make_UpdateUnit
      (keys_of (cache_not_found_ids l) ++ keys_of (cache_expired_ids l)) in
  let w := waitForCurrentUpdateFinish d2 u in
  length o = length ids →
  (∃ k, k ∈ ids ∧ is_not_found (r k) = true)
  ∨ (allow_read_expired_keys d = false ∧ ∃ k, k ∈ ids ∧ is_expired (r k) = true) →
  tryPushToUpdateQueueOrThrow d1 u = Ok d2 →
  (∀ k, k ∈ ids → is_hit (r k) = false → w.2 k = true) →
  ∃ o',
    getItemsNumberImpl static_cast get_default d a ids o now now' = Ok (o', w.1)
    ∧ ∀ i k, ids !! i = Some k → is_hit (r k) = false →
        o' !! i =
          Some (static_cast
                  (attribute_array w.1 a !!! cell_idx (findCellIdx (cells w.1) k now'))).
Proof.
  intros r l d1 u w Hlen Hcase Hpush Hfound.
  rewrite getItemsNumberImpl_sync by done.
  rewrite number_update_sync_unfold. cbv zeta.
  fold l. fold d1. fold u. rewrite Hpush. simpl. fold w.
  set (req := keys_of (cache_not_found_ids l) ++ keys_of (cache_expired_ids l)).
  assert (Hreq : ∀ k, k ∈ req → w.2 k = true).
  { intros k Hk. apply required_ids_spec in Hk as [Hin Hmiss]. by apply Hfound. }
  eexists. split.
  - f_equal. f_equal.
    apply (prepareAnswer_all_found_dictionary
             (number_on_cell_updated static_cast a l)
             (number_on_id_not_found get_default l)
             (mkUpdateUnit req w.2)).
    exact Hreq.
  - intros i k Hik Hmiss. unfold prepareAnswer.
    rewrite (prepareAnswer_fold_found_rows static_cast get_default a l ids
               (λ k, negb (is_hit (r k))) (mkUpdateUnit req w.2) now' req w.1 (out l)
               (classify_groups_rows static_cast get_default d a now ids o)
               Hreq i k Hik).
    rewrite decide_True.
    + assert (Hlt : (i < length (out l))%nat).
      { unfold l. rewrite classify_length, Hlen. by eapply lookup_lt_Some. }
      by destruct (lookup_lt_is_Some_2 _ _ Hlt) as [x ->].
    + split; [|by rewrite Hmiss].
      apply required_ids_spec. split; [|done]. by eapply list_elem_of_lookup_2.
Qed.

Lemma number_all_found_rows_from_update_witness :
  (* key 5 is expired, stale reads are not allowed, the source has 50 for it *)
  ∃ o' d',
    getItemsNumberImpl (EV := spec_externals source_z) (λ v : Z, v) default_z
      (stale_dict_z (mkLifetime 10 10) false 10) 0 [5; 5]%N [0; 0] 20 20
    = Ok (o', d')
    ∧ o' !! 1%nat = Some 50
    ∧ attribute_array d' 0 !! 1%nat = Some 50.
Proof.
  edestruct (number_all_found_rows_from_update
               (EV := spec_externals source_z) (λ v : Z, v) default_z
               (stale_dict_z (mkLifetime 10 10) false 10) 0 [5; 5]%N [0; 0] 20 20)
    as (o' & Hres & Hrows).
  - reflexivity.
  - right. split; [reflexivity|]. exists 5%N. split; [|reflexivity]. by left.
  - vm_compute. reflexivity.
  - intros k [->|[->|Hin]%elem_of_cons]%elem_of_cons _;
      [reflexivity | reflexivity | by apply elem_of_nil in Hin].
  - eexists o', _. split; [exact Hres|]. split; [|reflexivity].
    apply (Hrows 1%nat 5%N); reflexivity.
Defined.

(** X16.  The dispatch of [getItemsNumberImpl] (lines 104-166).  A batch in
    which no key is absent and some key is expired, with
    [allow_read_expired_keys] set, takes the asynchronous path: one update
    unit holding the distinct expired keys of the batch, in whatever order
    the map iterates, is pushed and the call returns with the output of the
    classify pass, in which every row already has the (possibly stale) value
    of its cell; nothing is waited for and no answer is prepared.  A batch
    with an absent key, or with an expired key while stale reads are not
    allowed, takes the synchronous path: one update unit holding the
    distinct non-hit keys is pushed, the caller waits for it with
    [waitForCurrentUpdateFinish], and the result is what [prepareAnswer]
    makes of the waited-for dictionary and found mask. *)
Theorem number_update_dispatch {V O : Type} `{!Inhabited V} {EV : Externals V}
    (static_cast : V → O) (get_default : nat → O)
    (d : CacheDictionary V) (a : nat) (ids : list Key) (o : list O) (now now' : Z) :
  let r := λ k, findCellIdx (cells d) k now in
  let l := classify static_cast get_default d a now ids o in
  let d1 :=
    count_request d (length ids)
      (size (cache_expired_ids l) + size (cache_not_found_ids l)) in
  let expired_ids := keys_of (cache_expired_ids l) in
  let required_ids := keys_of (cache_not_found_ids l) ++ expired_ids in
  ((∀ k, k ∈ ids → is_not_found (r k) = false) →
   (∃ k, k ∈ ids ∧ is_expired (r k) = true) →
   allow_read_expired_keys d = true →
     getItemsNumberImpl static_cast get_default d a ids o now now' =
       bind (tryPushToUpdateQueueOrThrow d1 (make_UpdateUnit expired_ids))
         (λ d2, Ok (out l, d2))
     ∧ NoDup expired_ids
     ∧ (∀ k, k ∈ expired_ids ↔ k ∈ ids ∧ is_expired (r k) = true)
     ∧ (∀ row id, ids !! row = Some id → (row < length o)%nat →
          out l !! row =
            Some (cell_value static_cast get_default d a row (cell_idx (r id)))))
  ∧ ((∃ k, k ∈ ids ∧ is_not_found (r k) = true)
     ∨ (allow_read_expired_keys d = false
        ∧ ∃ k, k ∈ ids ∧ is_expired (r k) = true) →
     getItemsNumberImpl static_cast get_default d a ids o now now' =
       bind (tryPushToUpdateQueueOrThrow d1 (make_UpdateUnit required_ids))
         (λ d2,
            let w := waitForCurrentUpdateFinish d2 (make_UpdateUnit required_ids) in
            let p :=
              prepareAnswer (number_on_cell_updated static_cast a l)
                (number_on_id_not_found get_default l)
                (mkUpdateUnit required_ids w.2) now' w.1 (out l) in
            Ok (p.2, p.1))
     ∧ NoDup required_ids
     ∧ (∀ k, k ∈ required_ids ↔ k ∈ ids ∧ is_hit (r k) = false)).
Proof.
  intros r l d1 expired_ids required_ids. split.
  - intros Hnf Hexp Hallow. split; [|split; [|split]].
    + unfold d1, l. by rewrite getItemsNumberImpl_async.
    + apply keys_of_NoDup.
    + intros k. unfold expired_ids, l. rewrite classify_expired.
      apply (keys_of_group_rows (λ k, is_expired (r k))).
    + intros row id Hrow Hlt. unfold l.
      rewrite (classify_out _ _ _ _ _ _ _ _ _ Hrow). fold (r id).
      assert (Hin : id ∈ ids) by (by eapply list_elem_of_lookup_2).
      assert (Hemits : emits (allow_read_expired_keys d) (r id) = true).
      { unfold emits. rewrite Hallow, andb_true_r.
        destruct (find_result_classes (r id)) as [(->&_)|[(_&->&_)|(_&_&Habs)]].
        - done.
        - apply orb_true_r.
        - rewrite (Hnf id Hin) in Habs. done. }
      rewrite Hemits. by destruct (lookup_lt_is_Some_2 _ _ Hlt) as [x ->].
  - intros Hcase. split; [|split].
    + unfold d1, l, required_ids, expired_ids.
      rewrite getItemsNumberImpl_sync by done.
      by rewrite number_update_sync_unfold.
    + apply required_ids_NoDup.
    + intros k. apply required_ids_spec.
Qed.

Lemma number_update_dispatch_witness :
  (* only an expired key, stale reads allowed: the stale 42 is returned and
     the unit is in the queue *)
  (∃ d', getItemsNumberImpl (EV := spec_externals source_z) (λ v : Z, v) default_z
           (stale_dict_z (mkLifetime 10 10) true 10) 0 [5]%N [0] 20 20
         = Ok ([42], d')
         ∧ requested_ids <$> update_queue d' = [[5%N]])
  (* an absent key: the answer comes from the update, the queue is drained *)
  ∧ (∃ d', getItemsNumberImpl (EV := spec_externals source_z) (λ v : Z, v) default_z
             (stale_dict_z (mkLifetime 10 10) true 10) 0 [5; 7]%N [0; 0] 20 20
           = Ok ([50; 101], d')
           ∧ update_queue d' = []).
Proof.
  destruct (number_update_dispatch (EV := spec_externals source_z)
              (λ v : Z, v) default_z
              (stale_dict_z (mkLifetime 10 10) true 10) 0 [5]%N [0] 20 20)
    as [Hasync _].
  destruct (number_update_dispatch (EV := spec_externals source_z)
              (λ v : Z, v) default_z
              (stale_dict_z (mkLifetime 10 10) true 10) 0 [5; 7]%N [0; 0] 20 20)
    as [_ Hsync].
  split.
  - destruct Hasync as (Heq & _).
    + intros k ->%list_elem_of_singleton. reflexivity.
    + exists 5%N. split; [apply list_elem_of_singleton; reflexivity | reflexivity].
    + reflexivity.
    + rewrite Heq. eexists. split; reflexivity.
  - destruct Hsync as (Heq & _).
    + left. exists 7%N. split; [|reflexivity].
      apply elem_of_cons. right. apply list_elem_of_singleton. reflexivity.
    + rewrite Heq. eexists. split; reflexivity.
Defined.

(** ** More on [getItemsString] *)

Lemma insert_rows_foldl f row ids c (o' : list string) :
  length o' = length ids →
  (∀ i k, ids !! i = Some k → o' !! i = Some (f (row + i)%nat k)) →
  insert_rows f row ids c = foldl insertData c o'.
Proof.
  revert row c o'. induction ids as [|id rest IH]; intros row c o' Hlen Hrows.
  - by destruct o'.
  - destruct o' as [|x o'']; [done|]. simpl in Hlen.
    pose proof (Hrows 0%nat id eq_refl) as H0. simpl in H0.
    injection H0 as ->. rewrite Nat.add_0_r. simpl.
    apply IH; [lia|].
    intros i k Hik. pose proof (Hrows (S i) k Hik) as HS. simpl in HS.
    rewrite HS. f_equal. f_equal. lia.
Qed.


(** X9.  In the string lookup the synchronous update is requested only when
    some key was not found.  So a batch without such a key, with an expired
    key and with stale reads disallowed, is answered without any update:
    nothing is pushed, the dictionary comes back with only the request
    counters advanced, every row of a hit holds the value of its cell and
    every row of an expired key holds the default of the row. *)
Theorem string_expired_only_answers_default {EV : Externals string}
    (get_default : nat → string) (d : CacheDictionary string) (a : nat)
    (ids : list Key) (c : ColumnString) (now0 now now' : Z) :
  let r := λ k, findCellIdx (cells d) k now in
  let l := s_classify get_default d a now ids empty_column in
  (∃ k, k ∈ ids ∧ valid (findCellIdx (cells d) k now0) = false) →
  (∀ k, k ∈ ids → is_not_found (r k) = false) →
  allow_read_expired_keys d = false →
  getItemsString get_default d a ids c now0 now now' =
    Ok (insert_rows
          (λ i id, if is_hit (r id)
                   then string_ref_of get_default d a i (cell_idx (r id))
                   else get_default i)
          0 ids empty_column,
        count_request d (length ids)
          (size (s_cache_expired_ids l) + size (s_cache_not_found_ids l))).
Proof.
  intros r l Hinvalid Hnf Hallow.
  rewrite getItemsString_slow by done.
  unfold getItemsString_pessimistic. cbv zeta.
  change (discard empty_column) with empty_column. fold l.
  assert (Hempty : is_empty (s_cache_not_found_ids l) = true).
  { unfold l. rewrite s_classify_not_found_empty. by apply group_rows_all_false. }
  unfold string_update_async, string_update_sync. rewrite Hempty.
  assert (Hcount : ∀ n m, allow_read_expired_keys (count_request d n m)
                          = allow_read_expired_keys d) by done.
  rewrite Hcount, Hallow. simpl.
  assert (Hout : s_out l = empty_column).
  { unfold l, s_classify. by rewrite s_classify_rows_out. }
  rewrite Hout, emit_rows_insert_rows. f_equal. f_equal.
  apply insert_rows_ext. intros i id Hin.
  unfold l. rewrite (s_classify_map _ _ _ _ _ _ _ Hin). fold (r id).
  unfold emits. rewrite Hallow, andb_false_r, orb_false_r.
  unfold string_ref_of. by destruct (is_hit (r id)), (isDefault _).
Qed.

Lemma string_expired_only_answers_default_witness :
  (* key 5 has the payload "a" and expired at 10; the source would have it *)
  ∃ d',
    getItemsString (EV := spec_externals source_s) default_s
      (mkDict (cells (cached_dict_s false)) (attributes (cached_dict_s false))
         0%nat (mkLifetime 10 10) false 1%N 1 0 0 [] 10%nat)
      0 [5]%N empty_column 20 20 20
    = Ok (insertData empty_column "dflt", d')
    ∧ update_queue d' = [].
Proof.
  eexists. split.
  - rewrite (string_expired_only_answers_default (EV := spec_externals source_s)).
    + reflexivity.
    + exists 5%N. split; [by left | reflexivity].
    + intros k ->%list_elem_of_singleton. reflexivity.
    + reflexivity.
  - reflexivity.
Defined.

(** X10.  On the synchronous path of the string lookup, the answer is
    emitted from the string map, and a key that the update did not mark found
    has in that map exactly what the classify pass stored for it: the payload
    of its cell if the key was served from a non-default cell (a hit, or an
    expired key with stale reads allowed), nothing otherwise.  So the rows of
    an expired key that the update did not find keep the stale payload when
    stale reads are allowed, and get the default of the row when they are
    not. *)
Theorem string_unfound_rows_keep_classified_value {EV : Externals string}
    (get_default : nat → string) (d : CacheDictionary string) (a : nat)
    (ids : list Key) (c : ColumnString) (now0 now now' : Z)
    (d2 : CacheDictionary string) :
  let r := λ k, findCellIdx (cells d) k now in
  let l := s_classify get_default d a now ids empty_column in
  let d1 :=
    count_request d (length ids)
      (size (s_cache_expired_ids l) + size (s_cache_not_found_ids l)) in
  let u :=
    make_UpdateUnit
      (keys_of (s_cache_not_found_ids l) ++ keys_of (s_cache_expired_ids l)) in
  (∃ k, k ∈ ids ∧ valid (findCellIdx (cells d) k now0) = false) →
  (∃ k, k ∈ ids ∧ is_not_found (r k) = true) →
  tryPushToUpdateQueueOrThrow d1 u = Ok d2 →
  ∃ (m' : gmap N string) (d' : CacheDictionary string),
    getItemsString get_default d a ids c now0 now now' =
      Ok (insert_rows (λ i id, default (get_default i) (m' !! id)) 0 ids empty_column,
          d')
    ∧ ∀ k, k ∈ ids → (waitForCurrentUpdateFinish d2 u).2 k = false →
        m' !! k =
          if emits (allow_read_expired_keys d) (r k)
             && negb (isDefault (cells d !!! cell_idx (r k)))
          then Some (attribute_array d a !!! cell_idx (r k))
          else None.
Proof.
  intros r l d1 u Hinvalid Hnf Hpush.
  rewrite getItemsString_slow by done.
  unfold getItemsString_pessimistic. cbv zeta.
  change (discard empty_column) with empty_column. fold l. fold d1.
  assert (Hne : is_empty (s_cache_not_found_ids l) = false).
  { unfold l. rewrite s_classify_not_found_empty.
    by apply (group_rows_nonempty (λ k, is_not_found (r k))). }
  unfold string_update_async, string_update_sync. rewrite Hne. simpl.
  fold u. rewrite Hpush. simpl.
  destruct (waitForCurrentUpdateFinish d2 u) as [dw mask] eqn:Hw. simpl.
  assert (Hout : s_out l = empty_column).
  { unfold l, s_classify. by rewrite s_classify_rows_out. }
  rewrite Hout, emit_rows_insert_rows.
  eexists _, _. split; [reflexivity|].
  intros k Hin Hmask. unfold prepareAnswer.
  rewrite string_prepareAnswer_map_unfound by done.
  cbn [fst]. unfold l. by rewrite s_classify_map.
Qed.

Lemma string_unfound_rows_keep_classified_value_witness :
  (* stale reads allowed; key 5 expired with payload "a"; key 7 unknown; the
     source is down: key 5 keeps its stale payload *)
  ∃ d',
    getItemsString
      (EV := spec_externals (mkWorld N.to_nat (λ _, None) true 20 100)) default_s
      (mkDict (cells (cached_dict_s true)) (attributes (cached_dict_s true))
         0%nat (mkLifetime 10 10) true 1%N 1 0 0 [] 10%nat)
      0 [5; 7]%N empty_column 20 20 20
    = Ok (insertData (insertData empty_column "a") "dflt", d').
Proof.
  edestruct (string_unfound_rows_keep_classified_value
               (EV := spec_externals (mkWorld N.to_nat (λ _, None) true 20 100))
               default_s
               (mkDict (cells (cached_dict_s true)) (attributes (cached_dict_s true))
                  0%nat (mkLifetime 10 10) true 1%N 1 0 0 [] 10%nat)
               0 [5; 7]%N empty_column 20 20 20)
    as (m' & d' & Hres & Hmap).
  - exists 5%N. split; [by left | reflexivity].
  - exists 7%N. split; [|reflexivity].
    apply elem_of_cons. right. by left.
  - vm_compute. reflexivity.
  - exists d'. rewrite Hres. simpl.
    rewrite (Hmap 5%N) by (by left || reflexivity).
    rewrite (Hmap 7%N) by (by (apply elem_of_cons; right; left) || reflexivity).
    reflexivity.
Defined.

(** X12.  On a batch of hits the two lookups agree: read through the same
    default getter, the string lookup returns the column made of exactly the
    values that the numeric lookup (instantiated at strings, without
    conversion) writes into its output rows, row after row, and both leave
    the dictionary in the same state. *)
Theorem string_all_hits_as_number {EV : Externals string}
    (get_default : nat → string) (d : CacheDictionary string) (a : nat)
    (ids : list Key) (o : list string) (now now1 now' : Z) :
  (∀ k, k ∈ ids → valid (findCellIdx (cells d) k now) = true) →
  length o = length ids →
  ∃ o' d',
    getItemsNumberImpl (λ s : string, s) get_default d a ids o now now' = Ok (o', d')
    ∧ getItemsString get_default d a ids empty_column now now1 now' =
        Ok (foldl insertData empty_column o', d').
Proof.
  intros Hvalid Hlen. eexists _, _.
  split; [by apply getItemsNumberImpl_all_hits|].
  unfold getItemsString. rewrite optimistic_rows_all_valid by done. simpl.
  rewrite count_all_hits_eq. f_equal. f_equal.
  apply insert_rows_foldl; [by rewrite classify_length|].
  intros i k Hik.
  rewrite (classify_hit_row _ _ _ _ _ _ _ _ _ Hlen Hik)
    by (apply Hvalid; by eapply list_elem_of_lookup_2).
  reflexivity.
Qed.

Lemma string_all_hits_as_number_witness :
  ∃ d',
    getItemsNumberImpl (EV := spec_externals source_s) (λ s : string, s) default_s
      (cached_dict_s false) 0 [5; 5]%N [""%string; ""%string] 3 3
    = Ok (["a"%string; "a"%string], d')
    ∧ getItemsString (EV := spec_externals source_s) default_s
        (cached_dict_s false) 0 [5; 5]%N empty_column 3 3 3
      = Ok (insertData (insertData empty_column "a") "a", d').
Proof.
  destruct (string_all_hits_as_number (EV := spec_externals source_s) default_s
              (cached_dict_s false) 0 [5; 5]%N [""%string; ""%string] 3 3 3)
    as (o' & d' & Hnum & Hstr).
  - intros k [->|[->|Hin]%elem_of_cons]%elem_of_cons;
      [reflexivity | reflexivity | by apply elem_of_nil in Hin].
  - reflexivity.
  - exists d'. assert (Ho' : o' = ["a"%string; "a"%string]).
    { vm_compute in Hnum. by injection Hnum as <- _. }
    subst o'. split; [exact Hnum | exact Hstr].
Defined.

(** X13.  On a batch of valid keys the string lookup appends: the rows
    that the column already holds are kept and one row per key is added
    after them (with an invalid key, in contrast, the column is emptied
    first).  In particular the empty batch returns the column as it was. *)
Theorem string_all_hits_appends {EV : Externals string}
    (get_default : nat → string) (d : CacheDictionary string) (a : nat)
    (ids : list Key) (c : ColumnString) (now0 now now' : Z) :
  (∀ k, k ∈ ids → valid (findCellIdx (cells d) k now0) = true) →
  ∃ c',
    getItemsString get_default d a ids c now0 now now' =
      Ok (c', count_all_hits d (length ids))
    ∧ c' = insert_rows
             (λ i id, string_ref_of get_default d a i
                        (cell_idx (findCellIdx (cells d) id now0)))
             0 ids c
    ∧ length (offsets c') = (length (offsets c) + length ids)%nat
    ∧ (ids = [] → c' = c).
Proof.
  intros Hvalid. eexists. split; [|split; [reflexivity|split]].
  - unfold getItemsString. by rewrite optimistic_rows_all_valid.
  - apply insert_rows_offsets.
  - by intros ->.
Qed.

Lemma string_all_hits_appends_witness :
  ∃ d',
    getItemsString (EV := spec_externals source_s) default_s
      (cached_dict_s false) 0 [5]%N (insertData empty_column "kept") 3 3 3
    = Ok (insertData (insertData empty_column "kept") "a", d').
Proof.
  destruct (string_all_hits_appends (EV := spec_externals source_s) default_s
              (cached_dict_s false) 0 [5]%N (insertData empty_column "kept") 3 3 3)
    as (c' & Hres & -> & _).
  - intros k ->%list_elem_of_singleton. reflexivity.
  - eexists. exact Hres.
Defined.

(** ** The request counters *)

Lemma remove_dups_length_le (l : list Key) : (length (remove_dups l) ≤ length l)%nat.
Proof.
  induction l as [|x l IH]; simpl; [done|].
  destruct (decide_rel elem_of x l); simpl; lia.
Qed.

Lemma group_rows_size P ids :
  size (group_rows P 0 ids ∅) = length (remove_dups (List.filter P ids)).
Proof.
  rewrite <- length_map_to_list.
  rewrite <- (length_fmap fst (map_to_list (group_rows P 0 ids ∅))).
  apply Permutation_length, NoDup_Permutation.
  - apply NoDup_fst_map_to_list.
  - apply NoDup_remove_dups.
  - intros k. rewrite elem_of_remove_dups.
    rewrite (list_elem_of_In (List.filter P ids) k), filter_In.
    rewrite <- (list_elem_of_In ids k).
    rewrite list_elem_of_fmap. split.
    + intros [[k' rows] [-> Hin]]. apply elem_of_map_to_list in Hin. simpl.
      rewrite group_rows_empty_lookup in Hin.
      destruct (P k'); [|done]. simpl in Hin.
      case_bool_decide; [done|discriminate].
    + intros [Hin HP]. exists (k, rows_of k 0 ids). split; [done|].
      apply elem_of_map_to_list. rewrite group_rows_empty_lookup, HP.
      simpl. by rewrite bool_decide_eq_true_2.
Qed.

Lemma filter_classes_length {V : Type} {EV : Externals V}
    (cs : list CellMetadata) (now : Z) (ids : list Key) :
  (length (List.filter (λ k, is_hit (findCellIdx cs k now)) ids)
   + length (List.filter (λ k, is_expired (findCellIdx cs k now)) ids)
   + length (List.filter (λ k, is_not_found (findCellIdx cs k now)) ids))%nat
  = length ids.
Proof.
  induction ids as [|id rest IH]; [done|]. simpl.
  destruct (find_result_classes (findCellIdx cs id now))
    as [(->&->&->)|[(->&->&->)|(->&->&->)]]; simpl; lia.
Qed.

(** X14.  The request counters of the numeric lookup.  [cache_hit] is the
    number of rows whose key is valid.  The expired-group and not-found-group
    maps have one entry per distinct expired, respectively not found, key of
    the batch, and [hit_count] is advanced by the number of rows minus these
    two numbers of distinct keys; [query_count] is advanced by the number of
    rows.  Hence the amount added to [hit_count] is never less than
    [cache_hit], and it exceeds it as soon as a non-hit key occurs twice in
    the batch. *)
Theorem number_request_counters {V O : Type} `{!Inhabited V} {EV : Externals V}
    (static_cast : V → O) (get_default : nat → O)
    (d : CacheDictionary V) (a : nat) (ids : list Key) (o : list O) (now : Z) :
  let r := λ k, findCellIdx (cells d) k now in
  let l := classify static_cast get_default d a now ids o in
  let expired := List.filter (λ k, is_expired (r k)) ids in
  let not_found := List.filter (λ k, is_not_found (r k)) ids in
  let d1 :=
    count_request d (length ids)
      (size (cache_expired_ids l) + size (cache_not_found_ids l)) in
  cache_hit l = length (List.filter (λ k, is_hit (r k)) ids)
  ∧ size (cache_expired_ids l) = length (remove_dups expired)
  ∧ size (cache_not_found_ids l) = length (remove_dups not_found)
  ∧ query_count d1 = fetch_add (query_count d) (Z.of_nat (length ids))
  ∧ hit_count d1 =
      fetch_add (hit_count d)
        (Z.of_nat (length ids) - Z.of_nat (length (remove_dups expired))
         - Z.of_nat (length (remove_dups not_found)))
  ∧ Z.of_nat (length ids) - Z.of_nat (length (remove_dups expired))
    - Z.of_nat (length (remove_dups not_found))
    = Z.of_nat (cache_hit l)
      + Z.of_nat (length expired - length (remove_dups expired))
      + Z.of_nat (length not_found - length (remove_dups not_found)).
Proof.
  intros r l expired not_found d1.
  assert (Hhit : cache_hit l = length (List.filter (λ k, is_hit (r k)) ids)).
  { unfold l, classify. by rewrite classify_rows_hit. }
  assert (Hexp : size (cache_expired_ids l) = length (remove_dups expired)).
  { unfold l. rewrite classify_expired. apply group_rows_size. }
  assert (Hnf : size (cache_not_found_ids l) = length (remove_dups not_found)).
  { unfold l. rewrite classify_not_found. apply group_rows_size. }
  pose proof (remove_dups_length_le expired) as Hle1.
  pose proof (remove_dups_length_le not_found) as Hle2.
  pose proof (filter_classes_length (cells d) now ids) as Hsum.
  split; [done|]. split; [done|]. split; [done|]. split; [done|].
  split.
  - unfold d1, count_request. cbv zeta. simpl hit_count.
    rewrite Hexp, Hnf. unfold fetch_add.
    rewrite Z.add_mod_idemp_r by lia. f_equal. lia.
  - rewrite Hhit. subst r expired not_found. cbv beta in *. lia.
Qed.

Lemma number_request_counters_witness :
  (* the absent key 7 occurs twice: no row is a hit, one hit is counted *)
  let d := fresh_dict_z (mkLifetime 10 10) false 10 in
  let l :=
    classify (EV := spec_externals source_z) (λ v : Z, v) default_z d 0 0
      [7; 7]%N [0; 0] in
  cache_hit l = 0%nat
  ∧ hit_count (count_request d 2
                 (size (cache_expired_ids l) + size (cache_not_found_ids l))) = 1.
Proof.
  intros d l.
  destruct (number_request_counters (EV := spec_externals source_z)
              (λ v : Z, v) default_z d 0 [7; 7]%N [0; 0] 0)
    as (Hhit & _ & _ & _ & Hcount & _).
  split; [exact Hhit | exact Hcount].
Defined.

(** ** The string lookup when the update finds every key *)

Section StringFoundFacts.
Context {EV : Externals string}.
Variable get_default : nat → string.
Implicit Types (d : CacheDictionary string) (l : StringLocals).

Lemma string_prepareAnswer_all_found a l u now req d (st : gmap N string * nat) :
  (∀ k, k ∈ req → found_ids_mask u k = true) →
  (foldl (prepareAnswer_id (string_on_cell_updated a l)
            (string_on_id_not_found get_default l) u now) (d, st) req).1 = d
  ∧ ∀ k,
      (foldl (prepareAnswer_id (string_on_cell_updated a l)
                (string_on_id_not_found get_default l) u now) (d, st) req).2.1 !! k =
        if decide (k ∈ req)
        then Some (attribute_array d a !!! cell_idx (findCellIdx (cells d) k now))
        else st.1 !! k.
Proof.
  revert st. induction req as [|k0 rest IH]; intros st Hfound.
  - split; [done|]. intros k. cbn [foldl snd].
    destruct (decide (k ∈ [])) as [Hin|_]; [by apply elem_of_nil in Hin | done].
  - change (foldl ?f (d, st) (k0 :: rest)) with (foldl f (f (d, st) k0) rest).
    assert (Hstep : prepareAnswer_id (string_on_cell_updated a l)
                      (string_on_id_not_found get_default l) u now (d, st) k0
                    = (d, string_on_cell_updated a l d k0
                            (cell_idx (findCellIdx (cells d) k0 now)) st)).
    { unfold prepareAnswer_id. by rewrite (Hfound k0) by left. }
    rewrite Hstep.
    assert (Hrest : ∀ k, k ∈ rest → found_ids_mask u k = true)
      by (intros k Hin; apply Hfound; by right).
    destruct (IH (string_on_cell_updated a l d k0
                    (cell_idx (findCellIdx (cells d) k0 now)) st) Hrest)
      as [Hd Hmap].
    split; [exact Hd|]. intros k. rewrite Hmap.
    destruct (decide (k ∈ rest)) as [Hin|Hnin].
    + by rewrite decide_True by (by right).
    + unfold string_on_cell_updated. cbn [fst].
      destruct (decide (k = k0)) as [->|Hne].
      * rewrite decide_True by (by left). by rewrite lookup_insert_eq.
      * rewrite lookup_insert_ne by done.
        rewrite decide_False; [done|].
        by intros [?|?]%elem_of_cons.
Qed.

Lemma s_required_ids_spec d a now ids c k :
  let l := s_classify get_default d a now ids c in
  k ∈ keys_of (s_cache_not_found_ids l) ++ keys_of (s_cache_expired_ids l)
  ↔ k ∈ ids ∧ is_hit (findCellIdx (cells d) k now) = false.
Proof.
  intros l. unfold l, s_classify.
  rewrite s_classify_rows_not_found, s_classify_rows_expired, elem_of_app.
  rewrite (keys_of_group_rows (λ k, is_not_found (findCellIdx (cells d) k now))).
  rewrite (keys_of_group_rows (λ k, is_expired (findCellIdx (cells d) k now))).
  destruct (find_result_classes (findCellIdx (cells d) k now))
    as [(->&->&->)|[(->&->&->)|(->&->&->)]]; intuition congruence.
Qed.
End StringFoundFacts.

(** X15.  On the synchronous path of the string lookup, when the update
    marks every requested key found, the call returns the dictionary exactly
    as the update left it, and the column has one row per key: a row of a hit
    holds what the classify pass read from the cell (the row's default for a
    default cell), and a row of any other key holds the payload that the
    updated dictionary has in the cell found for the key at the time of the
    answer. *)
Theorem string_all_found_rows_from_update {EV : Externals string}
    (get_default : nat → string) (d : CacheDictionary string) (a : nat)
    (ids : list Key) (c : ColumnString) (now0 now now' : Z)
    (d2 : CacheDictionary string) :
  let r := λ k, findCellIdx (cells d) k now in
  let l := s_classify get_default d a now ids empty_column in
  let d1 :=
    count_request d (length ids)
      (size (s_cache_expired_ids l) + size (s_cache_not_found_ids l)) in
  let u :=
    make_UpdateUnit
      (keys_of (s_cache_not_found_ids l) ++ keys_of (s_cache_expired_ids l)) in
  let w := waitForCurrentUpdateFinish d2 u in
  (∃ k, k ∈ ids ∧ valid (findCellIdx (cells d) k now0) = false) →
  (∃ k, k ∈ ids ∧ is_not_found (r k) = true) →
  tryPushToUpdateQueueOrThrow d1 u = Ok d2 →
  (∀ k, k ∈ ids → is_hit (r k) = false → w.2 k = true) →
  getItemsString get_default d a ids c now0 now now' =
    Ok (insert_rows
          (λ i id,
             if is_hit (r id)
             then string_ref_of get_default d a i (cell_idx (r id))
             else attribute_array w.1 a !!! cell_idx (findCellIdx (cells w.1) id now'))
          0 ids empty_column,
        w.1).
Proof.
  intros r l d1 u w Hinvalid Hnf Hpush Hfound.
  rewrite getItemsString_slow by done.
  unfold getItemsString_pessimistic. cbv zeta.
  change (discard empty_column) with empty_column. fold l. fold d1.
  assert (Hne : is_empty (s_cache_not_found_ids l) = false).
  { unfold l. rewrite s_classify_not_found_empty.
    by apply (group_rows_nonempty (λ k, is_not_found (r k))). }
  unfold string_update_async, string_update_sync. rewrite Hne. simpl.
  fold u. rewrite Hpush. simpl. fold w.
  set (req := keys_of (s_cache_not_found_ids l) ++ keys_of (s_cache_expired_ids l)).
  assert (Hreq : ∀ k, k ∈ req → w.2 k = true).
  { intros k Hk. apply s_required_ids_spec in Hk as [Hin Hmiss]. by apply Hfound. }
  destruct w as [dw mask] eqn:Hw. cbn [fst snd] in *.
  destruct (string_prepareAnswer_all_found get_default a l (mkUpdateUnit req mask)
              now' req dw (string_map l, total_length l) Hreq) as [Hd Hmap].
  unfold prepareAnswer. cbn [requested_ids].
  assert (Hout : s_out l = empty_column).
  { unfold l, s_classify. by rewrite s_classify_rows_out. }
  cbn [bind]. rewrite Hout, emit_rows_insert_rows, Hd. f_equal. f_equal.
  apply insert_rows_ext. intros i id Hin. rewrite Hmap. cbn [fst].
  destruct (is_hit (r id)) eqn:Hhit.
  - rewrite decide_False.
    + unfold l. rewrite (s_classify_map _ _ _ _ _ _ _ Hin). fold (r id).
      unfold emits. rewrite Hhit. simpl. unfold string_ref_of.
      by destruct (isDefault _).
    + intros Hk. apply s_required_ids_spec in Hk as [_ Hmiss].
      fold (r id) in Hmiss. congruence.
  - rewrite decide_True; [done|].
    apply s_required_ids_spec. by split.
Qed.

Lemma string_all_found_rows_from_update_witness :
  (* key 5 is unknown to the cache, the source has "a" for it *)
  ∃ d',
    getItemsString (EV := spec_externals source_s) default_s
      (mkDict (replicate 4 (mkCell 0%N 0 false))
         [mkAttribute ""%string (replicate 4 ""%string)]
         0%nat (mkLifetime 10 10) false 1%N 0 0 0 [] 10%nat)
      0 [5; 5]%N empty_column 0 0 0
    = Ok (insertData (insertData empty_column "a") "a", d')
    ∧ cells d' !! 1%nat = Some (mkCell 5%N 10000000000 false).
Proof.
  eexists. split.
  - rewrite (string_all_found_rows_from_update (EV := spec_externals source_s)
               default_s _ 0 [5; 5]%N empty_column 0 0 0 _)
      by (first [ reflexivity
                | (exists 5%N; split; [by left | reflexivity])
                | (intros k [->|[->|Hin]%elem_of_cons]%elem_of_cons _;
                   [reflexivity | reflexivity | by apply elem_of_nil in Hin]) ]).
    reflexivity.
  - reflexivity.
Defined.
